(** * PeerChat: the framed wire protocol, the relay server and the client's
      decryption path, embedded from the Python sources.

    - [Communicator]  : src/server/dependencies/modules/communicator.py
    - [Database]      : src/server/dependencies/modules/database/__init__.py
    - [Server]        : src/server/main.py
    - [Client]        : src/client/main.py and
                        src/client/dependencies/modules/home_screen.py

    Bytes are [list byte], Python strings are [string], user and message
    ids are [nat].  The SQLite file is a record of its tables, the global
    [clients] dict a [gmap], and the handler a state-and-exception monad
    over the world its threads share; threads run one after the other.
    [while True] loops take fuel, one unit per frame read. *)

From Stdlib Require Import ZArith Ascii String Strings.Byte Decimal DecimalNat DecimalString.
From stdpp Require Import base option list sorting gmap strings.

Local Open Scope nat_scope.

(** ** Exceptions and results

    Python exceptions the sources raise, catch or let escape, all of them
    subclasses of [Exception].  A computation
    either returns, raises, or (for the model of a [while] loop only) runs out
    of the fuel it was given. *)

Inductive exn : Type :=
  | ConnectionResetError
  | ConnectionAbortedError
  | ValueError
  | TypeError
  | KeyError
  | IntegrityError
  | OperationalError
  | UnpicklingError
  | OtherError (name : string).

Inductive res (A : Type) : Type :=
  | Ok (a : A)
  | Raise (e : exn)
  | OutOfFuel.
Arguments Ok {A} a.
Arguments Raise {A} e.
Arguments OutOfFuel {A}.

Global Instance res_ret : MRet res := fun A a => Ok a.
Global Instance res_bind : MBind res := fun A B k m =>
  match m with
  | Ok a => k a
  | Raise e => Raise e
  | OutOfFuel => OutOfFuel
  end.

(** ** The wire codec (communicator.py) *)

Module Communicator.

(** [str(n).encode('utf-8')] for a non-negative [int]: its decimal digits. *)
Fixpoint bytes_of_uint (u : Decimal.uint) : list byte :=
  match u with
  | Decimal.Nil => []
  | Decimal.D0 u => x30 :: bytes_of_uint u
  | Decimal.D1 u => x31 :: bytes_of_uint u
  | Decimal.D2 u => x32 :: bytes_of_uint u
  | Decimal.D3 u => x33 :: bytes_of_uint u
  | Decimal.D4 u => x34 :: bytes_of_uint u
  | Decimal.D5 u => x35 :: bytes_of_uint u
  | Decimal.D6 u => x36 :: bytes_of_uint u
  | Decimal.D7 u => x37 :: bytes_of_uint u
  | Decimal.D8 u => x38 :: bytes_of_uint u
  | Decimal.D9 u => x39 :: bytes_of_uint u
  end.

Definition py_str (n : nat) : list byte := bytes_of_uint (Nat.to_uint n).

(** [int(s)] on a string of decimal digits; anything else is a
    [ValueError] ([None] here).  Signs and digit-group underscores, which
    [int] also reads, never occur in a header written by [send] and are
    not modelled. *)
Fixpoint uint_of_bytes (bs : list byte) : option Decimal.uint :=
  match bs with
  | [] => Some Decimal.Nil
  | b :: bs' =>
      match uint_of_bytes bs' with
      | None => None
      | Some u =>
          match b with
          | x30 => Some (Decimal.D0 u)
          | x31 => Some (Decimal.D1 u)
          | x32 => Some (Decimal.D2 u)
          | x33 => Some (Decimal.D3 u)
          | x34 => Some (Decimal.D4 u)
          | x35 => Some (Decimal.D5 u)
          | x36 => Some (Decimal.D6 u)
          | x37 => Some (Decimal.D7 u)
          | x38 => Some (Decimal.D8 u)
          | x39 => Some (Decimal.D9 u)
          | _ => None
          end
      end
  end.

Definition py_int (bs : list byte) : option nat :=
  match bs with
  | [] => None
  | _ => Nat.of_uint <$> uint_of_bytes bs
  end.

(** [str.strip()]: the ASCII white space of Python. *)
Definition is_space (b : byte) : bool :=
  match b with
  | x09 | x0a | x0b | x0c | x0d | x1c | x1d | x1e | x1f | x20 => true
  | _ => false
  end.

Fixpoint lstrip (bs : list byte) : list byte :=
  match bs with
  | [] => []
  | b :: bs' => if is_space b then lstrip bs' else bs
  end.

Definition rstrip (bs : list byte) : list byte :=
  reverse (lstrip (reverse bs)).
Definition strip (bs : list byte) : list byte := rstrip (lstrip bs).

(** The most significant digit of a little-endian numeral is not zero. *)
Fixpoint top_nonzero (d : Decimal.uint) : Prop :=
  match d with
  | Decimal.Nil => False
  | Decimal.D0 d' => top_nonzero d'
  | Decimal.D1 d' | Decimal.D2 d' | Decimal.D3 d' | Decimal.D4 d'
  | Decimal.D5 d' | Decimal.D6 d' | Decimal.D7 d' | Decimal.D8 d'
  | Decimal.D9 d' =>
      match d' with
      | Decimal.Nil => True
      | _ => top_nonzero d'
      end
  end.

(** One direction of a socket: the segments written and not yet read, in
    order.  A stream with nothing left has been closed by its writer. *)
Definition stream : Type := list (list byte).

(** [socket.send(data)]; an empty [bytes] puts nothing on the wire. *)
Definition sock_send (data : list byte) (c : stream) : stream :=
  match data with
  | [] => c
  | _ => c ++ [data]
  end.

(** [socket.recv(bufsize)]: at most [bufsize] bytes of the first segment
    present, [b''] once the stream is closed. *)
Fixpoint sock_recv (bufsize : nat) (c : stream) : list byte * stream :=
  match c with
  | [] => ([], [])
  | [] :: rest => sock_recv bufsize rest
  | seg :: rest =>
      (take bufsize seg,
       match drop bufsize seg with
       | [] => rest
       | tl => tl :: rest
       end)
  end.

Definition HEADER : nat := 64.

Definition _recv (connection : stream) (bufsize : nat)
  : res (list byte * stream) :=
  let '(data, connection) := sock_recv bufsize connection in
  match data with
  | [] => Raise ConnectionResetError
  | _ => Ok (data, connection)
  end.

(** The loop [while len(data) < data_length: data += _recv(...)]. *)
Fixpoint recv_loop (fuel data_length : nat) (data : list byte)
    (connection : stream) : res (list byte * stream) :=
  if length data <? data_length then
    match fuel with
    | 0 => OutOfFuel
    | S fuel =>
        '(more, connection) ←
          _recv connection (data_length - length data);
        recv_loop fuel data_length (data ++ more) connection
    end
  else Ok (data, connection).

Section Codec.
(** [pickle.dumps] and [pickle.loads] for the values of type [V]. *)
Context {V : Type}.
Variable dumps : V -> list byte.
Variable loads : list byte -> option V.

Definition length_header_of (data : list byte) : list byte :=
  let length_header := py_str (length data) in
  length_header ++ replicate (HEADER - length length_header) x20.

Definition send (data : V) (connection : stream) : stream :=
  let data := dumps data in
  let length_header := length_header_of data in
  let connection := sock_send length_header connection in
  sock_send data connection.

(** The header is ASCII when [send] wrote it, and [decode] leaves ASCII as
    it is; any header that is not a run of digits between white space
    ends in [ValueError] here. *)
Definition receive (connection : stream) : res (V * stream) :=
  '(length_header, connection) ← _recv connection HEADER;
  match py_int (strip length_header) with
  | None => Raise ValueError
  | Some data_length =>
      '(data, connection) ←
        recv_loop data_length data_length [] connection;
      match loads data with
      | None => Raise UnpicklingError
      | Some v => Ok (v, connection)
      end
  end.
End Codec.

Section Sequences.
(** Several values on one connection. *)
Context {V : Type}.
Variable dumps : V -> list byte.
Variable loads : list byte -> option V.

(** The segments [send] writes for one value. *)
Definition frame_of (data : V) : stream := send dumps data [].

(** [send] for each value in turn, and [receive] called [n] times. *)
Definition send_all (datas : list V) (connection : stream) : stream :=
  foldl (fun connection data => send dumps data connection) connection datas.

Fixpoint receive_n (n : nat) (connection : stream)
  : res (list V * stream) :=
  match n with
  | 0 => Ok ([], connection)
  | S n =>
      '(data, connection) ← receive loads connection;
      '(datas, connection) ← receive_n n connection;
      Ok (data :: datas, connection)
  end.
End Sequences.

(** The identity pickler on raw payloads, to run the codec on. *)
Definition raw_dumps (v : list byte) : list byte := v.
Definition raw_loads (bs : list byte) : option (list byte) := Some bs.

End Communicator.

(** ** The persistence store (database/__init__.py) *)

(** [str(n)] for a non-negative [int], as inserted by an f-string. *)
Definition str_of_nat (n : nat) : string :=
  NilEmpty.string_of_uint (Nat.to_uint n).

Module Database.

(** A row of [users]: [(user_id, ip, mac, username, key)]; the sources
    read it by position, [user[0]], [user[3]], [user[4]]. *)
Record user_row : Type := User {
  user_id : nat;
  ip : string;
  mac : string;
  username : string;
  key : string
}.

(** A row of [chats]: [(chat_id, user_1, user_2)]. *)
Record chat_row : Type := ChatRow {
  chat_id : string;
  user_1 : nat;
  user_2 : nat
}.

(** A row of a chat's own table:
    [(message_id, sender_id, message, dt, unread)]. *)
Record message_row : Type := Message {
  message_id : nat;
  sender_id : nat;
  message : string;
  dt : string;
  unread : bool
}.

(** A chat's table, with the two ids of its [CHECK] constraint. *)
Record chat_table : Type := ChatTable {
  check_1 : nat;
  check_2 : nat;
  rows : list message_row
}.

(** The database file: the two fixed tables in scan order and the tables
    created per chat, by name. *)
Record t : Type := Db {
  users : list user_row;
  chats : list chat_row;
  tables : gmap string chat_table
}.

(** [add_message], [get_message] and [read_messages] splice the text of
    [chat_id] into their statement, [f'INSERT INTO {chat_id} ...'],
    [f'SELECT * FROM {chat_id} ...'] and [f'UPDATE {chat_id} SET ...'].
    Where the text is the name of a chat's table the statement runs on
    that table.  Any other text is for SQLite to read: a name in other
    letter case, a quoted name, or a statement of the sender's own making
    against any table.  What the statement then does, to fail or to
    return with the tables as it leaves them, is left open: an engine
    gives it, and the theorems hold of every engine.  The row a [SELECT]
    returns is given the shape of a message's, which the server sends on
    as it is. *)
Class Sqlite : Type := {
  insert_into : t -> string -> nat -> string -> string -> bool
                -> exn + (nat * t);
  select_from : t -> string -> nat -> exn + option message_row;
  update_unread : t -> string -> exn + t
}.

Definition spliced {A} (r : exn + A) : res A :=
  match r with
  | inl e => Raise e
  | inr a => Ok a
  end.

(** [INTEGER PRIMARY KEY AUTOINCREMENT]: one more than the largest id. *)
Definition next_id (ids : list nat) : nat := S (foldr max 0 ids).

(** [cursor.fetchone()] after a [SELECT ... WHERE]. *)
Definition fetchone {A} (p : A -> bool) (l : list A) : option A :=
  head (filter (fun a => p a = true) l).

Definition get_user (db : t) (ip mac : string) : option user_row :=
  fetchone (fun u => bool_decide (u.(Database.ip) = ip)
                     && bool_decide (u.(Database.mac) = mac)) db.(users).

Definition get_user_id (db : t) (_id : nat) : option user_row :=
  fetchone (fun u => bool_decide (u.(user_id) = _id)) db.(users).

(** [True] when no row carries [username]; [=] on [TEXT] compares the
    strings exactly. *)
Definition validate_username (db : t) (username : string) : bool :=
  match fetchone (fun u => bool_decide (u.(Database.username) = username))
                 db.(users) with
  | None => true
  | Some _ => false
  end.

Definition add_user (db : t) (ip mac username key : string)
  : res (option user_row * t) :=
  if existsb (fun u => bool_decide (u.(Database.username) = username)
               || (bool_decide (u.(Database.ip) = ip)
                   && bool_decide (u.(Database.mac) = mac))) db.(users)
  then Raise IntegrityError
  else
    let row := User (next_id (user_id <$> db.(users))) ip mac username key in
    let db := Db (db.(users) ++ [row]) db.(chats) db.(tables) in
    Ok (get_user db ip mac, db).

Definition chat_name (user_id_1 user_id_2 : nat) : string :=
  "chat_" +:+ str_of_nat user_id_1 +:+ "_" +:+ str_of_nat user_id_2.

Definition create_chat (db : t) (user_id_1 user_id_2 : nat)
  : res (string * t) :=
  let chat_id := chat_name user_id_1 user_id_2 in
  if existsb (fun c => bool_decide (c.(Database.chat_id) = chat_id))
             db.(chats)
  then Raise IntegrityError
  else
    let chats := db.(chats) ++ [ChatRow chat_id user_id_1 user_id_2] in
    (* CREATE TABLE IF NOT EXISTS *)
    let tables :=
      match db.(tables) !! chat_id with
      | Some _ => db.(tables)
      | None => <[chat_id := ChatTable user_id_1 user_id_2 []]> db.(tables)
      end in
    Ok (chat_id, Db db.(users) chats tables).

Definition add_message `{Sqlite} (db : t) (chat_id : string)
    (sender_id : nat) (message dt : string) (unread : bool) : res (nat * t) :=
  match db.(tables) !! chat_id with
  | None => spliced (insert_into db chat_id sender_id message dt unread)
  | Some tbl =>
      if bool_decide (sender_id = tbl.(check_1))
         || bool_decide (sender_id = tbl.(check_2))
      then
        let id := next_id (message_id <$> tbl.(rows)) in
        let row := Message id sender_id message dt unread in
        let tbl := ChatTable tbl.(check_1) tbl.(check_2) (tbl.(rows) ++ [row]) in
        Ok (id, Db db.(users) db.(chats) (<[chat_id := tbl]> db.(tables)))
      else Raise IntegrityError
  end.

Definition get_message `{Sqlite} (db : t) (chat_id : string)
    (message_id : nat) : res (option message_row) :=
  match db.(tables) !! chat_id with
  | None => spliced (select_from db chat_id message_id)
  | Some tbl =>
      Ok (fetchone (fun m => bool_decide (m.(Database.message_id) = message_id))
                   tbl.(rows))
  end.

(** *** [LIKE] *)

Definition is_upper (c : ascii) : bool :=
  (65 <=? nat_of_ascii c) && (nat_of_ascii c <=? 90).

(** SQLite folds the 26 ASCII capitals only. *)
Definition fold_case (c : ascii) : ascii :=
  if is_upper c then ascii_of_nat (nat_of_ascii c + 32) else c.

(** [subject LIKE pattern]: [%] stands for any run of characters, [_] for
    any one character, every other character for itself up to the case of
    ASCII letters. *)
Fixpoint like (pattern subject : list ascii) : bool :=
  match pattern with
  | [] => match subject with [] => true | _ => false end
  | p :: pattern' =>
      if bool_decide (p = "%"%char) then
        (fix any (subject : list ascii) : bool :=
           like pattern' subject
           || match subject with
              | [] => false
              | _ :: subject' => any subject'
              end) subject
      else
        match subject with
        | [] => false
        | c :: subject' =>
            (bool_decide (p = "_"%char)
             || bool_decide (fold_case p = fold_case c))
            && like pattern' subject'
        end
  end.

Definition sql_like (subject pattern : string) : bool :=
  like (list_ascii_of_string pattern) (list_ascii_of_string subject).

Definition get_users (db : t) (username : string) : list user_row :=
  filter (fun u => sql_like u.(Database.username)
                     ("%" +:+ username +:+ "%") = true) db.(users).



(** One entry of [get_user_chats]: the dict
    [{'command': 'create_chat', 'chat_id', 'is_user_1', 'peer_id',
      'peer_username', 'peer_key', 'messages'}]. *)
Record chat_dict : Type := ChatDict {
  cd_chat_id : string;
  cd_is_user_1 : bool;
  cd_peer_id : nat;
  cd_peer_username : string;
  cd_peer_key : string;
  cd_messages : list message_row
}.

(** [ORDER BY message_id DESC LIMIT 50], then [[::-1]]. *)
Definition insert_desc (m : message_row) : list message_row -> list message_row :=
  fix go l :=
    match l with
    | [] => [m]
    | x :: l' =>
        if x.(message_id) <=? m.(message_id) then m :: l else x :: go l'
    end.

Definition last_messages (rows : list message_row) : list message_row :=
  reverse (take 50 (foldr insert_desc [] rows)).

Definition chat_entry (db : t) (user_id : nat) (chat : chat_row)
  : res chat_dict :=
  let chat_id := chat.(Database.chat_id) in
  let is_user_1 := bool_decide (chat.(user_1) = user_id) in
  let peer :=
    get_user_id db (if is_user_1 then chat.(user_2) else chat.(user_1)) in
  match db.(tables) !! chat_id with
  | None => Raise OperationalError
  | Some tbl =>
      let messages := last_messages tbl.(rows) in
      match peer with
      | None => Raise TypeError           (* [peer[0]] on [None] *)
      | Some peer =>
          Ok (ChatDict chat_id is_user_1 peer.(Database.user_id)
                peer.(username) peer.(key) messages)
      end
  end.

Definition get_user_chats (db : t) (user_id : nat) : res (list chat_dict) :=
  let _chats :=
    filter (fun c => c.(user_1) = user_id \/ c.(user_2) = user_id) db.(chats) in
  mapM (chat_entry db user_id) _chats.

Definition update_user (f : user_row -> user_row) (_id : nat)
    (l : list user_row) : list user_row :=
  (fun u => if bool_decide (u.(user_id) = _id) then f u else u) <$> l.

Definition change_username (db : t) (user_id : nat) (username : string)
  : res t :=
  if existsb (fun u => bool_decide (u.(Database.username) = username)
                       && negb (bool_decide (u.(Database.user_id) = user_id)))
             db.(users)
     && existsb (fun u => bool_decide (u.(Database.user_id) = user_id)) db.(users)
  then Raise IntegrityError
  else
    Ok (Db (update_user (fun u => User u.(Database.user_id) u.(ip) u.(mac)
                                    username u.(key)) user_id db.(users))
           db.(chats) db.(tables)).

Definition change_key (db : t) (user_id : nat) (key : string) : t :=
  Db (update_user (fun u => User u.(Database.user_id) u.(ip) u.(mac)
                              u.(username) key) user_id db.(users))
     db.(chats) db.(tables).

(** [UPDATE <chat_id> SET unread = 0 WHERE unread = 1]. *)
Definition mark_read (m : message_row) : message_row :=
  if m.(unread)
  then Message m.(message_id) m.(sender_id) m.(message) m.(dt) false
  else m.

Definition read_messages `{Sqlite} (db : t) (chat_id : string) : res t :=
  match db.(tables) !! chat_id with
  | None => spliced (update_unread db chat_id)
  | Some tbl =>
      let tbl := ChatTable tbl.(check_1) tbl.(check_2) (mark_read <$> tbl.(rows)) in
      Ok (Db db.(users) db.(chats) (<[chat_id := tbl]> db.(tables)))
  end.

(** A string free of the separator of [chat_name]. *)
Fixpoint no_underscore (s : string) : Prop :=
  match s with
  | EmptyString => True
  | String c s => c <> "_"%char /\ no_underscore s
  end.

(** Every row of [chats] carries the id made from its two users, and no
    id is held by two rows (the primary key). *)
Definition chats_wf (db : t) : Prop :=
  NoDup (chat_id <$> db.(chats)) /\
  Forall (fun c => c.(chat_id) = chat_name c.(user_1) c.(user_2)) db.(chats).

(** The constraints declared for [users]: the primary key,
    [username UNIQUE] and [UNIQUE (ip, mac)]. *)
Definition users_wf (db : t) : Prop :=
  NoDup (user_id <$> db.(users))
  /\ NoDup (username <$> db.(users))
  /\ NoDup ((fun u => (u.(ip), u.(mac))) <$> db.(users)).

(** Every chat has its table and every table its chat, the ids of the
    [CHECK] being the two users of the chat; every stored message was sent by
    one of the two; and the message ids of a table go up in row order. *)
Definition tables_wf (db : t) : Prop :=
  (forall c, c ∈ db.(chats) ->
     exists tbl, db.(tables) !! c.(chat_id) = Some tbl
                 /\ tbl.(check_1) = c.(user_1) /\ tbl.(check_2) = c.(user_2))
  /\ (forall name tbl, db.(tables) !! name = Some tbl ->
        name ∈ chat_id <$> db.(chats))
  /\ (forall name tbl, db.(tables) !! name = Some tbl ->
        Forall (fun m => m.(sender_id) = tbl.(check_1)
                         \/ m.(sender_id) = tbl.(check_2)) tbl.(rows)
        /\ StronglySorted lt (message_id <$> tbl.(rows))).

End Database.

(** ** The relay server (server/main.py) *)

(** The classification behind [str.isalnum], a table of the interpreter. *)
Class CharTable : Type := char_isalnum : ascii -> bool.

Module Server.
Import Database.

(** A connected socket, by its handle. *)
Definition socket : Type := nat.

(** The dicts a client sends in the command loop, read at the keys the
    handler reads, with the types of the annotations. *)
Inductive command : Type :=
  | create_chat_cmd (peer_id : nat)
  | change_username_cmd
  | search_peer_cmd (username : string)
  | send_message_cmd (chat_id : string) (peer_id : nat) (message : string)
  | read_messages_cmd (chat_id : string)
  | unknown_cmd (name : string).

(** What [receive(client)] can return. *)
Inductive client_frame : Type :=
  | Text (s : string)
  | Command (c : command).

(** What the server passes to [send]. *)
Inductive server_frame : Type :=
  | Str (s : string)
  | Identity (_id : nat) (username : string)
  | Chat (chat : chat_dict)
  | CreateChat (chat_id : string) (is_user_1 : bool) (peer_id : nat)
               (peer_username peer_key : string)
  | ChangeKey (peer_id : nat) (peer_key : string)
  | SearchPeer (users : list user_row)
  | ReceiveMessage (chat_id : string) (message : option message_row)
  | Echo (data : command).

(** Everything the handler threads reach: the database file, the global
    [clients] dict, the frames each client will still send before it
    closes its end, every [send] made so far, the sockets closed by the
    server, the exceptions logged, and the clock. *)
Record world : Type := World {
  database : Database.t;
  clients : gmap nat socket;
  incoming : gmap socket (list client_frame);
  sent : list (socket * server_frame);
  closed : list socket;
  logged : list exn;
  now : string
}.

Definition set_database (db : Database.t) (w : world) : world :=
  World db w.(clients) w.(incoming) w.(sent) w.(closed) w.(logged) w.(now).
Definition set_clients (c : gmap nat socket) (w : world) : world :=
  World w.(database) c w.(incoming) w.(sent) w.(closed) w.(logged) w.(now).
Definition set_incoming (i : gmap socket (list client_frame)) (w : world)
  : world :=
  World w.(database) w.(clients) i w.(sent) w.(closed) w.(logged) w.(now).

(** Statements run on a world and return or raise; what they changed
    before raising stays changed. *)
Definition M (A : Type) : Type := world -> res A * world.

#[export] Instance M_ret : MRet M := fun A a w => (Ok a, w).
#[export] Instance M_bind : MBind M := fun A B k m w =>
  match m w with
  | (Ok a, w) => k a w
  | (Raise e, w) => (Raise e, w)
  | (OutOfFuel, w) => (OutOfFuel, w)
  end.

Definition raise {A} (e : exn) : M A := fun w => (Raise e, w).
Definition out_of_fuel {A} : M A := fun w => (OutOfFuel, w).

(** A query, and a statement followed by [commit()]. *)
Definition query {A} (f : Database.t -> A) : M A :=
  fun w => (Ok (f w.(database)), w).
Definition execute {A} (f : Database.t -> res (A * Database.t)) : M A :=
  fun w =>
    match f w.(database) with
    | Ok (a, db) => (Ok a, set_database db w)
    | Raise e => (Raise e, w)
    | OutOfFuel => (OutOfFuel, w)
    end.

(** The value-level channel: [send] appends to the log of frames sent,
    [receive] takes the client's next frame and raises
    [ConnectionResetError] once the client has closed. *)
Definition send (data : server_frame) (connection : socket) : M unit :=
  fun w => (Ok (),
            World w.(database) w.(clients) w.(incoming)
                  (w.(sent) ++ [(connection, data)])
                  w.(closed) w.(logged) w.(now)).

Definition receive (client : socket) : M client_frame :=
  fun w =>
    match w.(incoming) !! client with
    | Some (frame :: frames) =>
        (Ok frame, set_incoming (<[client := frames]> w.(incoming)) w)
    | _ => (Raise ConnectionResetError, w)
    end.

(** A frame of another type than the annotation of the variable it is
    bound to is outside the model; it raises [TypeError]. *)
Definition receive_str (client : socket) : M string :=
  frame ← receive client;
  match frame with
  | Text s => mret s
  | Command _ => raise TypeError
  end.

Definition receive_dict (client : socket) : M command :=
  frame ← receive client;
  match frame with
  | Command c => mret c
  | Text _ => raise TypeError
  end.

(** [key in clients], [clients[key]], [clients[key] = value] and
    [del clients[key]]. *)
Definition clients_contains (key : nat) : M bool :=
  fun w => (Ok (bool_decide (is_Some (w.(clients) !! key))), w).
Definition clients_getitem (key : nat) : M socket :=
  fun w =>
    match w.(clients) !! key with
    | Some s => (Ok s, w)
    | None => (Raise KeyError, w)
    end.
Definition clients_setitem (key : nat) (value : socket) : M unit :=
  fun w => (Ok (), set_clients (<[key := value]> w.(clients)) w).
Definition clients_delitem (key : nat) : M unit :=
  fun w =>
    match w.(clients) !! key with
    | Some _ => (Ok (), set_clients (delete key w.(clients)) w)
    | None => (Raise KeyError, w)
    end.

Definition close (client : socket) : M unit :=
  fun w => (Ok (),
            World w.(database) w.(clients) w.(incoming) w.(sent)
                  (client :: w.(closed)) w.(logged) w.(now)).
Definition log_exception (e : exn) : M unit :=
  fun w => (Ok (),
            World w.(database) w.(clients) w.(incoming) w.(sent)
                  w.(closed) (w.(logged) ++ [e]) w.(now)).

(** A call of [database.get_user]: the positional arguments are bound
    to the parameters [(ip, mac)] of the method, and Python raises
    [TypeError] when there are too few or too many. *)
Definition call_get_user (args : list string) : M (option user_row) :=
  match args with
  | [ip; mac] => query (fun db => get_user db ip mac)
  | _ => raise TypeError
  end.

(** Statements that leave the database file alone. *)
Definition keeps_database {A} (m : M A) : Prop :=
  forall w, (m w).2.(database) = w.(database).

(** Statements whose effect on the database file is within [R]. *)
Definition db_step (R : relation Database.t) {A} (m : M A) : Prop :=
  forall w, R w.(database) (m w).2.(database).

(** A command whose [chat_id], when it has one, is the name of a table of
    the database. *)
Definition names_table (db : Database.t) (data : command) : Prop :=
  match data with
  | send_message_cmd chat_id _ _ | read_messages_cmd chat_id =>
      is_Some (db.(tables) !! chat_id)
  | _ => True
  end.

(** The constraints of the store, from before a statement to after it,
    for a command that names a table. *)
Definition keeps_constraints (data : command) (db db' : Database.t) : Prop :=
  names_table db data -> users_wf db -> tables_wf db ->
  users_wf db' /\ tables_wf db'.

(** Statements that read no frame and hold no loop. *)
Definition reads_nothing {A} (m : M A) : Prop :=
  forall w, (m w).1 <> OutOfFuel /\ (m w).2.(incoming) = w.(incoming).

(** The frames a client has still to send. *)
Definition pending (client : socket) (w : world) : list client_frame :=
  default [] (w.(incoming) !! client).


Definition ALLOWED_CHARS : string := "_@ ".

Section Handler.
Context `{CharTable} `{Sqlite}.

(** [s.isalnum()]: at least one character and all of them alphanumeric. *)
Definition isalnum (s : string) : bool :=
  match list_ascii_of_string s with
  | [] => false
  | cs => forallb char_isalnum cs
  end.

(** [''.join([char for char in username if char not in ALLOWED_CHARS])]. *)
Definition strip_allowed (username : string) : string :=
  string_of_list_ascii
    (filter (fun c => c ∉ list_ascii_of_string ALLOWED_CHARS)
            (list_ascii_of_string username)).

Fixpoint get_username (fuel : nat) (client : socket) : M string :=
  match fuel with
  | 0 => out_of_fuel
  | S fuel =>
      username ← receive_str client;
      if negb (isalnum (strip_allowed username)) then
        send (Str "invalid username") client;;
        get_username fuel client
      else
        valid ← query (fun db => validate_username db username);
        if valid : bool then
          send (Str "username accepted") client;;
          mret username
        else
          send (Str "This username is already taken") client;;
          get_username fuel client
  end.

Definition create_chat (client : socket) (_id : nat) (peer_id : nat)
  : M unit :=
  chat_id ← execute (fun db => Database.create_chat db _id peer_id);
  user ← query (fun db => get_user_id db _id);
  peer ← query (fun db => get_user_id db peer_id);
  own ← clients_getitem _id;
  match peer, user with
  | None, _ => raise TypeError                 (* [peer[0]] on [None] *)
  | Some peer, user =>
      present ← clients_contains peer.(user_id);
      _clients ←
        (if present && negb (bool_decide (peer.(user_id) = _id))
         then other ← clients_getitem peer.(user_id); mret [own; other]
         else mret [own]);
      mapM (fun _client : socket =>
              if bool_decide (_client = client) then
                send (CreateChat chat_id true peer.(user_id)
                        peer.(username) peer.(key)) _client
              else
                match user with
                | None => raise TypeError      (* [user[3]] on [None] *)
                | Some user =>
                    send (CreateChat chat_id false _id
                            user.(username) user.(key)) _client
                end) _clients;;
      (* Logger.info('main: Chat created(%s, %s)', user[3], peer[3]) *)
      match user with
      | None => raise TypeError                (* [user[3]] on [None] *)
      | Some _ => mret ()
      end
  end.

Definition send_message (_id : nat) (chat_id : string) (peer_id : nat)
    (message : string) : M unit :=
  dt ← (fun w => (Ok w.(now), w));
  let self_chat := bool_decide (_id = peer_id) in
  msg_id ← execute (fun db =>
             add_message db chat_id _id message dt (negb self_chat));
  present ← clients_contains peer_id;
  if present && negb self_chat then
    row ← (fun w => (get_message w.(database) chat_id msg_id, w));
    peer ← clients_getitem peer_id;
    send (ReceiveMessage chat_id row) peer
  else mret ().

(** One turn of the command loop, after [data = receive(client)]. *)
Definition dispatch (fuel : nat) (client : socket) (_id : nat)
    (data : command) : M unit :=
  match data with
  | create_chat_cmd peer_id => create_chat client _id peer_id
  | change_username_cmd =>
      send (Echo data) client;;
      clients_delitem _id;;
      username ← get_username fuel client;
      execute (fun db => db ← change_username db _id username; mret ((), db));;
      clients_setitem _id client
  | search_peer_cmd username =>
      users ← query (fun db => get_users db username);
      send (SearchPeer users) client
  | send_message_cmd chat_id peer_id message =>
      send_message _id chat_id peer_id message
  | read_messages_cmd chat_id =>
      execute (fun db => db ← read_messages db chat_id; mret ((), db))
  | unknown_cmd _ => mret ()
  end.

Fixpoint command_loop (fuel : nat) (client : socket) (_id : nat) : M unit :=
  match fuel with
  | 0 => out_of_fuel
  | S fuel =>
      data ← receive_dict client;
      dispatch fuel client _id data;;
      command_loop fuel client _id
  end.

(** A run of commands, each [(client, _id, data)] read by the session of
    user [_id] on socket [client]; a command that raises ends its session
    and the others go on. *)
Fixpoint run_commands (fuel : nat) (cmds : list (socket * nat * command))
    (w : world) : world :=
  match cmds with
  | [] => w
  | (client, _id, data) :: cmds =>
      run_commands fuel cmds (dispatch fuel client _id data w).2
  end.

(** A run in which every command names a table that exists when the
    command is handled. *)
Fixpoint names_tables (fuel : nat) (cmds : list (socket * nat * command))
    (w : world) : Prop :=
  match cmds with
  | [] => True
  | (client, _id, data) :: cmds =>
      names_table w.(database) data
      /\ names_tables fuel cmds (dispatch fuel client _id data w).2
  end.

(** What the handler knows once [_id = user[0]] has run. *)
Record login : Type := Login {
  login_user : user_row;
  login_username : string;
  registered : bool;
  key_changed : bool
}.

(** Lines 66 to 69: the branch of a client not seen before. *)
Definition register (fuel : nat) (client : socket) (ip mac key : string)
  : M login :=
  send (Str "unregistered") client;;
  username ← get_username fuel client;
  user ← execute (fun db => add_user db ip mac username key);
  match user with
  | None => raise TypeError
  | Some user => mret (Login user username false false)
  end.

(** Lines 71 to 77: the branch of a known client, [user] being its row. *)
Definition reconnect (client : socket) (mac key : string) (user : user_row)
  : M login :=
  send (Str "registered") client;;
  if negb (bool_decide (key = user.(Database.key))) then
    execute (fun db => Ok ((), change_key db user.(user_id) key));;
    user ← call_get_user [mac];
    match user with
    | None => raise TypeError
    | Some user => mret (Login user user.(username) true true)
    end
  else mret (Login user user.(username) true false).

(** Lines 60 to 81, up to the evaluation of [user[0]]. *)
Definition authenticate (fuel : nat) (client : socket)
    (address : string * nat) : M login :=
  let ip := address.1 in
  mac ← receive_str client;
  user ← call_get_user [mac];
  key ← receive_str client;
  match user with
  | None => register fuel client ip mac key
  | Some user => reconnect client mac key user
  end.

(** The loop over [database.get_user_chats(_id)]. *)
Definition sync_chat (client : socket) (_id : nat) (user : user_row)
    (key_changed : bool) (chat : chat_dict) : M unit :=
  send (Chat chat) client;;
  present ← clients_contains chat.(cd_peer_id);
  if key_changed && present
     && negb (bool_decide (chat.(cd_peer_id) = _id)) then
    peer ← clients_getitem chat.(cd_peer_id);
    send (ChangeKey _id user.(key)) peer
  else mret ().

(** The world once [frames] have been sent on top of what was. *)
Definition sending (frames : list (socket * server_frame)) (w : world)
  : world :=
  World w.(database) w.(clients) w.(incoming) (w.(sent) ++ frames)
        w.(closed) w.(logged) w.(now).

Definition sync (client : socket) (l : login) : M unit :=
  let _id := l.(login_user).(user_id) in
  if l.(registered) then
    user_chats ← (fun w => (get_user_chats w.(database) _id, w));
    mapM (sync_chat client _id l.(login_user) l.(key_changed)) user_chats;;
    send (Str "sync complete") client
  else mret ().

(** Lines 82 to 127. *)
Definition session (fuel : nat) (client : socket) (l : login) : M unit :=
  let _id := l.(login_user).(user_id) in
  send (Identity _id l.(login_username)) client;;
  sync client l;;
  clients_setitem _id client;;
  command_loop fuel client _id.

(** The two [except] clauses. *)
Definition is_disconnect (e : exn) : bool :=
  match e with
  | ConnectionResetError | ConnectionAbortedError => true
  | _ => false
  end.

Definition except (client : socket) (_id : option nat) (e : exn) : M unit :=
  if is_disconnect e then
    match _id with
    | Some _id =>
        present ← clients_contains _id;
        if present : bool then clients_delitem _id else mret ()
    | None => mret ()
    end;;
    close client
  else log_exception e.

(** The [try] block: how it ended, the local [_id] at that point, and
    the world it left. *)
Definition handle_client_try (fuel : nat) (client : socket)
    (address : string * nat) (w : world) : res unit * option nat * world :=
  match authenticate fuel client address w with
  | (Ok l, w) =>
      let '(r, w) := session fuel client l w in
      (r, Some l.(login_user).(user_id), w)
  | (Raise e, w) => (Raise e, None, w)
  | (OutOfFuel, w) => (OutOfFuel, None, w)
  end.

Definition handle_client (fuel : nat) (client : socket)
    (address : string * nat) (w : world) : res unit * world :=
  match handle_client_try fuel client address w with
  | (Raise e, _id, w) => except client _id e w
  | (r, _, w) => (r, w)
  end.

End Handler.

(** The alphanumeric characters of ASCII. *)
Definition ascii_isalnum (c : ascii) : bool :=
  let n := nat_of_ascii c in
  ((48 <=? n) && (n <=? 57)) || ((65 <=? n) && (n <=? 90))
  || ((97 <=? n) && (n <=? 122)).

(** *** Accepting a connection *)

Definition __version__ : list string := ["v1.1.0"; "v1.1.1"].
Definition __PROJECT__ : string := "PeerChat".
Definition __DEBUG__ : bool := false.

(** [bytes.decode()]: bytes below 128 are the characters they encode.  On a
    byte from 128 up the call raises [UnicodeDecodeError] or gives a string
    with a character outside ASCII; both are [None] here, [listen] comparing
    the result with ASCII strings only. *)
Definition decode (data : list byte) : option string :=
  if forallb (fun b => Byte.to_nat b <? 128) data
  then Some (string_of_list_byte data)
  else None.

(** An accepted socket at the level of bytes: what the client wrote and the
    server has not read, what the server wrote, and whether the server
    closed it. *)
Record connection : Type := Connection {
  inbound : Communicator.stream;
  outbound : Communicator.stream;
  is_closed : bool
}.

Section Listen.
Context {V : Type}.
Variable dumps : V -> list byte.
(** The string ['Connected'] as a value to pickle. *)
Variable connected : V.

(** [listen] from the return of [accept] on: whether the connection is
    returned, and the socket as it is left.  A read that times out ends as
    a greeting that is refused does. *)
Definition listen (_connection : connection) : bool * connection :=
  let '(data, inbound) := Communicator.sock_recv 64 _connection.(inbound) in
  let refuse := (false, Connection inbound _connection.(outbound) true) in
  match decode data with
  | None => refuse
  | Some greeting =>
      if bool_decide (greeting ∈ (fun version =>
                                    __PROJECT__ +:+ "_" +:+ version)
                                 <$> __version__)
         || __DEBUG__
      then (true,
            Connection inbound
              (Communicator.send dumps connected _connection.(outbound))
              false)
      else refuse
  end.
End Listen.

End Server.

(** ** The client's decryption path (client/main.py, home_screen.py) *)

Module Client.
Import Database.

(** What a call of [pq_ntru.decrypt] does: return a plaintext or throw. *)
Inductive outcome : Type :=
  | Returns (plaintext : string)
  | Throws (e : exn).

(** A message label as [add_text] leaves it; the width is in units of
    [Metrics.dp]. *)
Record label : Type := Label {
  text : string;
  italic : bool;
  width : nat
}.

Definition SIZES : list ((nat * nat) * nat) :=
  [((0, 5), 80); ((5, 10), 110); ((10, 15), 140); ((15, 20), 170);
   ((20, 25), 200); ((25, 30), 230); ((30, 35), 260); ((35, 40), 290);
   ((40, 45), 320); ((45, 50), 350)].

Definition failure_text : string := "Unable to decrypt message".

(** [MessageLabel.add_text]; [italic] is set on the failure path only. *)
Definition add_text (text : option string) : label :=
  let '(text, italic) :=
    match text with
    | None => (failure_text, true)
    | Some text => (text, false)
    end in
  let fix pick (sizes : list ((nat * nat) * nat)) : nat :=
    match sizes with
    | [] => 400
    | (size, w) :: sizes =>
        if (size.1 <=? String.length text) && (String.length text <? size.2)
        then w else pick sizes
    end in
  Label text italic (pick SIZES).

(** The cache of a chat, [saved_chat]: ciphertext to plaintext, [None]
    for a decryption that failed. *)
Definition dict_update (d : gmap string (option string))
    (pairs : list (string * option string)) : gmap string (option string) :=
  foldl (fun d kv => <[kv.1 := kv.2]> d) d pairs.

(** [ChatScreen.add_message] with [encrypted=True]: the label of a row.
    A ciphertext missing from the cache is a [KeyError], caught. *)
Definition add_message (saved_chat : gmap string (option string))
    (message : message_row) : label :=
  let _message :=
    match saved_chat !! message.(Database.message) with
    | Some plaintext => plaintext
    | None => None
    end in
  add_text _message.

Section Crypto.
(** [pq_ntru.decrypt(key_dir, message)]. *)
Variable pq_ntru_decrypt : string -> string -> outcome.

Definition decrypt_message (message _key_dir : string)
  : string * option string :=
  let decrypted_message :=
    match pq_ntru_decrypt _key_dir message with
    | Returns plaintext => Some plaintext
    | Throws ValueError => None
    | Throws _ => None               (* logged *)
    end in
  (message, decrypted_message).

(** [pool.starmap(main.decrypt_message, args)]. *)
Definition starmap (args : list (string * string))
  : list (string * option string) :=
  (fun a => decrypt_message a.1 a.2) <$> args.

(** The state of one chat on the client: the cache in memory, the cache
    file (absent until first written) and the labels on the screen. *)
Record chat_screen : Type := ChatScreen {
  saved_chat : gmap string (option string);
  saved_chat_file : option (gmap string (option string));
  labels : list label
}.

(** [HomeScreen.listen], the branch of [receive_message]. *)
Definition on_receive_message (key_dir : string) (cs : chat_screen)
    (message : message_row) : chat_screen :=
  let decrypted_message := starmap [(message.(Database.message), key_dir)] in
  let saved := dict_update cs.(saved_chat) decrypted_message in
  (* save_chat() *)
  let file := Some saved in
  ChatScreen saved file (cs.(labels) ++ [add_message saved message]).

(** [HomeScreen.add_existing_chat], for the chat dict received during
    the synchronisation. *)
Definition add_existing_chat (key_dir : string) (cs : chat_screen)
    (peer_id : nat) (messages : list message_row) : chat_screen :=
  let saved :=
    match cs.(saved_chat_file) with
    | Some d => d
    | None => ∅
    end in
  let messages_to_decrypt :=
    (fun m => (m.(Database.message), key_dir)) <$>
      filter (fun m => saved !! m.(Database.message) = None
                       /\ m.(sender_id) = peer_id) messages in
  let cs :=
    match messages_to_decrypt with
    | [] => cs
    | _ =>
        let decrypted_messages := starmap messages_to_decrypt in
        let saved := dict_update saved decrypted_messages in
        (* pickle.dump, then chat_screen.load_chat() *)
        ChatScreen saved (Some saved) cs.(labels)
    end in
  ChatScreen cs.(saved_chat) cs.(saved_chat_file)
    (cs.(labels) ++ (add_message cs.(saved_chat) <$> messages)).
End Crypto.

(** The end of [add_existing_chat]: the chat is marked in the list when a
    message of the peer is unread and the chat is not the one on screen;
    otherwise [read_messages] is sent for it. *)
Inductive loaded : Type :=
  | Notify
  | SendReadMessages.

Definition after_loading (current chat_id : string) (peer_id : nat)
    (messages : list message_row) : loaded :=
  let unread :=
    existsb (fun m => m.(Database.unread)
                      && bool_decide (m.(sender_id) = peer_id)) messages in
  if unread && negb (bool_decide (current = chat_id))
  then Notify else SendReadMessages.

(** [str.strip()] on ASCII text. *)
Definition str_strip (s : string) : string :=
  string_of_list_byte (Communicator.strip (list_byte_of_string s)).

Section Sending.
(** [pq_ntru.encrypt(peer_key_dir, message)]. *)
Variable pq_ntru_encrypt : string -> string -> outcome.

Definition encrypt_message (message peer_key_dir : string)
  : option (string * string) :=
  match pq_ntru_encrypt peer_key_dir message with
  | Returns ciphertext => Some (ciphertext, message)
  | Throws _ => None                 (* logged *)
  end.

(** [ChatScreen.send_message._send]: the command handed to [send], if any,
    and the chat as it is left.  [input] is the text of the input field,
    ASCII text, whose characters are its bytes; an exception is raised
    again in the main thread by [raise_exception]. *)
Definition _send (chat_id : string) (peer_id : nat) (peer_key_dir : string)
    (loading_messages : bool) (input : string) (cs : chat_screen)
  : res (option Server.command) * chat_screen :=
  let message := str_strip input in
  if negb (bool_decide (message = ""%string)) && negb loading_messages
     && (String.length message <=? 500)
  then
    (* add_message(..., encrypted=False) *)
    let cs := ChatScreen cs.(saved_chat) cs.(saved_chat_file)
                (cs.(labels) ++ [add_text (Some message)]) in
    match encrypt_message message peer_key_dir with
    | None => (Raise (OtherError "Exception"), cs)
    | Some (ciphertext, plaintext) =>
        let saved := dict_update cs.(saved_chat) [(ciphertext, Some plaintext)] in
        (Ok (Some (Server.send_message_cmd chat_id peer_id ciphertext)),
         (* save_chat() *)
         ChatScreen saved (Some saved) cs.(labels))
    end
  else (Ok None, cs).
End Sending.

(** *** The address a client reports *)

(** ['{:02x}'.format(n)] for [0 <= n < 256]. *)
Definition hex_digit (n : Z) : ascii :=
  default "0"%char (list_ascii_of_string "0123456789abcdef" !! Z.to_nat n).

Definition format_02x (n : Z) : string :=
  String (hex_digit (n / 16)) (String (hex_digit (n mod 16)) "").

(** [get_mac_address], [mac] being [uuid.getnode()]; the shifts are those
    of [range(0, 2 * 6, 2)]. *)
Definition get_mac_address (mac : Z) : string :=
  String.concat ":"
    (reverse ((fun elements => format_02x (Z.land (Z.shiftr mac elements) 255))
                <$> [0; 2; 4; 6; 8; 10]%Z)).

End Client.

(** ** Sample states *)

Module Scenario.
Import Database Server.

Definition alice : user_row := User 1 "10.0.0.1" "aa:aa" "alice" "KA".
Definition bob : user_row := User 2 "10.0.0.2" "bb:bb" "bob" "KB".

(** Two users, their chat and the self-chat of the first. *)
Definition db : Database.t :=
  Db [alice; bob]
     [ChatRow "chat_1_2" 1 2; ChatRow "chat_1_1" 1 1]
     (<["chat_1_2" := ChatTable 1 2 []]>
        (<["chat_1_1" := ChatTable 1 1 []]> ∅)).

(** The two users before any chat exists, both connected. *)
Definition lobby : world :=
  World (Db [alice; bob] [] ∅) (<[1 := 10]> (<[2 := 20]> ∅)) ∅ [] [] []
        "01-09-2024 12:00".

(** Nobody connected; socket 10 is about to send [frames]. *)
Definition connecting (frames : list client_frame) : world :=
  World db ∅ (<[10 := frames]> ∅) [] [] [] "01-09-2024 12:00".

(** Both users in the registry, on sockets 10 and 20. *)
Definition online (frames : list client_frame) : world :=
  World db (<[1 := 10]> (<[2 := 20]> ∅)) (<[10 := frames]> ∅) [] [] []
        "01-09-2024 12:00".

(** Three chats with history; user 1 has a second session on socket 11,
    which holds the registry entry, while socket 10 connects. *)
Definition history : Database.t :=
  Db [alice; bob]
     [ChatRow "chat_1_2" 1 2; ChatRow "chat_1_1" 1 1; ChatRow "chat_2_1" 2 1]
     (<["chat_1_2" := ChatTable 1 2
          [Message 1 1 "c1" "01-09-2024 11:00" true;
           Message 2 2 "c2" "01-09-2024 11:01" true]]>
        (<["chat_1_1" := ChatTable 1 1
             [Message 1 1 "n1" "01-09-2024 11:02" false]]>
           (<["chat_2_1" := ChatTable 2 1
                [Message 1 2 "d1" "01-09-2024 11:03" true]]> ∅))).

Definition chatting (frames : list client_frame) : world :=
  World history (<[1 := 11]> (<[2 := 20]> ∅)) (<[10 := frames]> ∅) [] [] []
        "01-09-2024 12:00".

(** A decryption that throws on two ciphertexts and succeeds on the rest. *)
Definition toy_decrypt (key_dir message : string) : Client.outcome :=
  if bool_decide (message = "garbled") then Client.Throws ValueError
  else if bool_decide (message = "broken")
       then Client.Throws (OtherError "RuntimeError")
       else Client.Returns ("plain " +:+ message).

#[export] Instance ascii_table : CharTable := ascii_isalnum.

(** An engine for the examples, which name tables: it has no table but
    those of the chats and fails every other statement. *)
#[export] Instance no_other_table : Sqlite := {
  insert_into _ _ _ _ _ _ := inl OperationalError;
  select_from _ _ _ := inl OperationalError;
  update_unread _ _ := inl OperationalError
}.
End Scenario.

(** * Properties *)

(** ** Framing *)

Section Framing.
Import Communicator.

Lemma uint_of_bytes_of_uint u : uint_of_bytes (bytes_of_uint u) = Some u.
Proof. induction u; simpl; rewrite ?IHu; reflexivity. Qed.

Lemma py_str_nonempty n : py_str n <> [].
Proof.
  unfold py_str. intros E.
  pose proof (uint_of_bytes_of_uint (Nat.to_uint n)) as H.
  rewrite E in H. simpl in H. injection H as H.
  pose proof (DecimalNat.Unsigned.of_to n) as Hn. rewrite <- H in Hn.
  simpl in Hn. subst n. discriminate H.
Qed.

Lemma py_int_py_str n : py_int (py_str n) = Some n.
Proof.
  pose proof (py_str_nonempty n) as Hne.
  unfold py_int. destruct (py_str n) eqn:E; [congruence|].
  rewrite <- E. unfold py_str. rewrite uint_of_bytes_of_uint. simpl.
  f_equal. apply DecimalNat.Unsigned.of_to.
Qed.

Lemma digits_not_space u :
  Forall (fun b => is_space b = false) (bytes_of_uint u).
Proof. induction u; simpl; constructor; auto. Qed.

Lemma lstrip_spaces k bs : lstrip (replicate k x20 ++ bs) = lstrip bs.
Proof. induction k; simpl; auto. Qed.

Lemma lstrip_head b bs : is_space b = false -> lstrip (b :: bs) = b :: bs.
Proof. simpl. intros ->. reflexivity. Qed.

Lemma strip_padded ds k :
  Forall (fun b => is_space b = false) ds ->
  strip (ds ++ replicate k x20) = ds.
Proof.
  intros Hds. unfold strip, rstrip.
  assert (Hl : lstrip (ds ++ replicate k x20) = ds ++ replicate k x20
               \/ ds = []).
  { destruct ds as [|d ds]; [now right|left].
    inversion Hds; subst. simpl. now rewrite H1. }
  destruct Hl as [Hl | ->].
  - rewrite Hl, reverse_app, reverse_replicate, lstrip_spaces.
    destruct (reverse ds) as [|d r] eqn:E.
    + apply (f_equal reverse) in E. rewrite reverse_involutive in E.
      now subst.
    + rewrite lstrip_head.
      * rewrite <- E. apply reverse_involutive.
      * assert (Hin : d ∈ ds).
        { apply elem_of_reverse. rewrite E. left. }
        rewrite Forall_forall in Hds. now apply Hds.
  - simpl. rewrite <- (app_nil_r (replicate k x20)) at 1.
    rewrite lstrip_spaces. reflexivity.
Qed.

Lemma header_parses data :
  py_int (strip (length_header_of data)) = Some (length data).
Proof.
  unfold length_header_of. rewrite strip_padded.
  - apply py_int_py_str.
  - apply digits_not_space.
Qed.

Lemma header_length data :
  length (py_str (length data)) <= HEADER ->
  length (length_header_of data) = HEADER.
Proof.
  intros H. unfold length_header_of.
  rewrite length_app, length_replicate. lia.
Qed.

(** What one [recv] hands over: a non-empty piece from the front of the
    bytes in flight, no longer than asked for. *)
Lemma sock_recv_spec bufsize (c : stream) :
  0 < bufsize -> concat c <> [] ->
  exists d c', sock_recv bufsize c = (d, c') /\ d <> [] /\
               length d <= bufsize /\ d ++ concat c' = concat c.
Proof.
  intros Hb. induction c as [|seg rest IH]; simpl; [congruence|].
  intros Hc. destruct seg as [|b seg].
  - simpl in Hc. destruct (IH Hc) as (d & c' & E & ?). eauto.
  - eexists _, _. split; [reflexivity|].
    destruct bufsize as [|k]; [lia|]. simpl.
    split; [discriminate|]. split.
    + rewrite length_take. lia.
    + assert (E : concat (match drop k seg with [] => rest | tl => tl :: rest end)
                  = drop k seg ++ concat rest)
        by (destruct (drop k seg); reflexivity).
      rewrite E. f_equal.
      rewrite (app_assoc (take k seg)), take_drop. reflexivity.
Qed.

(** The payload loop returns exactly the next [data_length] bytes of the
    stream, however they were cut into segments. *)
Lemma recv_loop_spec fuel : forall data_length data p more (c : stream),
  concat c = p ++ more ->
  length data + length p = data_length ->
  length p <= fuel ->
  exists c', recv_loop fuel data_length data c = Ok (data ++ p, c')
             /\ concat c' = more.
Proof.
  induction fuel as [|fuel IH]; intros n data p more c Hc Hn Hf.
  - destruct p; [|simpl in Hf; lia]. simpl.
    replace (length data <? n) with false
      by (symmetry; apply Nat.ltb_ge; simpl in Hn; lia).
    rewrite app_nil_r. eauto.
  - simpl. destruct (Nat.ltb_spec (length data) n) as [Hlt|Hge].
    + destruct (sock_recv_spec (n - length data) c) as (d & c' & E & Hd & Hl & Hcat).
      * lia.
      * rewrite Hc. destruct p; [simpl in Hn; lia|discriminate].
      * unfold _recv. rewrite E.
        destruct d as [|b d]; [congruence|]. simpl.
        assert (Hp : exists p', p = (b :: d) ++ p').
        { exists (drop (length (b :: d)) p).
          rewrite Hc in Hcat.
          assert (Ht : take (length (b :: d)) (p ++ more) = b :: d).
          { rewrite <- Hcat. now rewrite take_app_length. }
          rewrite take_app_le in Ht by lia.
          rewrite <- Ht at 1. now rewrite take_drop. }
        destruct Hp as [p' ->].
        destruct (IH n (data ++ b :: d) p' more c') as (c'' & E' & Hc'').
        -- rewrite Hc, <- app_assoc in Hcat.
           now apply app_inv_head in Hcat.
        -- rewrite !length_app in *. lia.
        -- rewrite length_app in Hf. simpl in *. lia.
        -- exists c''. rewrite E', <- app_assoc. auto.
    + destruct p; [|simpl in Hn; lia]. rewrite app_nil_r. eauto.
Qed.

Context {V : Type} (dumps : V -> list byte) (loads : list byte -> option V).

(** [receive] on any stream that carries a frame written by [send],
    whose first segment holds the whole header: the value comes back and
    the bytes after the frame stay in the stream. *)
Lemma receive_frame (v : V) seg rest more :
  loads (dumps v) = Some v ->
  length (py_str (length (dumps v))) <= HEADER ->
  HEADER <= length seg ->
  concat (seg :: rest) = length_header_of (dumps v) ++ dumps v ++ more ->
  exists c', receive loads (seg :: rest) = Ok (v, c') /\ concat c' = more.
Proof.
  intros Hv Hfit Hseg Hc.
  pose proof (header_length _ Hfit) as Hlen.
  unfold receive, _recv.
  destruct seg as [|b seg]; [unfold HEADER in Hseg; simpl in Hseg; lia|].
  cbn [sock_recv].
  assert (Hhd : take HEADER (b :: seg) = length_header_of (dumps v)).
  { assert (H : take HEADER (concat ((b :: seg) :: rest))
                = take HEADER (length_header_of (dumps v) ++ dumps v ++ more))
      by (now rewrite Hc).
    change (concat ((b :: seg) :: rest))
      with ((b :: seg) ++ concat rest) in H.
    rewrite take_app_le in H by lia.
    rewrite H, <- Hlen. now rewrite take_app_length. }
  rewrite Hhd.
  destruct (length_header_of (dumps v)) as [|h hs] eqn:Eh;
    [unfold HEADER in Hlen; simpl in Hlen; lia|].
  rewrite <- Eh. cbn [mbind res_bind]. rewrite header_parses.
  set (c1 := match drop HEADER (b :: seg) with [] => rest | tl => tl :: rest end).
  assert (Hc1 : concat c1 = dumps v ++ more).
  { assert (E : concat c1 = drop HEADER (b :: seg) ++ concat rest).
    { unfold c1. destruct (drop HEADER (b :: seg)); reflexivity. }
    rewrite E.
    assert (D : drop HEADER (concat ((b :: seg) :: rest)) = dumps v ++ more).
    { rewrite Hc, <- Hlen. now rewrite drop_app_length. }
    change (concat ((b :: seg) :: rest))
      with ((b :: seg) ++ concat rest) in D.
    rewrite drop_app_le in D by lia. exact D. }
  destruct (recv_loop_spec (length (dumps v)) (length (dumps v)) []
              (dumps v) more c1 Hc1) as (c' & E & Hc'); [reflexivity|lia|].
  rewrite E. cbn [mbind res_bind]. simpl app. rewrite Hv. eauto.
Qed.

End Framing.

(** *** The header is wide enough for any payload a machine can hold *)

Section HeaderWidth.
Import Communicator.
Import DecimalNat.Unsigned.

Lemma top_nonzero_succ d :
  top_nonzero d \/ d = Decimal.zero -> top_nonzero (Decimal.Little.succ d).
Proof.
  induction d; intros [Hd|Hd]; simpl in *; try discriminate; try tauto;
    try (destruct d; simpl in *; tauto).
  injection Hd as ->. exact I.
Qed.

Lemma top_nonzero_to_lu n : 0 < n -> top_nonzero (to_lu n).
Proof.
  induction n as [|n IH]; [lia|]. intros _. simpl.
  apply top_nonzero_succ. destruct n; [now right|left; apply IH; lia].
Qed.

Lemma top_nonzero_bound d :
  top_nonzero d ->
  (10 ^ N.of_nat (Decimal.nb_digits d - 1) <= N.of_nat (of_lu d))%N.
Proof.
  assert (Hstep : forall d' x, d' <> Decimal.Nil ->
    (10 ^ N.of_nat (Decimal.nb_digits d' - 1) <= N.of_nat (of_lu d'))%N ->
    (10 ^ N.of_nat (Decimal.nb_digits d') <= N.of_nat (x + 10 * of_lu d'))%N).
  { intros d' x Hne Hle.
    assert (Hnb : Decimal.nb_digits d' = S (Decimal.nb_digits d' - 1))
      by (destruct d'; simpl; try congruence; lia).
    rewrite Hnb, Nat2N.inj_succ, N.pow_succ_r'. lia. }
  induction d; intros Hd; [destruct Hd|..]; rewrite of_lu_eqn;
    cbn [hd tl Decimal.nb_digits]; rewrite Nat.sub_succ, Nat.sub_0_r.
  1: apply Hstep; [intros ->; exact Hd | apply IHd; exact Hd].
  all: destruct d;
    [ cbn; lia | apply Hstep; [discriminate | apply IHd; exact Hd] .. ].
Qed.

Lemma length_bytes_of_uint u :
  length (bytes_of_uint u) = Decimal.nb_digits u.
Proof. induction u; simpl; auto. Qed.

(** A length below [10^64] is written with at most 64 digits. *)
Lemma py_str_fits n :
  (N.of_nat n < 10 ^ 64)%N -> length (py_str n) <= HEADER.
Proof.
  intros Hn. unfold py_str.
  rewrite length_bytes_of_uint, to_uint_alt, DecimalFacts.nb_digits_rev.
  destruct n as [|n]; [unfold HEADER; simpl; lia|].
  pose proof (top_nonzero_bound _ (top_nonzero_to_lu (S n) ltac:(lia))) as Hb.
  rewrite of_to_lu in Hb.
  destruct (Nat.le_gt_cases (Decimal.nb_digits (to_lu (S n))) HEADER) as [|Hgt];
    [assumption|exfalso].
  assert (H64 : (10 ^ 64 <= 10 ^ N.of_nat (Decimal.nb_digits (to_lu (S n)) - 1))%N).
  { apply N.pow_le_mono_r; [discriminate|]. unfold HEADER in Hgt. lia. }
  lia.
Qed.
End HeaderWidth.

(** *** Round trip *)



(** The codec run on payloads around the width of the header. *)
Example roundtrip_around_header :
  Forall (fun n =>
    Communicator.receive Communicator.raw_loads
      (Communicator.send Communicator.raw_dumps (replicate n x41) [])
    = Ok (replicate n x41, [])) [0; 1; 63; 64; 65; 127; 128; 129; 1000].
Proof. repeat constructor. Qed.

(** Two frames written back to back are read back in order. *)
Example roundtrip_two_frames :
  let c := Communicator.send Communicator.raw_dumps [x61; x62]
             (Communicator.send Communicator.raw_dumps (replicate 64 x41) []) in
  ('(v1, c) ← Communicator.receive Communicator.raw_loads c;
   '(v2, c) ← Communicator.receive Communicator.raw_loads c;
   mret (v1, v2, c))
  = Ok (replicate 64 x41, [x61; x62], []).
Proof. reflexivity. Qed.

(** The header is read with a single [recv]: were the transport to cut it
    in two, the rest of the header would be taken for payload. *)
Example receive_split_header :
  let payload := [x68; x69] in
  let header := Communicator.length_header_of payload in
  Communicator.receive Communicator.raw_loads
    [take 1 header; drop 1 header; payload]
  = Ok ([x20; x20], [replicate 61 x20; payload]).
Proof. reflexivity. Qed.

(** ** The store *)

Section Store.
Import Database.
Context `{Sqlite}.

Lemma next_id_above ids i : i ∈ ids -> i < next_id ids.
Proof.
  unfold next_id. induction ids as [|j ids IH]; intros Hi.
  - inversion Hi.
  - simpl. apply elem_of_cons in Hi as [->|Hi]; [lia|].
    specialize (IH Hi). lia.
Qed.

Lemma fetchone_fresh {A} (p : A -> bool) l x :
  p x = true -> (forall y, y ∈ l -> p y = false) ->
  fetchone p (l ++ [x]) = Some x.
Proof.
  intros Hx Hl. unfold fetchone. rewrite filter_app.
  replace (filter (fun a => p a = true) l) with (@nil A).
  - simpl. rewrite filter_cons_True by assumption. reflexivity.
  - symmetry. induction l as [|y l IH]; [reflexivity|].
    rewrite filter_cons_False.
    + apply IH. intros z Hz. apply Hl. now right.
    + rewrite (Hl y) by left. discriminate.
Qed.

(** The row just inserted is the one [get_message] finds under the id
    [add_message] returned. *)
Lemma get_message_added db chat_id sender message dt unread tbl :
  db.(tables) !! chat_id = Some tbl ->
  sender = tbl.(check_1) \/ sender = tbl.(check_2) ->
  let id := next_id (message_id <$> tbl.(rows)) in
  let row := Message id sender message dt unread in
  let db' := Db db.(users) db.(chats)
               (<[chat_id := ChatTable tbl.(check_1) tbl.(check_2)
                               (tbl.(rows) ++ [row])]> db.(tables)) in
  add_message db chat_id sender message dt unread = Ok (id, db') /\
  get_message db' chat_id id = Ok (Some row).
Proof.
  intros Ht Hs id row db'. split.
  - unfold add_message. rewrite Ht.
    replace (bool_decide (sender = check_1 tbl)
             || bool_decide (sender = check_2 tbl)) with true; [reflexivity|].
    symmetry. apply orb_true_iff.
    destruct Hs; [left|right]; now apply bool_decide_eq_true.
  - unfold get_message, db'. simpl. rewrite lookup_insert_eq. simpl.
    f_equal. apply fetchone_fresh.
    + now apply bool_decide_eq_true.
    + intros y Hy. apply bool_decide_eq_false.
      assert (message_id y < id); [|lia].
      apply next_id_above. apply list_elem_of_fmap. eauto.
Qed.
End Store.

(** ** The server's statements *)

Ltac run :=
  cbv [mbind Server.M_bind mret Server.M_ret Server.raise Server.out_of_fuel
       Server.query Server.execute Server.send Server.receive
       Server.receive_str Server.receive_dict Server.clients_contains
       Server.clients_getitem Server.clients_setitem Server.clients_delitem
       Server.close Server.log_exception Server.set_database
       Server.set_clients Server.set_incoming];
  cbn [Server.database Server.clients Server.incoming Server.sent
       Server.closed Server.logged Server.now].

Section Frames.
Import Database Server.

Lemma keeps_ret {A} (a : A) : keeps_database (mret a).
Proof. intros w. reflexivity. Qed.
Lemma keeps_raise {A} e : keeps_database (@raise A e).
Proof. intros w. reflexivity. Qed.
Lemma keeps_query {A} (f : Database.t -> A) : keeps_database (query f).
Proof. intros w. reflexivity. Qed.
Lemma keeps_send data connection : keeps_database (send data connection).
Proof. intros w. reflexivity. Qed.
Lemma keeps_contains key : keeps_database (clients_contains key).
Proof. intros w. reflexivity. Qed.
Lemma keeps_getitem key : keeps_database (clients_getitem key).
Proof. intros w. unfold clients_getitem. now destruct (_ !! _). Qed.
Lemma keeps_setitem key value : keeps_database (clients_setitem key value).
Proof. intros w. reflexivity. Qed.
Lemma keeps_delitem key : keeps_database (clients_delitem key).
Proof. intros w. unfold clients_delitem. now destruct (_ !! _). Qed.

Lemma keeps_bind {A B} (m : M A) (k : A -> M B) :
  keeps_database m -> (forall a, keeps_database (k a)) ->
  keeps_database (m ≫= k).
Proof.
  intros Hm Hk w. unfold mbind, M_bind. specialize (Hm w).
  destruct (m w) as [[a| |] w1]; cbn in *; try exact Hm.
  rewrite Hk. exact Hm.
Qed.

Lemma keeps_mapM {A B} (f : A -> M B) l :
  (forall a, keeps_database (f a)) -> keeps_database (mapM f l).
Proof.
  intros Hf. induction l as [|x l IH]; simpl.
  - apply keeps_ret.
  - apply keeps_bind; [apply Hf|]. intros y.
    apply keeps_bind; [apply IH|]. intros k. apply keeps_ret.
Qed.

Lemma keeps_if {A} (b : bool) (m1 m2 : M A) :
  keeps_database m1 -> keeps_database m2 ->
  keeps_database (if b then m1 else m2).
Proof. now destruct b. Qed.
End Frames.

Create HintDb keeps.
#[export] Hint Resolve keeps_ret keeps_raise keeps_query keeps_send
  keeps_contains keeps_getitem keeps_setitem keeps_delitem keeps_if : keeps.

Ltac keeps :=
  repeat first
    [ apply keeps_bind; [|intros ?]
    | apply keeps_mapM; intros ?
    | apply keeps_if
    | match goal with
      | |- Server.keeps_database (match ?x with _ => _ end) => destruct x
      end
    | solve [auto with keeps] ].


(** ** Relay *)

Section Relay.
Import Database Server.
Context `{CharTable} `{Database.Sqlite}.

(** C3.  A [send_message] command from sender [A] in chat [C], a chat with
    [A] among its two participants, naming peer [B]: one row is appended
    to the table of [C] and no other table changes; the row is unread
    exactly when [B] differs from [A]; one [receive_message] frame
    carrying that row goes to the connection registered for [B] exactly
    when [B] is in the registry and differs from [A], and no frame is
    sent otherwise; nothing is sent on any other connection, so the sender,
    whose socket is registered under its own id only, gets no reply. *)
Theorem send_message_relay (fuel : nat) (client : socket) (A B : nat)
    (C message : string) (w : world) (tbl : chat_table) :
  w.(database).(tables) !! C = Some tbl ->
  A = tbl.(check_1) \/ A = tbl.(check_2) ->
  let row := Message (next_id (message_id <$> tbl.(rows))) A message
               w.(now) (negb (bool_decide (A = B))) in
  let deliveries :=
    match w.(clients) !! B with
    | Some peer =>
        if bool_decide (A = B) then []
        else [(peer, ReceiveMessage C (Some row))]
    | None => []
    end in
  exists w',
    dispatch fuel client A (send_message_cmd C B message) w = (Ok (), w')
    /\ w'.(database).(tables) !! C
       = Some (ChatTable tbl.(check_1) tbl.(check_2) (tbl.(rows) ++ [row]))
    /\ (forall C', C' <> C ->
          w'.(database).(tables) !! C' = w.(database).(tables) !! C')
    /\ (row.(unread) = true <-> B <> A)
    /\ w'.(sent) = w.(sent) ++ deliveries
    /\ (length deliveries = 1 <-> is_Some (w.(clients) !! B) /\ B <> A)
    /\ (length deliveries <= 1)
    /\ (w.(clients) !! B <> Some client ->
        forall frame, (client, frame) ∉ deliveries)
    /\ w'.(clients) = w.(clients).
Proof.
  intros Ht HA row deliveries.
  destruct (get_message_added w.(database) C A message w.(now)
              (negb (bool_decide (A = B))) tbl Ht HA) as [Hadd Hget].
  fold row in Hadd, Hget.
  assert (Hrun : exists w',
    dispatch fuel client A (send_message_cmd C B message) w = (Ok (), w')
    /\ w'.(database).(tables)
       = <[C := ChatTable tbl.(check_1) tbl.(check_2) (tbl.(rows) ++ [row])]>
           w.(database).(tables)
    /\ w'.(sent) = w.(sent) ++ deliveries
    /\ w'.(clients) = w.(clients)).
  { unfold dispatch, send_message. run. rewrite Hadd.
    cbn [database clients incoming sent closed logged now].
    unfold deliveries.
    destruct (w.(clients) !! B) as [peer|] eqn:Ec.
    - rewrite (bool_decide_eq_true_2 (is_Some _)) by eauto.
      destruct (decide (A = B)) as [HAB|HAB].
      + rewrite !(bool_decide_eq_true_2 _ HAB). cbn [negb andb].
        eexists. split; [reflexivity|]. cbn. now rewrite app_nil_r.
      + rewrite !(bool_decide_eq_false_2 _ HAB). cbn [negb andb].
        cbn [database clients]. rewrite Hget, Ec.
        eexists. split; [reflexivity|]. cbn. auto.
    - rewrite (bool_decide_eq_false_2 (is_Some _))
        by (intros [? ?]; discriminate).
      cbn [andb]. eexists. split; [reflexivity|]. cbn.
      now rewrite app_nil_r. }
  destruct Hrun as (w' & Hrun & Hdb & Hsent & Hcl).
  exists w'. split; [exact Hrun|]. rewrite Hdb.
  split; [apply lookup_insert_eq|].
  split; [intros C' HC'; now apply lookup_insert_ne|].
  split.
  { unfold row. cbn [unread]. destruct (bool_decide_reflect (A = B)); cbn.
    - split; [discriminate|congruence].
    - split; [congruence|reflexivity]. }
  split; [exact Hsent|].
  assert (Hdel : (length deliveries = 1 <-> is_Some (w.(clients) !! B) /\ B <> A)
                 /\ length deliveries <= 1
                 /\ (w.(clients) !! B <> Some client ->
                     forall frame, (client, frame) ∉ deliveries)).
  { unfold deliveries.
    destruct (w.(clients) !! B) as [peer|] eqn:Ec;
      destruct (bool_decide_reflect (A = B)) as [HAB|HAB]; cbn [length].
    - split; [|split; [lia|]].
      + split; [lia|]. intros [_ ?]. congruence.
      + intros _ frame Hin. inversion Hin.
    - split; [|split; [lia|]].
      + split; [intros _; split; [eauto|congruence] | reflexivity].
      + intros Hne frame Hin. apply list_elem_of_singleton in Hin.
        injection Hin as -> _. congruence.
    - split; [|split; [lia|]].
      + split; [lia|]. intros [[? ?] _]. discriminate.
      + intros _ frame Hin. inversion Hin.
    - split; [|split; [lia|]].
      + split; [lia|]. intros [[? ?] _]. discriminate.
      + intros _ frame Hin. inversion Hin. }
  destruct Hdel as (? & ? & ?). auto.
Qed.
End Relay.

(** ** The handler *)

Section Handshake.
Import Database Server.
Context `{CharTable} `{Database.Sqlite}.

(** The lookup of line 62 passes one argument to a method of two: once
    the identity token is read the [try] block always ends in
    [TypeError], before any reply and before [_id] is bound. *)
Lemma handshake_raises fuel client address w mac frames :
  w.(incoming) !! client = Some (Text mac :: frames) ->
  handle_client_try fuel client address w
  = (Raise TypeError, None,
     set_incoming (<[client := frames]> w.(incoming)) w).
Proof.
  intros Hin. unfold handle_client_try, authenticate, call_get_user.
  run. rewrite Hin. reflexivity.
Qed.

(** A client that closes before sending anything. *)
Lemma handshake_reset fuel client address w :
  w.(incoming) !! client = None \/ w.(incoming) !! client = Some [] ->
  handle_client_try fuel client address w
  = (Raise ConnectionResetError, None, w).
Proof.
  intros Hin. unfold handle_client_try, authenticate.
  run. destruct Hin as [-> | ->]; reflexivity.
Qed.

(** The [try] block never ends normally and never binds [_id]. *)
Lemma handle_client_try_cases fuel client address w :
  exists e w',
    handle_client_try fuel client address w = (Raise e, None, w').
Proof.
  destruct (w.(incoming) !! client) as [[|[mac|c] frames]|] eqn:Hin.
  - rewrite handshake_reset by auto. eauto.
  - erewrite handshake_raises by eauto. eauto.
  - unfold handle_client_try, authenticate. run. rewrite Hin. eauto.
  - rewrite handshake_reset by auto. eauto.
Qed.

(** What the two [except] clauses leave behind. *)
Lemma except_spec client _id e w :
  exists w', except client _id e w = (Ok (), w') /\
    w'.(database) = w.(database) /\ w'.(sent) = w.(sent) /\
    if is_disconnect e then
      (forall id, _id = Some id -> w'.(clients) !! id = None)
      /\ (forall id, _id <> Some id -> w'.(clients) !! id = w.(clients) !! id)
      /\ w'.(closed) = client :: w.(closed)
      /\ w'.(logged) = w.(logged)
    else
      w'.(clients) = w.(clients) /\ w'.(closed) = w.(closed)
      /\ w'.(logged) = w.(logged) ++ [e].
Proof.
  unfold except. destruct (is_disconnect e).
  - destruct _id as [id|]; run.
    + destruct (w.(clients) !! id) as [s|] eqn:Ec.
      * rewrite bool_decide_eq_true_2 by eauto. rewrite Ec.
        eexists. split; [reflexivity|]. cbn.
        repeat split; auto.
        -- intros ? [= <-]. apply lookup_delete_eq.
        -- intros id' Hne. apply lookup_delete_ne. congruence.
      * rewrite bool_decide_eq_false_2 by (intros [? ?]; congruence).
        eexists. split; [reflexivity|]. cbn.
        repeat split; auto. intros ? [= <-]. exact Ec.
    + eexists. split; [reflexivity|]. cbn. repeat split; auto.
      intros ? [=].
  - run. eexists. split; [reflexivity|]. cbn. auto.
Qed.

(** C5, amended.  When a session ends in a connection reset or abort, the
    [except] clause leaves no entry under the session's user id in the
    registry and closes the client socket; when it ends in any other
    exception the clause only logs it, and the registry and the socket
    stay as they were.  The handler is its [try] block followed by that
    clause. *)
Theorem disconnect_clears_presence client _id e w1 :
  exists w2,
    except client _id e w1 = (Ok (), w2) /\
    (forall fuel address w,
       handle_client_try fuel client address w = (Raise e, _id, w1) ->
       handle_client fuel client address w = (Ok (), w2)) /\
    if is_disconnect e then
      (forall id, _id = Some id -> w2.(clients) !! id = None)
      /\ client ∈ w2.(closed)
    else
      w2.(clients) = w1.(clients) /\ w2.(closed) = w1.(closed)
      /\ w2.(logged) = w1.(logged) ++ [e].
Proof.
  destruct (except_spec client _id e w1) as (w2 & Hex & _ & _ & Hw2).
  exists w2. split; [exact Hex|]. split.
  - intros fuel address w Htry. unfold handle_client. now rewrite Htry.
  - destruct (is_disconnect e).
    + destruct Hw2 as (Hgone & _ & Hclosed & _). split; [exact Hgone|].
      rewrite Hclosed. left.
    + exact Hw2.
Qed.
End Handshake.

Import Database Server Scenario.

(** The session of user 1, registered on socket 10, is reset in the command
    loop; and a client that goes away before the handshake. *)
Lemma disconnect_clears_presence_witness :
  (let w1 := (session 5 10 (Login alice "alice" true false) (connecting [])).2 in
   w1.(clients) !! 1 = Some 10 /\
   exists w2, except 10 (Some 1) ConnectionResetError w1 = (Ok (), w2)
              /\ w2.(clients) !! 1 = None /\ 10 ∈ w2.(closed)) /\
  (handle_client_try 5 10 ("10.0.0.1", 4000) (connecting [])
   = (Raise ConnectionResetError, None, connecting []) /\
   exists w2, handle_client 5 10 ("10.0.0.1", 4000) (connecting []) = (Ok (), w2)
              /\ 10 ∈ w2.(closed)).
Proof.
  split.
  - cbv zeta. split; [vm_compute; reflexivity|].
    destruct (disconnect_clears_presence 10 (Some 1) ConnectionResetError
                (session 5 10 (Login alice "alice" true false) (connecting [])).2)
      as (w2 & Hex & _ & Hgone & Hclosed).
    exists w2. split; [exact Hex|]. split; [exact (Hgone 1 eq_refl)|exact Hclosed].
  - assert (Htry : handle_client_try 5 10 ("10.0.0.1", 4000) (connecting [])
                   = (Raise ConnectionResetError, None, connecting []))
      by (vm_compute; reflexivity).
    split; [exact Htry|].
    destruct (disconnect_clears_presence 10 None ConnectionResetError
                (connecting [])) as (w2 & _ & Hrun & _ & Hclosed).
    exists w2. split; [exact (Hrun _ _ _ Htry)|exact Hclosed].
Defined.

(** A session torn down after it registered: the client of user 1 goes
    away in the command loop. *)
Example registered_session_teardown :
  let l := Login alice "alice" true false in
  let '(r, w1) := session 5 10 l (connecting []) in
  let '(_, w2) := except 10 (Some 1) ConnectionResetError w1 in
  r = Raise ConnectionResetError /\ w1.(clients) !! 1 = Some 10 /\
  w2.(clients) !! 1 = None /\ w2.(closed) = [10].
Proof. vm_compute. auto. Qed.

(** C5 as stated fails: a known client connects and sends its identity
    token; the session ends in [TypeError], which the handler logs without
    closing the socket. *)
Lemma other_error_leaves_socket_open :
  let w := connecting [Text "aa:aa"; Text "KA"] in
  let w2 := (handle_client 5 10 ("10.0.0.1", 4000) w).2 in
  (handle_client_try 5 10 ("10.0.0.1", 4000) w).1 = (Raise TypeError, None)
  /\ w2.(logged) = [TypeError]
  /\ ~ 10 ∈ w2.(closed).
Proof.
  vm_compute. split; [reflexivity|]. split; [reflexivity|].
  intros Hin. inversion Hin.
Qed.

(** The same in the command loop: an error there leaves the entry of the
    session in the registry. *)
Example other_error_leaves_presence :
  let l := Login alice "alice" true false in
  let '(r, w1) := session 5 10 l (connecting [Command (read_messages_cmd "chat_9_9")]) in
  let '(_, w2) := except 10 (Some 1) OperationalError w1 in
  r = Raise OperationalError /\ w2.(clients) !! 1 = Some 10 /\ w2.(closed) = [].
Proof. vm_compute. auto. Qed.

(** C2.  A known client, then an unknown one, connect and send their
    identity token and public key: the handler answers neither
    ['registered'] nor ['unregistered']; it sends nothing, logs
    [TypeError] and leaves the public key unread. *)
Theorem handshake_sends_no_reply :
  let known := connecting [Text "aa:aa"; Text "KA"] in
  let unknown := connecting [Text "cc:cc"; Text "KC"] in
  get_user db "10.0.0.1" "aa:aa" = Some alice /\
  get_user db "10.0.0.3" "cc:cc" = None /\
  (let w := (handle_client 5 10 ("10.0.0.1", 4000) known).2 in
   w.(sent) = [] /\ w.(logged) = [TypeError]
   /\ w.(incoming) !! 10 = Some [Text "KA"]) /\
  (let w := (handle_client 5 10 ("10.0.0.3", 4000) unknown).2 in
   w.(sent) = [] /\ w.(logged) = [TypeError]
   /\ w.(incoming) !! 10 = Some [Text "KC"]).
Proof. vm_compute. auto 10. Qed.

(** *** Termination *)

Section Termination.
Import Database Server.
Context `{CharTable} `{Database.Sqlite}.

(** The negotiation takes one frame per turn: with more fuel than frames
    pending it ends by accepting a candidate or by an exception. *)
Lemma get_username_fuel fuel : forall client w,
  length (default [] (w.(incoming) !! client)) < fuel ->
  (get_username fuel client w).1 <> OutOfFuel.
Proof.
  induction fuel as [|fuel IH]; intros client w Hlen; [lia|].
  cbn [get_username]. run.
  destruct (w.(incoming) !! client) as [[|[u|c] frames]|] eqn:Hin;
    cbn in Hlen |- *; try discriminate.
  assert (Hnext : forall w',
            w'.(incoming) = <[client := frames]> w.(incoming) ->
            (get_username fuel client w').1 <> OutOfFuel).
  { intros w' Hw'. apply IH. rewrite Hw', lookup_insert_eq. cbn. lia. }
  destruct (isalnum (strip_allowed u)); cbn.
  - destruct (validate_username (database w) u); cbn; [discriminate|].
    now apply Hnext.
  - now apply Hnext.
Qed.

(** The handler returns, whatever the fuel. *)
Lemma handle_client_returns fuel client address w :
  exists w', handle_client fuel client address w = (Ok (), w').
Proof.
  destruct (handle_client_try_cases fuel client address w) as (e & w1 & Htry).
  destruct (except_spec client None e w1) as (w2 & Hex & _).
  exists w2. unfold handle_client. now rewrite Htry.
Qed.
End Termination.

(** ** Chats *)

Section ChatIds.
Import Database.

Lemma digits_no_underscore u : no_underscore (NilEmpty.string_of_uint u).
Proof. induction u; simpl; auto; split; auto; discriminate. Qed.

Lemma append_cons c s t : (String c s +:+ t = String c (s +:+ t))%string.
Proof. reflexivity. Qed.

Lemma append_nil t : ("" +:+ t = t)%string.
Proof. reflexivity. Qed.

Lemma split_at_underscore s : forall s' t t',
  no_underscore s -> no_underscore s' ->
  (s +:+ "_" +:+ t = s' +:+ "_" +:+ t')%string -> s = s' /\ t = t'.
Proof.
  induction s as [|c s IH]; intros [|c' s'] t t' Hs Hs' E;
    rewrite ?append_cons, ?append_nil in E; simpl in Hs, Hs'.
  - injection E as ->. auto.
  - injection E as <- _. tauto.
  - injection E as -> _. tauto.
  - injection E as -> E. destruct (IH s' t t') as [-> ->]; tauto.
Qed.

Lemma str_of_nat_inj a b : str_of_nat a = str_of_nat b -> a = b.
Proof.
  unfold str_of_nat. intros E.
  apply DecimalNat.Unsigned.to_uint_inj.
  apply (f_equal NilEmpty.uint_of_string) in E.
  rewrite !NilEmpty.usu in E. congruence.
Qed.

(** The id of a chat determines the ordered pair of its users. *)
Lemma chat_name_inj a b a' b' :
  chat_name a b = chat_name a' b' -> a = a' /\ b = b'.
Proof.
  unfold chat_name. intros E.
  rewrite !append_cons, !append_nil in E. injection E as E.
  apply split_at_underscore in E as [Ea Eb];
    try apply digits_no_underscore.
  split; now apply str_of_nat_inj.
Qed.

Lemma chat_name_order : chat_name 1 2 <> chat_name 2 1.
Proof. discriminate. Qed.

Lemma existsb_chat_id (l : list chat_row) id :
  existsb (fun c => bool_decide (c.(chat_id) = id)) l = true
  <-> id ∈ chat_id <$> l.
Proof.
  rewrite existsb_exists, list_elem_of_fmap. split.
  - intros (c & Hc & E). apply bool_decide_eq_true in E.
    exists c. split; [auto|]. now apply list_elem_of_In.
  - intros (c & E & Hc). exists c. split; [now apply list_elem_of_In|].
    now apply bool_decide_eq_true.
Qed.

(** One [create_chat] on a well-formed table: the chat is made exactly
    when its ordered pair has no row yet, and then one row is appended. *)
Lemma create_chat_spec db a b :
  chats_wf db ->
  (Database.create_chat db a b = Raise IntegrityError /\
   exists c, c ∈ db.(chats) /\ c.(user_1) = a /\ c.(user_2) = b)
  \/
  (exists db', Database.create_chat db a b = Ok (chat_name a b, db') /\
     db'.(chats) = db.(chats) ++ [ChatRow (chat_name a b) a b] /\
     db'.(users) = db.(users) /\ chats_wf db' /\
     forall c, c ∈ db.(chats) -> ~ (c.(user_1) = a /\ c.(user_2) = b)).
Proof.
  intros [Hnd Hid]. unfold Database.create_chat.
  destruct (existsb _ _) eqn:Ex.
  - left. split; [reflexivity|].
    apply existsb_chat_id, list_elem_of_fmap in Ex as (c & E & Hc).
    exists c. split; [exact Hc|].
    rewrite Forall_forall in Hid. rewrite (Hid c Hc) in E.
    apply chat_name_inj in E. intuition congruence.
  - right. eexists. split; [reflexivity|]. cbn.
    assert (Hfresh : chat_name a b ∉ chat_id <$> chats db).
    { intros Hin. apply existsb_chat_id in Hin. congruence. }
    split; [reflexivity|]. split; [reflexivity|]. split.
    + split; cbn [chats].
      * rewrite fmap_app. apply NoDup_app. repeat split; auto.
        -- intros x Hx Hx'. apply list_elem_of_singleton in Hx'. now subst.
        -- apply NoDup_singleton.
      * apply Forall_app. split; [exact Hid|]. now constructor.
    + intros c Hc [<- <-]. apply Hfresh.
      rewrite Forall_forall in Hid. rewrite <- (Hid c Hc).
      apply list_elem_of_fmap. eauto.
Qed.

End ChatIds.

Section ChatCommands.
Import Database Server.
Context `{CharTable} `{Database.Sqlite}.

Lemma keeps_receive client : keeps_database (receive client).
Proof.
  intros w. unfold receive. now destruct (_ !! _) as [[|? ?]|].
Qed.

Lemma keeps_receive_str client : keeps_database (receive_str client).
Proof.
  apply keeps_bind; [apply keeps_receive|]. intros []; auto with keeps.
Qed.

Lemma keeps_get_username fuel client : keeps_database (get_username fuel client).
Proof.
  induction fuel as [|fuel IH]; [intros w; reflexivity|].
  cbn [get_username]. apply keeps_bind; [apply keeps_receive_str|].
  intros username. apply keeps_if.
  - apply keeps_bind; auto with keeps.
  - apply keeps_bind; [auto with keeps|]. intros valid. apply keeps_if.
    + apply keeps_bind; auto with keeps.
    + apply keeps_bind; auto with keeps.
Qed.





End ChatCommands.

Section ChatExamples.
Import Database Server Scenario.



(** The same pair in the same order a second time. *)
Example create_chat_twice :
  let w1 := (dispatch 0 10 1 (create_chat_cmd 2) lobby).2 in
  (dispatch 0 10 1 (create_chat_cmd 2) w1).1 = Raise IntegrityError
  /\ (dispatch 0 10 1 (create_chat_cmd 2) w1).2.(database) = w1.(database).
Proof. vm_compute. auto. Qed.
End ChatExamples.

Lemma send_message_relay_witness :
  let w := online [] in
  let tbl := ChatTable 1 2 [] in
  w.(database).(tables) !! "chat_1_2" = Some tbl /\
  (1 = tbl.(check_1) \/ 1 = tbl.(check_2)) /\
  exists w',
    dispatch 0 10 1 (send_message_cmd "chat_1_2" 2 "hello") w = (Ok (), w')
    /\ w'.(sent)
       = [(20, ReceiveMessage "chat_1_2"
                 (Some (Message 1 1 "hello" "01-09-2024 12:00" true)))].
Proof.
  assert (Ht : (online []).(database).(tables) !! "chat_1_2"
               = Some (ChatTable 1 2 [])) by (vm_compute; reflexivity).
  assert (HA : 1 = (ChatTable 1 2 []).(check_1) \/ 1 = (ChatTable 1 2 []).(check_2))
    by (left; reflexivity).
  split; [exact Ht|]. split; [exact HA|].
  destruct (send_message_relay 0 10 1 2 "chat_1_2" "hello" (online [])
              (ChatTable 1 2 []) Ht HA)
    as (w' & Hrun & _ & _ & _ & Hsent & _).
  exists w'. split; [exact Hrun|exact Hsent].
Defined.

(** A self-chat message and a message to a peer who is away. *)
Example send_message_self_and_offline :
  (let w' := (dispatch 0 10 1 (send_message_cmd "chat_1_1" 1 "note") (online [])).2 in
   w'.(sent) = [] /\
   w'.(database).(tables) !! "chat_1_1"
   = Some (ChatTable 1 1 [Message 1 1 "note" "01-09-2024 12:00" false])) /\
  (let w' := (dispatch 0 10 1 (send_message_cmd "chat_1_2" 2 "hello")
                (connecting [])).2 in
   w'.(sent) = [] /\
   w'.(database).(tables) !! "chat_1_2"
   = Some (ChatTable 1 2 [Message 1 1 "hello" "01-09-2024 12:00" true])).
Proof. vm_compute. auto. Qed.

(** ** Reading a chat *)

Section ReadMessages.
Context `{CharTable} `{Database.Sqlite}.

Lemma mark_read_unread m : (mark_read m).(unread) = false.
Proof. unfold mark_read. destruct (unread m) eqn:E; auto. Qed.

Lemma mark_read_fields m :
  (mark_read m).(message_id) = m.(message_id)
  /\ (mark_read m).(sender_id) = m.(sender_id)
  /\ (mark_read m).(message) = m.(message)
  /\ (mark_read m).(dt) = m.(dt).
Proof. unfold mark_read. destruct (unread m); auto. Qed.

(** C8.  A [read_messages] command whose [chat_id] is the name of a
    chat's table: every row of that table ends with its unread flag
    cleared and is otherwise the row it was; the table of every other
    chat, the users and the chats are unchanged, and nothing is sent. *)
Theorem read_messages_clears (fuel : nat) (client : socket) (_id : nat)
    (chat_id : string) (w : world) (tbl : chat_table) :
  w.(database).(tables) !! chat_id = Some tbl ->
  let run := dispatch fuel client _id (read_messages_cmd chat_id) w in
  run.1 = Ok ()
  /\ (exists tbl',
        run.2.(database).(tables) !! chat_id = Some tbl'
        /\ tbl'.(rows) = mark_read <$> tbl.(rows)
        /\ Forall (fun m => m.(unread) = false) tbl'.(rows)
        /\ Forall2 (fun m m' =>
                      m'.(message_id) = m.(message_id)
                      /\ m'.(sender_id) = m.(sender_id)
                      /\ m'.(message) = m.(message)
                      /\ m'.(dt) = m.(dt)) tbl.(rows) tbl'.(rows))
  /\ (forall other, other <> chat_id ->
        run.2.(database).(tables) !! other = w.(database).(tables) !! other)
  /\ run.2.(database).(users) = w.(database).(users)
  /\ run.2.(database).(chats) = w.(database).(chats)
  /\ run.2.(sent) = w.(sent)
  /\ run.2.(clients) = w.(clients).
Proof.
  intros Et. cbn zeta. unfold dispatch, read_messages. run.
  rewrite Et. cbn.
  split; [reflexivity|]. split.
  - eexists. split; [apply lookup_insert_eq|]. cbn.
    split; [reflexivity|]. split.
    + apply Forall_fmap, Forall_forall. intros m _. apply mark_read_unread.
    + apply Forall2_fmap_r, Forall_Forall2_diag, Forall_forall.
      intros m _. apply mark_read_fields.
  - repeat split; auto. intros other Hne. now apply lookup_insert_ne.
Qed.
End ReadMessages.

Lemma read_messages_clears_witness :
  let w := chatting [] in
  let tbl := ChatTable 1 2 [Message 1 1 "c1" "01-09-2024 11:00" true;
                            Message 2 2 "c2" "01-09-2024 11:01" true] in
  w.(database).(tables) !! "chat_1_2" = Some tbl /\
  "chat_2_1" <> "chat_1_2" /\
  let run := dispatch 0 10 2 (read_messages_cmd "chat_1_2") w in
  (exists tbl', run.2.(database).(tables) !! "chat_1_2" = Some tbl'
                /\ Forall (fun m => m.(unread) = false) tbl'.(rows)) /\
  run.2.(database).(tables) !! "chat_2_1"
  = Some (ChatTable 2 1 [Message 1 2 "d1" "01-09-2024 11:03" true]).
Proof.
  cbv zeta.
  assert (Ht : (chatting []).(database).(tables) !! "chat_1_2"
               = Some (ChatTable 1 2 [Message 1 1 "c1" "01-09-2024 11:00" true;
                                      Message 2 2 "c2" "01-09-2024 11:01" true]))
    by (vm_compute; reflexivity).
  assert (Hne : "chat_2_1" <> "chat_1_2") by discriminate.
  split; [exact Ht|]. split; [exact Hne|].
  destruct (read_messages_clears 0 10 2 "chat_1_2" (chatting []) _ Ht)
    as (_ & (tbl' & Hl & _ & Hall & _) & Hother & _).
  split.
  - exists tbl'. split; [exact Hl|exact Hall].
  - rewrite (Hother "chat_2_1" Hne). vm_compute. reflexivity.
Defined.

(** ** Usernames *)

Section Usernames.
Context `{CharTable} `{Database.Sqlite}.

Lemma isalnum_spec s :
  isalnum s = true <->
  s <> ""%string /\
  Forall (fun c => char_isalnum c = true) (list_ascii_of_string s).
Proof.
  unfold isalnum. destruct s as [|c s]; simpl.
  - split; [discriminate|]. intros [? _]. congruence.
  - rewrite andb_true_iff, forallb_forall, Forall_cons, Forall_forall.
    split.
    + intros [Hc Hs]. split; [discriminate|]. split; [exact Hc|].
      intros x Hx. apply Hs. now apply list_elem_of_In.
    + intros [_ [Hc Hs]]. split; [exact Hc|].
      intros x Hx. apply Hs. now apply list_elem_of_In.
Qed.

Lemma fetchone_none {A} (p : A -> bool) l :
  fetchone p l = None <-> forall a, a ∈ l -> p a = false.
Proof.
  unfold fetchone. rewrite head_None. split.
  - intros Hnil a Ha. destruct (p a) eqn:E; [|reflexivity].
    assert (Hin : a ∈ filter (fun a => p a = true) l)
      by (apply list_elem_of_filter; auto).
    rewrite Hnil in Hin. inversion Hin.
  - intros Hall. induction l as [|x l IH]; [reflexivity|].
    rewrite filter_cons_False.
    + apply IH. intros a Ha. apply Hall. now right.
    + rewrite Hall by left. discriminate.
Qed.

Lemma validate_username_spec db u :
  validate_username db u = true <->
  forall row, row ∈ db.(users) -> row.(username) <> u.
Proof.
  unfold validate_username.
  destruct (fetchone _ _) eqn:E.
  - split; [discriminate|]. intros Hall. exfalso.
    unfold fetchone in E. apply head_Some_elem_of in E.
    apply list_elem_of_filter in E as [Hp Hin].
    apply bool_decide_eq_true in Hp. exact (Hall _ Hin Hp).
  - split; [|reflexivity]. intros _ row Hin.
    rewrite fetchone_none in E. specialize (E row Hin).
    now apply bool_decide_eq_false in E.
Qed.

(** A username that [add_user] stored is not free any more. *)
Lemma add_user_takes_username db ip mac u key r db' :
  add_user db ip mac u key = Ok (r, db') -> validate_username db' u = false.
Proof.
  unfold add_user. destruct (existsb _ _); [discriminate|].
  intros [= _ <-]. apply not_true_is_false.
  rewrite validate_username_spec. intros Hall.
  apply (Hall (User (next_id (user_id <$> users db)) ip mac u key));
    [cbn; apply elem_of_app; right; left | reflexivity].
Qed.

(** C6.  One turn of the negotiation on a candidate [u]: the candidate is
    accepted, with the reply 'username accepted', exactly when what is
    left of it after removing every underscore, at-sign and space is
    non-empty and alphanumeric and no stored user has exactly the
    username [u]; otherwise the reply is 'invalid username', or 'This
    username is already taken' for a well-formed candidate, and the
    server waits for the next candidate.  Once a user has been created
    with [u], the store no longer reports [u] as free. *)
Theorem username_negotiation (fuel : nat) (client : socket) (w : world)
    (u : string) (frames : list client_frame) :
  w.(incoming) !! client = Some (Text u :: frames) ->
  let w1 := set_incoming (<[client := frames]> w.(incoming)) w in
  let reply s := (send (Str s) client w1).2 in
  let valid := isalnum (strip_allowed u) in
  let unique := validate_username w.(database) u in
  get_username (S fuel) client w
  = (if valid && unique then (Ok u, reply "username accepted")
     else get_username fuel client
            (reply (if valid then "This username is already taken"
                    else "invalid username")))
  /\ (valid = true <->
      strip_allowed u <> ""%string /\
      Forall (fun c => char_isalnum c = true)
             (list_ascii_of_string (strip_allowed u)))
  /\ (list_ascii_of_string (strip_allowed u)
      = filter (fun c => c <> "_"%char /\ c <> "@"%char /\ c <> " "%char)
               (list_ascii_of_string u))
  /\ (unique = true <->
      forall row, row ∈ w.(database).(users) -> row.(username) <> u)
  /\ (forall ip mac key r db',
        add_user w.(database) ip mac u key = Ok (r, db') ->
        validate_username db' u = false).
Proof.
  intros Hin w1 reply valid unique. split; [|split; [|split; [|split]]].
  - subst w1 reply valid unique. cbn [get_username]. run. rewrite Hin.
    destruct (isalnum (strip_allowed u)); cbn; [|reflexivity].
    destruct (validate_username (database w) u); reflexivity.
  - apply isalnum_spec.
  - unfold strip_allowed. rewrite list_ascii_of_string_of_list_ascii.
    apply list_filter_iff. intros c. unfold ALLOWED_CHARS. cbn.
    rewrite !not_elem_of_cons. split.
    + intros (? & ? & ? & _). auto.
    + intros (? & ? & ?). repeat split; auto. apply not_elem_of_nil.
  - apply validate_username_spec.
  - intros ip mac key r db'. apply add_user_takes_username.
Qed.
End Usernames.

Lemma username_negotiation_witness :
  let w := World (Db [] [] ∅) ∅ (<[10 := [Text "alice"; Text "alice"]]> ∅)
                 [] [] [] "01-09-2024 12:00" in
  w.(incoming) !! 10 = Some [Text "alice"; Text "alice"] /\
  get_username 1 10 w
  = (Ok "alice",
     (send (Str "username accepted") 10
        (set_incoming (<[10 := [Text "alice"]]> w.(incoming)) w)).2).
Proof.
  cbv zeta.
  match goal with
  | |- ?i !! 10 = _ /\ get_username 1 10 ?w = _ =>
      assert (Hin : w.(incoming) !! 10 = Some [Text "alice"; Text "alice"])
        by (vm_compute; reflexivity);
      split; [exact Hin|];
      exact (proj1 (username_negotiation 0 10 w "alice" [Text "alice"] Hin))
  end.
Defined.

(** The scenario of the specification: "alice" is accepted and stored;
    submitted again it is rejected as taken.  Candidates made of the
    allowed punctuation only, and the empty one, are invalid. *)
Example username_accepted_once :
  let db0 := Db [] [] ∅ in
  let w0 := World db0 ∅ (<[10 := [Text "_@ "; Text ""; Text "alice"]]> ∅)
                  [] [] [] "01-09-2024 12:00" in
  let '(r, w1) := get_username 3 10 w0 in
  r = Ok "alice" /\
  w1.(sent) = [(10, Str "invalid username"); (10, Str "invalid username");
               (10, Str "username accepted")] /\
  match add_user db0 "10.0.0.1" "aa:aa" "alice" "K1" with
  | Ok (_, db1) =>
      let w2 := World db1 ∅ (<[30 := [Text "alice"; Text "Alice"]]> ∅)
                      [] [] [] "01-09-2024 12:00" in
      let '(r, w3) := get_username 2 30 w2 in
      r = Ok "Alice" /\
      w3.(sent) = [(30, Str "This username is already taken");
                   (30, Str "username accepted")]
  | _ => False
  end.
Proof. vm_compute. auto. Qed.

(** ** Search *)

Section Like.

Lemma like_nil subject : like [] subject = true <-> subject = [].
Proof. destruct subject; simpl; split; congruence. Qed.







End Like.

Section Search.
Context `{CharTable} `{Database.Sqlite}.

End Search.


(** The search on queries that differ in case, and on the empty query. *)
Example search_peer_examples :
  get_users db "ALICE" = [alice] /\ get_users db "o" = [bob]
  /\ get_users db "" = [alice; bob] /\ get_users db "carol" = [].
Proof. vm_compute. auto. Qed.


(** ** A changed public key *)

Section KeyChange.
Context `{CharTable} `{Database.Sqlite}.

Lemma update_user_elem f _id l row' :
  row' ∈ update_user f _id l ->
  exists row, row ∈ l /\
    row' = if bool_decide (row.(user_id) = _id) then f row else row.
Proof.
  unfold update_user. intros Hin.
  apply list_elem_of_fmap in Hin as (row & -> & Hin). eauto.
Qed.

(** C7.  A known client reconnects with a key that differs from the one
    in its row.  The handler raises at the lookup of line 62, before the
    key is read: it stores no key and sends nothing, and the exception is
    logged.  Taken from line 71 on, with the row the lookup was to return,
    the branch answers ['registered'] and stores the key, then raises at
    the second lookup with one argument, on line 76: the synchronisation is
    not reached and no [change_key] notice is sent to any peer. *)
Theorem key_change_not_propagated (fuel : nat) (client : socket)
    (address : string * nat) (mac key : string)
    (frames : list client_frame) (user : user_row) (w : world) :
  w.(incoming) !! client = Some (Text mac :: Text key :: frames) ->
  get_user w.(database) address.1 mac = Some user ->
  key <> user.(Database.key) ->
  (let w' := (handle_client fuel client address w).2 in
   w'.(database) = w.(database)
   /\ w'.(sent) = w.(sent)
   /\ w'.(logged) = w.(logged) ++ [TypeError]
   /\ w'.(incoming) !! client = Some (Text key :: frames))
  /\ (let branch := reconnect client mac key user w in
      branch.1 = Raise TypeError
      /\ branch.2.(database) = change_key w.(database) user.(user_id) key
      /\ branch.2.(sent) = w.(sent) ++ [(client, Str "registered")]).
Proof.
  intros Hin _ Hne. split.
  - cbn zeta. unfold handle_client.
    rewrite (handshake_raises fuel client address w mac (Text key :: frames) Hin).
    unfold except. cbn [is_disconnect]. run.
    split; [reflexivity|split; [reflexivity|split; [reflexivity|]]].
    apply lookup_insert_eq.
  - cbn zeta. unfold reconnect, call_get_user. run.
    rewrite (bool_decide_eq_false_2 _ Hne). cbn. auto.
Qed.
End KeyChange.

(** User 1 comes back with the key "KA2" while user 2 is connected. *)
Lemma key_change_not_propagated_witness :
  let w := chatting [Text "aa:aa"; Text "KA2"] in
  (handle_client 5 10 ("10.0.0.1", 4000) w).2.(database) = history
  /\ (handle_client 5 10 ("10.0.0.1", 4000) w).2.(sent) = []
  /\ (reconnect 10 "aa:aa" "KA2" alice w).1 = Raise TypeError
  /\ (reconnect 10 "aa:aa" "KA2" alice w).2.(sent) = [(10, Str "registered")].
Proof.
  destruct (key_change_not_propagated 5 10 ("10.0.0.1", 4000) "aa:aa" "KA2" []
              alice (chatting [Text "aa:aa"; Text "KA2"]))
    as [(Hdb & Hsent & _) (Hraise & _ & Hbranch)].
  - reflexivity.
  - reflexivity.
  - discriminate.
  - cbn zeta. split; [exact Hdb|]. split; [exact Hsent|].
    split; [exact Hraise|exact Hbranch].
Defined.

(** What the handler as a whole does with that reconnection: it stops at
    the lookup, before the key is stored and before anything is sent. *)
Example reconnect_with_new_key_stops :
  let w := (handle_client 5 10 ("10.0.0.1", 4000)
              (chatting [Text "aa:aa"; Text "KA2"])).2 in
  w.(database) = history /\ w.(sent) = [] /\ w.(logged) = [TypeError].
Proof. vm_compute. auto. Qed.

(** ** Decryption on the client *)

Section Decryption.
Import Client.
Variable pq_ntru_decrypt : string -> string -> outcome.

Lemma decrypt_message_spec message key_dir :
  decrypt_message pq_ntru_decrypt message key_dir
  = (message,
     match pq_ntru_decrypt key_dir message with
     | Returns plaintext => Some plaintext
     | Throws _ => None
     end).
Proof.
  unfold Client.decrypt_message.
  destruct (pq_ntru_decrypt key_dir message) as [p|[]]; reflexivity.
Qed.

(** [saved_chat.update(pool.starmap(decrypt_message, ...))]: every
    ciphertext of the batch maps to its own decryption. *)
Lemma dict_update_starmap key_dir cts : forall d k,
  dict_update d (starmap pq_ntru_decrypt ((fun ct => (ct, key_dir)) <$> cts)) !! k
  = if bool_decide (k ∈ cts) then Some (decrypt_message pq_ntru_decrypt k key_dir).2
    else d !! k.
Proof.
  unfold Client.starmap, dict_update.
  induction cts as [|ct cts IH]; intros d k; [reflexivity|].
  cbn [fmap list_fmap foldl]. rewrite IH.
  rewrite decrypt_message_spec. cbn [fst snd].
  destruct (bool_decide_reflect (k ∈ cts)) as [Hin|Hnin].
  - rewrite bool_decide_eq_true_2 by (now right). reflexivity.
  - destruct (decide (k = ct)) as [->|Hne].
    + rewrite bool_decide_eq_true_2 by left.
      rewrite lookup_insert_eq, decrypt_message_spec. reflexivity.
    + rewrite bool_decide_eq_false_2
        by (intros Hin; apply elem_of_cons in Hin as [?|?]; auto).
      now rewrite lookup_insert_ne.
Qed.

(** The labels [add_existing_chat] adds are those of the messages, read
    in the cache as it is after the batch. *)
Lemma add_existing_chat_labels key_dir cs peer_id messages :
  let saved := match cs.(saved_chat_file) with Some d => d | None => ∅ end in
  let todo := filter (fun m => saved !! m.(message) = None
                               /\ m.(sender_id) = peer_id) messages in
  let cache :=
    match todo with
    | [] => cs.(saved_chat)
    | _ => dict_update saved
             (starmap pq_ntru_decrypt ((fun ct => (ct, key_dir)) <$> (message <$> todo)))
    end in
  (add_existing_chat pq_ntru_decrypt key_dir cs peer_id messages).(labels)
  = cs.(labels) ++ (Client.add_message cache <$> messages).
Proof.
  cbv zeta. unfold add_existing_chat. rewrite <- list_fmap_compose.
  destruct (filter _ messages); reflexivity.
Qed.

(** C9.  [decrypt_message] returns the pair of the ciphertext and the
    plaintext, or the ciphertext and [None]; the second component is
    [None] exactly when the primitive throws, whatever it throws.  A
    [None] plaintext is shown as the fixed text 'Unable to decrypt
    message', in italics; and a ciphertext on which the primitive throws
    gets that label both when it arrives in a [receive_message] and when
    it is decrypted with the history of a chat during synchronisation. *)
Theorem decrypt_failure_is_rendered (key_dir ct : string) :
  (exists plaintext,
     decrypt_message pq_ntru_decrypt ct key_dir = (ct, plaintext)
     /\ (plaintext = None <-> exists e, pq_ntru_decrypt key_dir ct = Throws e)
     /\ (forall p, plaintext = Some p <-> pq_ntru_decrypt key_dir ct = Returns p))
  /\ add_text None = Label "Unable to decrypt message" true 230
  /\ ((exists e, pq_ntru_decrypt key_dir ct = Throws e) ->
      (forall cs m,
         m.(message) = ct ->
         (on_receive_message pq_ntru_decrypt key_dir cs m).(labels)
         = cs.(labels) ++ [add_text None])
      /\ (forall cs peer_id messages i m,
            messages !! i = Some m ->
            m.(message) = ct -> m.(sender_id) = peer_id ->
            match cs.(saved_chat_file) with
            | Some d => d !! ct = None
            | None => True
            end ->
            (add_existing_chat pq_ntru_decrypt key_dir cs peer_id messages).(labels)
              !! (length cs.(labels) + i)
            = Some (add_text None))).
Proof.
  split; [|split; [reflexivity|]].
  - rewrite decrypt_message_spec. eexists. split; [reflexivity|].
    destruct (pq_ntru_decrypt key_dir ct) as [p|e]; split.
    + split; [discriminate|]. intros [e He]. discriminate He.
    + intros q. split; congruence.
    + split; eauto.
    + intros q. split; discriminate.
  - intros [e He]. split.
    + intros cs m Hm. unfold on_receive_message. cbn [labels].
      f_equal. f_equal. unfold Client.add_message.
      change [(message m, key_dir)]
        with ((fun ct => (ct, key_dir)) <$> [message m]).
      rewrite dict_update_starmap, bool_decide_eq_true_2 by left.
      rewrite Hm, decrypt_message_spec, He. reflexivity.
    + intros cs peer_id messages i m Hi Hm Hs Hfile.
      rewrite add_existing_chat_labels. cbv zeta.
      rewrite lookup_app_r by lia.
      replace (length (labels cs) + i - length (labels cs)) with i by lia.
      rewrite list_lookup_fmap, Hi. cbn [fmap option_fmap option_map].
      f_equal. unfold Client.add_message. rewrite Hm.
      set (saved := match saved_chat_file cs with Some d => d | None => ∅ end).
      assert (Hsaved : saved !! ct = None).
      { unfold saved. destruct (saved_chat_file cs); [exact Hfile|].
        apply lookup_empty. }
      assert (Htodo : m ∈ filter (fun m => saved !! m.(message) = None
                                           /\ m.(sender_id) = peer_id) messages).
      { apply list_elem_of_filter. split.
        - rewrite Hm. auto.
        - apply list_elem_of_lookup. eauto. }
      destruct (filter _ messages) as [|t todo]; [inversion Htodo|].
      rewrite dict_update_starmap, bool_decide_eq_true_2.
      * rewrite decrypt_message_spec, He. reflexivity.
      * rewrite <- Hm. apply list_elem_of_fmap. eauto.
Qed.
End Decryption.

Section DecryptionExamples.
Import Client.

Lemma decrypt_failure_is_rendered_witness :
(exists e, toy_decrypt "keys/me" "garbled" = Throws e) /\
(let m := Message 7 2 "garbled" "01-09-2024 11:00" true in
 (on_receive_message toy_decrypt "keys/me" (ChatScreen ∅ None []) m).(labels)
 = [Label "Unable to decrypt message" true 230]) /\
(let history := [Message 6 2 "c6" "01-09-2024 10:59" false;
                 Message 7 2 "garbled" "01-09-2024 11:00" true] in
 (add_existing_chat toy_decrypt "keys/me" (ChatScreen ∅ None []) 2 history).(labels)
   !! 1
 = Some (Label "Unable to decrypt message" true 230)).
Proof.
assert (He : exists e, toy_decrypt "keys/me" "garbled" = Throws e)
  by (exists ValueError; reflexivity).
destruct (decrypt_failure_is_rendered toy_decrypt "keys/me" "garbled")
  as (_ & _ & Hrender).
destruct (Hrender He) as [Hlive Hbulk].
split; [exact He|]. split.
- exact (Hlive (ChatScreen ∅ None [])
           (Message 7 2 "garbled" "01-09-2024 11:00" true) eq_refl).
- exact (Hbulk (ChatScreen ∅ None []) 2
           [Message 6 2 "c6" "01-09-2024 10:59" false;
            Message 7 2 "garbled" "01-09-2024 11:00" true]
           1 (Message 7 2 "garbled" "01-09-2024 11:00" true)
           eq_refl eq_refl eq_refl I).
Defined.

(** Both kinds of exception, and a success, through both paths. *)
Example decrypt_paths :
Client.decrypt_message toy_decrypt "garbled" "keys/me" = ("garbled", None) /\
Client.decrypt_message toy_decrypt "broken" "keys/me" = ("broken", None) /\
Client.decrypt_message toy_decrypt "c6" "keys/me" = ("c6", Some "plain c6") /\
text <$> (add_existing_chat toy_decrypt "keys/me" (ChatScreen ∅ None []) 2
            [Message 5 2 "broken" "01-09-2024 10:58" false;
             Message 6 2 "c6" "01-09-2024 10:59" false;
             Message 7 2 "garbled" "01-09-2024 11:00" true]).(labels)
= ["Unable to decrypt message"; "plain c6"; "Unable to decrypt message"] /\
text <$> (on_receive_message toy_decrypt "keys/me" (ChatScreen ∅ None [])
            (Message 8 2 "broken" "01-09-2024 11:01" true)).(labels)
= ["Unable to decrypt message"].
Proof. vm_compute. auto 10. Qed.
End DecryptionExamples.

(** ** More on framing *)

Section Streams.
Import Communicator.
Context {V : Type} (dumps : V -> list byte) (loads : list byte -> option V).

(** X1.  However the transport cuts the bytes of a frame and of what
    follows it into segments, provided the first segment holds the whole
    header: [receive] returns the value of the frame, and the bytes after
    the frame, and only they, stay in the stream. *)
Theorem receive_reassembles (v : V) (segments : stream) (seg : list byte)
    (more : list byte) :
  loads (dumps v) = Some v ->
  (N.of_nat (length (dumps v)) < 10 ^ 64)%N ->
  head segments = Some seg ->
  HEADER <= length seg ->
  concat segments = length_header_of (dumps v) ++ dumps v ++ more ->
  exists rest, receive loads segments = Ok (v, rest) /\ concat rest = more.
Proof.
  intros Hv Hn Hhd Hseg Hc. destruct segments as [|s rest]; [discriminate|].
  injection Hhd as ->.
  apply (receive_frame dumps loads v seg rest more); auto.
  now apply py_str_fits.
Qed.

Lemma sock_recv_closed bufsize (c : stream) :
  concat c = [] -> (sock_recv bufsize c).1 = [].
Proof.
  induction c as [|seg rest IH]; [reflexivity|]. intros Hc.
  apply app_eq_nil in Hc as [-> Hrest]. cbn. auto.
Qed.

Lemma _recv_closed bufsize (c : stream) :
  concat c = [] -> _recv c bufsize = Raise ConnectionResetError.
Proof.
  intros Hc. unfold _recv. pose proof (sock_recv_closed bufsize c Hc) as H.
  destruct (sock_recv bufsize c) as [d c']. cbn in H. now subst.
Qed.

(** The payload loop on a stream that ends before the announced length. *)
Lemma recv_loop_truncated fuel : forall data_length data (c : stream),
  length data + length (concat c) < data_length ->
  length (concat c) < fuel ->
  recv_loop fuel data_length data c = Raise ConnectionResetError.
Proof.
  induction fuel as [|fuel IH]; intros n data c Hshort Hfuel; [lia|].
  cbn [recv_loop]. destruct (Nat.ltb_spec (length data) n) as [_|?]; [|lia].
  destruct (decide (concat c = [])) as [Hnil|Hne].
  - now rewrite _recv_closed.
  - destruct (sock_recv_spec (n - length data) c) as (d & c' & E & Hd & Hl & Hcat);
      [lia|exact Hne|].
    unfold _recv. rewrite E. destruct d as [|b d]; [congruence|].
    cbn [mbind res_bind]. apply IH.
    + rewrite <- Hcat in Hshort. rewrite !length_app in *. lia.
    + rewrite <- Hcat in Hfuel. rewrite length_app in Hfuel. cbn in Hfuel. lia.
Qed.

(** X2.  A connection with no byte left is a reset, not empty data; and
    a connection that ends after the header but before the announced number
    of payload bytes is a reset too, whatever was read so far. *)
Theorem receive_closed_connection (segments : stream) :
  (concat segments = [] ->
   receive loads segments = Raise ConnectionResetError)
  /\ (forall seg rest data p,
        segments = seg :: rest ->
        HEADER <= length seg ->
        (N.of_nat (length data) < 10 ^ 64)%N ->
        concat segments = length_header_of data ++ p ->
        length p < length data ->
        receive loads segments = Raise ConnectionResetError).
Proof.
  split.
  - intros Hc. unfold receive. now rewrite _recv_closed.
  - intros seg rest data p -> Hseg Hn Hc Hp.
    pose proof (header_length _ (py_str_fits _ Hn)) as Hlen.
    unfold receive, _recv.
    destruct seg as [|b seg]; [unfold HEADER in Hseg; simpl in Hseg; lia|].
    cbn [sock_recv].
    assert (Hhd : take HEADER (b :: seg) = length_header_of data).
    { assert (H : take HEADER (concat ((b :: seg) :: rest))
                  = take HEADER (length_header_of data ++ p)) by (now rewrite Hc).
      change (concat ((b :: seg) :: rest))
        with ((b :: seg) ++ concat rest) in H.
      rewrite take_app_le in H by lia.
      rewrite H, <- Hlen. now rewrite take_app_length. }
    rewrite Hhd.
    destruct (length_header_of data) as [|h hs] eqn:Eh; [discriminate Hlen|].
    rewrite <- Eh. cbn [mbind res_bind]. rewrite header_parses.
    set (c1 := match drop HEADER (b :: seg) with [] => rest | tl => tl :: rest end).
    assert (Hc1 : concat c1 = p).
    { assert (E : concat c1 = drop HEADER (b :: seg) ++ concat rest).
      { unfold c1. destruct (drop HEADER (b :: seg)); reflexivity. }
      rewrite E.
      assert (D : drop HEADER (concat ((b :: seg) :: rest)) = p).
      { rewrite Hc, <- Hlen. now rewrite drop_app_length. }
      change (concat ((b :: seg) :: rest))
        with ((b :: seg) ++ concat rest) in D.
      rewrite drop_app_le in D by lia. exact D. }
    rewrite recv_loop_truncated; [reflexivity|..]; rewrite Hc1; cbn; lia.
Qed.

Lemma send_frame (v : V) (c : stream) : send dumps v c = c ++ frame_of dumps v.
Proof.
  unfold frame_of, send, sock_send.
  destruct (length_header_of (dumps v)), (dumps v); cbn;
    rewrite ?app_nil_r, <- ?app_assoc; reflexivity.
Qed.

Lemma send_all_frames (vs : list V) : forall c,
  send_all dumps vs c = c ++ concat (frame_of dumps <$> vs).
Proof.
  induction vs as [|v vs IH]; intros c; cbn.
  - now rewrite app_nil_r.
  - unfold send_all in *. cbn. rewrite IH, send_frame, <- app_assoc. reflexivity.
Qed.

Lemma recv_loop_done fuel data_length data (c : stream) :
  data_length <= length data ->
  recv_loop fuel data_length data c = Ok (data, c).
Proof.
  intros Hle. destruct fuel; cbn [recv_loop];
    now replace (length data <? data_length) with false
      by (symmetry; apply Nat.ltb_ge; lia).
Qed.

(** One frame as [send] cut it, then anything: [receive] takes the frame
    and leaves the segments after it as they are. *)
Lemma receive_own_frame (v : V) (tail : stream) :
  loads (dumps v) = Some v ->
  (N.of_nat (length (dumps v)) < 10 ^ 64)%N ->
  receive loads (frame_of dumps v ++ tail) = Ok (v, tail).
Proof.
  intros Hv Hn.
  pose proof (header_length _ (py_str_fits _ Hn)) as Hlen.
  unfold frame_of, send, sock_send, receive, _recv.
  destruct (length_header_of (dumps v)) as [|h hs] eqn:Eh; [discriminate Hlen|].
  rewrite <- Eh in Hlen |- *.
  assert (Hseg : forall rest,
            sock_recv HEADER (length_header_of (dumps v) :: rest)
            = (length_header_of (dumps v), rest)).
  { intros rest. rewrite Eh. cbn [sock_recv]. rewrite <- Eh.
    rewrite take_ge, drop_ge by lia. reflexivity. }
  destruct (dumps v) as [|b p] eqn:Ep.
  - cbn [app]. rewrite Hseg, Eh. cbn [mbind res_bind]. rewrite <- Eh.
    rewrite <- Ep at 1. rewrite header_parses, Ep. cbn. now rewrite Hv.
  - cbn [app]. rewrite Hseg, Eh. cbn [mbind res_bind]. rewrite <- Eh.
    rewrite <- Ep at 1. rewrite header_parses, Ep.
    cbn [length recv_loop]. change (0 <? S (length p)) with true. cbv iota.
    unfold _recv. cbn [sock_recv]. rewrite Nat.sub_0_r.
    rewrite (take_ge (b :: p)), (drop_ge (b :: p)) by (cbn; lia).
    cbn [mbind res_bind app].
    rewrite recv_loop_done by (cbn; lia). cbn. now rewrite Hv.
Qed.

(** X3.  Values sent one after the other on a connection are received in
    the order sent, one per call, and nothing is left in the stream. *)
Theorem frames_in_order (vs : list V) :
  Forall (fun v => loads (dumps v) = Some v
                   /\ (N.of_nat (length (dumps v)) < 10 ^ 64)%N) vs ->
  receive_n loads (length vs) (send_all dumps vs []) = Ok (vs, []).
Proof.
  rewrite send_all_frames. cbn [app].
  induction vs as [|v vs IH]; intros Hall; [reflexivity|].
  inversion Hall as [|? ? [Hv Hn] Hall']; subst.
  cbn [length receive_n fmap list_fmap concat].
  rewrite receive_own_frame by assumption. cbn [mbind res_bind].
  rewrite IH by assumption. reflexivity.
Qed.
End Streams.

Section StreamExamples.
Import Communicator.

Lemma receive_reassembles_witness :
  let v := [x68; x69] in
  let segments := [length_header_of v ++ [x68]; [x69; x61]] in
  exists rest,
    receive raw_loads segments = Ok (v, rest) /\ concat rest = [x61].
Proof.
  apply (receive_reassembles raw_dumps raw_loads [x68; x69]
           [length_header_of [x68; x69] ++ [x68]; [x69; x61]]
           (length_header_of [x68; x69] ++ [x68]) [x61]);
    [reflexivity | vm_compute; reflexivity | reflexivity
    | vm_compute; lia | vm_compute; reflexivity].
Defined.

Lemma receive_closed_connection_witness :
  receive raw_loads [] = Raise ConnectionResetError /\
  receive raw_loads [length_header_of [x68; x69]; [x68]]
  = Raise ConnectionResetError.
Proof.
  split.
  - exact (proj1 (receive_closed_connection raw_loads []) eq_refl).
  - apply (proj2 (receive_closed_connection raw_loads
                    [length_header_of [x68; x69]; [x68]])
             (length_header_of [x68; x69]) [[x68]] [x68; x69] [x68]);
      [reflexivity | vm_compute; lia | vm_compute; reflexivity
      | vm_compute; reflexivity | vm_compute; lia].
Defined.

Lemma frames_in_order_witness :
  let vs := [[x61]; []; replicate 64 x41] in
  receive_n raw_loads 3 (send_all raw_dumps vs []) = Ok (vs, []).
Proof.
  apply (frames_in_order raw_dumps raw_loads [[x61]; []; replicate 64 x41]).
  repeat constructor; vm_compute; reflexivity.
Defined.
End StreamExamples.

(** ** The constraints of the store *)

Section Constraints.
Import Database.

Lemma fetchone_some {A} (p : A -> bool) l x :
  fetchone p l = Some x -> x ∈ l /\ p x = true.
Proof.
  unfold fetchone. intros Hx.
  assert (Hin : x ∈ filter (fun a => p a = true) l).
  { destruct (filter _ l); [discriminate|]. injection Hx as ->. left. }
  now apply list_elem_of_filter in Hin as [? ?].
Qed.

Lemma existsb_elem {A} (p : A -> bool) l :
  existsb p l = true <-> exists a, a ∈ l /\ p a = true.
Proof.
  rewrite existsb_exists. split; intros (a & Ha & Hp); exists a;
    (split; [now apply list_elem_of_In|easy]).
Qed.

Lemma existsb_none {A} (p : A -> bool) l :
  existsb p l = false <-> forall a, a ∈ l -> p a = false.
Proof.
  split.
  - intros Hex a Ha. destruct (p a) eqn:Hp; [|easy].
    rewrite <- Hex. symmetry. apply existsb_elem. eauto.
  - intros Hall. destruct (existsb p l) eqn:Hex; [|easy].
    apply existsb_elem in Hex as (a & Ha & Hp). rewrite Hall in Hp; easy.
Qed.

(** With neither the name nor the pair of ip and mac in a row, the user
    is added under the next id. *)
Lemma add_user_fresh db ip mac username key :
  validate_username db username = true -> get_user db ip mac = None ->
  let row := User (next_id (user_id <$> db.(users))) ip mac username key in
  add_user db ip mac username key
  = Ok (Some row, Db (db.(users) ++ [row]) db.(chats) db.(tables)).
Proof.
  intros Hname Hpair row. unfold add_user.
  rewrite validate_username_spec in Hname.
  unfold get_user in Hpair. rewrite fetchone_none in Hpair.
  replace (existsb _ _) with false.
  - cbn zeta. fold row. unfold get_user. cbn [users].
    rewrite fetchone_fresh; [reflexivity| |exact Hpair].
    cbn. now rewrite !bool_decide_eq_true_2.
  - symmetry. apply existsb_none. intros u Hu.
    rewrite (bool_decide_eq_false_2 _ (Hname u Hu)). apply (Hpair u Hu).
Qed.

(** X4.  [add_user] is refused exactly when a row holds the username or
    the pair of ip and mac; otherwise it appends one row under an id no row
    had, returns that row, and the row is then found by id, its name is
    taken and the constraints of [users] still hold. *)
Theorem add_user_registers (db : t) (ip mac username key : string) :
  let taken :=
    exists u, u ∈ db.(users) /\
      (u.(Database.username) = username
       \/ (u.(Database.ip) = ip /\ u.(Database.mac) = mac)) in
  let row := User (next_id (user_id <$> db.(users))) ip mac username key in
  let db' := Db (db.(users) ++ [row]) db.(chats) db.(tables) in
  (taken -> add_user db ip mac username key = Raise IntegrityError)
  /\ (~ taken ->
      add_user db ip mac username key = Ok (Some row, db')
      /\ (row.(user_id) ∉ user_id <$> db.(users))
      /\ get_user_id db' row.(user_id) = Some row
      /\ validate_username db' username = false
      /\ (users_wf db -> users_wf db')).
Proof.
  intros taken row db'.
  assert (Hiff : existsb (fun u =>
             bool_decide (u.(Database.username) = username)
             || (bool_decide (u.(Database.ip) = ip)
                 && bool_decide (u.(Database.mac) = mac))) db.(users) = true
           <-> taken).
  { rewrite existsb_elem. unfold taken.
    split; intros (u & Hu & Hp); exists u; (split; [easy|]).
    - apply orb_prop in Hp as [Hp|Hp].
      + left. now rewrite bool_decide_eq_true in Hp.
      + apply andb_prop in Hp as [H1 H2]. right.
        rewrite bool_decide_eq_true in H1, H2. tauto.
    - destruct Hp as [Hn | [Hi Hm]].
      + now rewrite (bool_decide_eq_true_2 _ Hn).
      + rewrite (bool_decide_eq_true_2 _ Hi), (bool_decide_eq_true_2 _ Hm).
        apply orb_true_r. }
  split.
  - intros Ht. unfold add_user. apply Hiff in Ht. now rewrite Ht.
  - intros Hfree.
    assert (Hno : forall u, u ∈ db.(users) ->
              u.(Database.username) <> username
              /\ ~ (u.(Database.ip) = ip /\ u.(Database.mac) = mac)).
    { intros u Hu. split; intros Hc; apply Hfree; exists u; tauto. }
    assert (Hfresh : row.(user_id) ∉ (user_id <$> db.(users))).
    { intros Hin. apply next_id_above in Hin. cbn in Hin. lia. }
    assert (Hget : get_user db' ip mac = Some row).
    { unfold get_user, db'. cbn [users]. apply fetchone_fresh.
      - cbn. now rewrite !bool_decide_eq_true_2.
      - intros u Hu. destruct (Hno u Hu) as [_ Hpair].
        destruct (decide (u.(Database.ip) = ip)) as [Hi|Hi].
        + rewrite (bool_decide_eq_false_2 (u.(Database.mac) = mac)) by tauto.
          apply andb_false_r.
        + now rewrite (bool_decide_eq_false_2 (u.(Database.ip) = ip)). }
    split; [|split; [exact Hfresh|split; [|split]]].
    + unfold add_user.
      destruct (existsb _ (users db)) eqn:Hex.
      * destruct Hfree. now apply Hiff.
      * cbn zeta. fold row. fold db'. now rewrite Hget.
    + unfold get_user_id, db'. cbn [users]. apply fetchone_fresh.
      * now rewrite bool_decide_eq_true_2.
      * intros u Hu. apply bool_decide_eq_false_2. intros Hid.
        apply Hfresh. rewrite <- Hid. apply list_elem_of_fmap. eauto.
    + destruct (validate_username db' username) eqn:Hv; [|easy].
      apply validate_username_spec with (row := row) in Hv; [easy|].
      unfold db'. cbn [users]. apply elem_of_app. right. left.
    + intros (Hids & Hnames & Hpairs). unfold users_wf, db'. cbn [users].
      rewrite !fmap_app. cbn [fmap list_fmap].
      repeat split; apply NoDup_app; (split; [easy|]);
        (split; [|apply NoDup_singleton]);
        intros x Hx Hx'; apply list_elem_of_singleton in Hx'; subst x;
        apply list_elem_of_fmap in Hx as (u & Hu & Hin).
      * apply Hfresh. rewrite Hu. apply list_elem_of_fmap. eauto.
      * destruct (Hno u Hin) as [Hn _]. cbn in Hu. congruence.
      * destruct (Hno u Hin) as [_ Hn]. cbn in Hu. apply Hn.
        split; congruence.
Qed.

Lemma NoDup_fmap_eq {A B} (f : A -> B) l x y :
  NoDup (f <$> l) -> x ∈ l -> y ∈ l -> f x = f y -> x = y.
Proof.
  induction l as [|a l IH]; cbn; intros Hnd Hx Hy E.
  - now apply elem_of_nil in Hx.
  - apply NoDup_cons in Hnd as [Ha Hnd].
    apply elem_of_cons in Hx as [->|Hx]; apply elem_of_cons in Hy as [->|Hy];
      auto.
    + destruct Ha. rewrite E. apply list_elem_of_fmap. eauto.
    + destruct Ha. rewrite <- E. apply list_elem_of_fmap. eauto.
Qed.

Lemma update_user_fmap {B} (g : user_row -> B) f _id l :
  (forall u, g (f u) = g u) -> g <$> update_user f _id l = g <$> l.
Proof.
  intros Hg. unfold update_user. rewrite <- list_fmap_compose.
  apply list_fmap_ext. intros i u _. cbn. now destruct (bool_decide _).
Qed.

Lemma update_user_get f _id l row :
  (forall u, (f u).(user_id) = u.(user_id)) ->
  fetchone (fun u => bool_decide (u.(user_id) = _id)) l = Some row ->
  fetchone (fun u => bool_decide (u.(user_id) = _id)) (update_user f _id l)
  = Some (f row).
Proof.
  intros Hf. unfold fetchone, update_user.
  induction l as [|u l IH]; [discriminate|].
  rewrite fmap_cons, !filter_cons.
  destruct (decide (u.(user_id) = _id)) as [Hu|Hu].
  - rewrite !decide_True
      by (apply bool_decide_eq_true_2;
          rewrite ?(bool_decide_eq_true_2 _ Hu), ?Hf; exact Hu).
    cbn. intros [= ->]. now rewrite (bool_decide_eq_true_2 _ Hu).
  - rewrite !decide_False
      by (rewrite bool_decide_eq_true;
          rewrite ?(bool_decide_eq_false_2 _ Hu); exact Hu).
    exact IH.
Qed.

Lemma update_user_other f _id other l :
  (forall u, (f u).(user_id) = u.(user_id)) -> other <> _id ->
  fetchone (fun u => bool_decide (u.(user_id) = other)) (update_user f _id l)
  = fetchone (fun u => bool_decide (u.(user_id) = other)) l.
Proof.
  intros Hf Hne. unfold fetchone, update_user.
  induction l as [|u l IH]; [reflexivity|].
  rewrite fmap_cons, !filter_cons.
  destruct (decide (u.(user_id) = other)) as [Hu|Hu].
  - rewrite (bool_decide_eq_false_2 (u.(user_id) = _id)) by congruence.
    now rewrite !decide_True by now apply bool_decide_eq_true_2.
  - assert (Hu' : (if bool_decide (u.(user_id) = _id) then f u else u).(user_id)
                  <> other).
    { destruct (bool_decide _); [now rewrite Hf|easy]. }
    rewrite !decide_False by now rewrite bool_decide_eq_false_2.
    exact IH.
Qed.

(** Renaming a row keeps the constraints of [users], unless the name is
    held by another row while the row to rename exists. *)
Lemma rename_users_wf db _id name :
  let rename u := User u.(user_id) u.(ip) u.(mac) name u.(key) in
  users_wf db ->
  ((exists u, u ∈ db.(users) /\ u.(user_id) = _id) ->
   forall u, u ∈ db.(users) -> u.(username) = name -> u.(user_id) = _id) ->
  users_wf (Db (update_user rename _id db.(users)) db.(chats) db.(tables)).
Proof.
  intros rename (Hids & Hnames & Hpairs) Hfree. unfold users_wf. cbn [users].
  rewrite (update_user_fmap user_id), (update_user_fmap (fun u => (ip u, mac u)))
    by reflexivity.
  split; [exact Hids|split; [|exact Hpairs]].
  assert (Hnd : NoDup (update_user rename _id db.(users))).
  { apply (NoDup_fmap_1 user_id).
    now rewrite (update_user_fmap user_id) by reflexivity. }
  apply NoDup_fmap_2_strong; [|exact Hnd].
  intros x' y' Hx' Hy' E.
  apply update_user_elem in Hx' as (x & Hx & ->).
  apply update_user_elem in Hy' as (y & Hy & ->).
  destruct (decide (x.(user_id) = _id)) as [Ex|Ex];
    destruct (decide (y.(user_id) = _id)) as [Ey|Ey];
    rewrite ?(bool_decide_eq_true_2 _ Ex), ?(bool_decide_eq_false_2 _ Ex),
            ?(bool_decide_eq_true_2 _ Ey), ?(bool_decide_eq_false_2 _ Ey) in *.
  - f_equal. apply (NoDup_fmap_eq user_id db.(users)); congruence.
  - destruct Ey. apply Hfree; eauto.
  - destruct Ex. apply Hfree; eauto.
  - now apply (NoDup_fmap_eq username db.(users)).
Qed.

Lemma change_username_users_wf db _id name db' :
  change_username db _id name = Ok db' -> users_wf db -> users_wf db'.
Proof.
  unfold change_username. intros E Hwf.
  destruct (existsb _ _ && existsb _ _) eqn:Hc; [discriminate|].
  injection E as <-. apply rename_users_wf; [exact Hwf|].
  intros (v & Hv & Hvid) u Hu Hname.
  destruct (decide (u.(user_id) = _id)) as [|Hne]; [easy|].
  apply andb_false_iff in Hc as [Hc|Hc].
  - rewrite existsb_none in Hc. specialize (Hc u Hu).
    rewrite (bool_decide_eq_true_2 _ Hname),
            (bool_decide_eq_false_2 _ Hne) in Hc. discriminate.
  - rewrite existsb_none in Hc. specialize (Hc v Hv).
    rewrite (bool_decide_eq_true_2 _ Hvid) in Hc. discriminate.
Qed.

(** X5.  Renaming a user that exists succeeds exactly when the name is free
    or the user's own.  The row is then found under the new name with
    its id, address and key; the rows of the others stay; the constraints of
    [users] hold; and the old name is free again. *)
Theorem change_username_renames (db : t) (_id : nat) (name : string)
    (row : user_row) :
  users_wf db ->
  get_user_id db _id = Some row ->
  let free := validate_username db name = true \/ row.(username) = name in
  (free ->
   exists db',
     change_username db _id name = Ok db'
     /\ get_user_id db' _id
        = Some (User _id row.(ip) row.(mac) name row.(key))
     /\ (forall other, other <> _id ->
           get_user_id db' other = get_user_id db other)
     /\ users_wf db'
     /\ validate_username db' name = false
     /\ (row.(username) <> name ->
         validate_username db' row.(username) = true))
  /\ (~ free -> change_username db _id name = Raise IntegrityError).
Proof.
  intros Hwf Hrow free.
  destruct (fetchone_some _ _ _ Hrow) as [Hin Hid].
  apply bool_decide_eq_true in Hid.
  assert (Hex : existsb (fun u => bool_decide (u.(user_id) = _id)) db.(users)
                = true).
  { apply existsb_elem. exists row. split; [easy|].
    now apply bool_decide_eq_true_2. }
  assert (Hclash : existsb (fun u =>
              bool_decide (u.(Database.username) = name)
              && negb (bool_decide (u.(Database.user_id) = _id))) db.(users)
            = true <-> ~ free).
  { rewrite existsb_elem. unfold free. split.
    - intros (u & Hu & Hp). apply andb_prop in Hp as [Hn Hi].
      apply bool_decide_eq_true in Hn. apply negb_true_iff in Hi.
      apply bool_decide_eq_false in Hi.
      intros [Hv | Hown].
      + now apply (proj1 (validate_username_spec db name) Hv u).
      + destruct Hwf as (_ & Hnames & _). destruct Hi.
        rewrite <- Hid. f_equal.
        apply (NoDup_fmap_eq username db.(users)); congruence.
    - intros Hnot.
      destruct (validate_username db name) eqn:Hv; [tauto|].
      assert (Hsome : exists u, u ∈ db.(users) /\ u.(username) = name).
      { unfold validate_username in Hv.
        destruct (fetchone _ _) as [u|] eqn:Hf; [|discriminate].
        apply fetchone_some in Hf as [Hu Hp]. exists u.
        now rewrite bool_decide_eq_true in Hp. }
      destruct Hsome as (u & Hu & Hname). exists u. split; [easy|].
      rewrite (bool_decide_eq_true_2 _ Hname). cbn.
      apply negb_true_iff, bool_decide_eq_false_2. intros Hu_id.
      apply Hnot. right.
      destruct Hwf as (Hids & _ & _).
      assert (u = row) by (apply (NoDup_fmap_eq user_id db.(users)); congruence).
      congruence. }
  split.
  - intros Hfree.
    assert (Hc : existsb (fun u =>
              bool_decide (u.(Database.username) = name)
              && negb (bool_decide (u.(Database.user_id) = _id))) db.(users)
            = false).
    { destruct (existsb _ _) eqn:Hc in |- *; [|easy].
      apply Hclash in Hc. contradiction. }
    eexists. split; [|split; [|split; [|split; [|split]]]].
    + unfold change_username. rewrite Hc. reflexivity.
    + unfold get_user_id. cbn [users].
      rewrite (update_user_get _ _ _ row) by easy. now rewrite Hid.
    + intros other Hne. unfold get_user_id. cbn [users].
      now apply update_user_other.
    + apply (change_username_users_wf db _id name); [|exact Hwf].
      unfold change_username. now rewrite Hc.
    + match goal with
      | |- validate_username ?d _ = false =>
          destruct (validate_username d name) eqn:Hv; [|easy]
      end.
      rewrite validate_username_spec in Hv.
      destruct (Hv (User _id row.(ip) row.(mac) name row.(key))); [|easy].
      cbn [users]. unfold update_user. apply list_elem_of_fmap.
      exists row. rewrite (bool_decide_eq_true_2 _ Hid). split; [|easy].
      now rewrite Hid.
    + intros Hold. apply validate_username_spec. intros u' Hu' Hname.
      cbn [users] in Hu'. apply update_user_elem in Hu' as (u & Hu & ->).
      destruct (decide (u.(user_id) = _id)) as [Eu|Eu].
      * rewrite (bool_decide_eq_true_2 _ Eu) in Hname. cbn in Hname. congruence.
      * rewrite (bool_decide_eq_false_2 _ Eu) in Hname.
        destruct Hwf as (_ & Hnames & _). destruct Eu. rewrite <- Hid. f_equal.
        now apply (NoDup_fmap_eq username db.(users)).
  - intros Hnot. unfold change_username.
    apply Hclash in Hnot. now rewrite Hnot, Hex.
Qed.

End Constraints.

Section Tables.
Import Database.
Context `{Sqlite}.

Lemma tables_wf_same db db' :
  db'.(chats) = db.(chats) -> db'.(tables) = db.(tables) ->
  tables_wf db -> tables_wf db'.
Proof. unfold tables_wf. now intros -> ->. Qed.

Lemma create_chat_tables_wf db a b id db' :
  Database.create_chat db a b = Ok (id, db') -> tables_wf db -> tables_wf db'.
Proof.
  unfold Database.create_chat. intros E (Hchat & Htable & Hrows).
  destruct (existsb _ _) eqn:Hex; [discriminate|].
  assert (Hnew : chat_name a b ∉ (chat_id <$> db.(chats))).
  { intros Hin. apply existsb_chat_id in Hin. congruence. }
  assert (Hnone : db.(tables) !! chat_name a b = None).
  { destruct (_ !! _) as [tbl|] eqn:Ht; [|easy].
    destruct Hnew. eapply Htable, Ht. }
  rewrite Hnone in E. injection E as <- <-.
  unfold tables_wf. cbn [chats tables]. split; [|split].
  - intros c Hc. apply elem_of_app in Hc as [Hc|Hc].
    + destruct (Hchat c Hc) as (tbl & Ht & H1 & H2). exists tbl.
      rewrite lookup_insert_ne; [easy|].
      intros Heq. apply Hnew. rewrite Heq. apply list_elem_of_fmap. eauto.
    + apply list_elem_of_singleton in Hc as ->. cbn.
      rewrite lookup_insert_eq. eauto.
  - intros name tbl Ht. rewrite fmap_app. apply elem_of_app.
    destruct (decide (name = chat_name a b)) as [->|Hne].
    + right. left.
    + left. rewrite lookup_insert_ne in Ht by congruence. eapply Htable, Ht.
  - intros name tbl Ht. destruct (decide (name = chat_name a b)) as [->|Hne].
    + rewrite lookup_insert_eq in Ht. injection Ht as <-. cbn.
      split; constructor.
    + rewrite lookup_insert_ne in Ht by congruence. eapply Hrows, Ht.
Qed.

(** Replacing the rows of a table by rows with senders within the
    [CHECK] and ids going up keeps the tables well formed. *)
Lemma set_rows_tables_wf db chat_id tbl rows' :
  db.(tables) !! chat_id = Some tbl ->
  Forall (fun m => m.(sender_id) = tbl.(check_1)
                   \/ m.(sender_id) = tbl.(check_2)) rows' ->
  StronglySorted lt (message_id <$> rows') ->
  tables_wf db ->
  tables_wf (Db db.(users) db.(chats)
               (<[chat_id := ChatTable tbl.(check_1) tbl.(check_2) rows']>
                  db.(tables))).
Proof.
  intros Ht Hsend Hsort (Hchat & Htable & Hrows).
  unfold tables_wf. cbn [chats tables]. split; [|split].
  - intros c Hc. destruct (Hchat c Hc) as (tbl' & Ht' & H1 & H2).
    destruct (decide (c.(Database.chat_id) = chat_id)) as [Heq|Hne].
    + rewrite Heq, lookup_insert_eq. rewrite Heq, Ht in Ht'.
      injection Ht' as <-. eauto.
    + rewrite lookup_insert_ne by congruence. eauto.
  - intros name tbl' Ht'. destruct (decide (name = chat_id)) as [->|Hne].
    + eapply Htable, Ht.
    + rewrite lookup_insert_ne in Ht' by congruence. eapply Htable, Ht'.
  - intros name tbl' Ht'. destruct (decide (name = chat_id)) as [->|Hne].
    + rewrite lookup_insert_eq in Ht'. injection Ht' as <-. now cbn.
    + rewrite lookup_insert_ne in Ht' by congruence. eapply Hrows, Ht'.
Qed.

Lemma add_message_tables_wf db chat_id sender message dt unread id db' :
  is_Some (db.(tables) !! chat_id) ->
  add_message db chat_id sender message dt unread = Ok (id, db') ->
  tables_wf db -> tables_wf db'.
Proof.
  unfold add_message. intros [tbl Ht] E Hwf. rewrite Ht in E.
  destruct (_ || _) eqn:Hcheck; [|discriminate].
  injection E as _ <-.
  destruct (Hwf) as (Hchat & Htable & Hrows).
  destruct (Hrows _ _ Ht) as [Hsend Hsort].
  apply set_rows_tables_wf; [exact Ht| | |exact Hwf].
  - apply Forall_app. split; [exact Hsend|]. constructor; [|constructor].
    cbn. apply orb_prop in Hcheck as [Hc|Hc];
      rewrite bool_decide_eq_true in Hc; auto.
  - rewrite fmap_app. apply StronglySorted_app. split; [|split].
    + intros x1 x2 Hx1 Hx2. apply list_elem_of_singleton in Hx2 as ->.
      cbn. now apply next_id_above.
    + exact Hsort.
    + repeat constructor.
Qed.

Lemma read_messages_tables_wf db chat_id db' :
  is_Some (db.(tables) !! chat_id) ->
  read_messages db chat_id = Ok db' -> tables_wf db -> tables_wf db'.
Proof.
  unfold read_messages. intros [tbl Ht] E Hwf. rewrite Ht in E.
  injection E as <-.
  destruct (Hwf) as (Hchat & Htable & Hrows).
  destruct (Hrows _ _ Ht) as [Hsend Hsort].
  apply set_rows_tables_wf; [exact Ht| | |exact Hwf].
  - apply Forall_fmap. eapply Forall_impl; [exact Hsend|].
    intros m Hm. cbn. destruct (mark_read_fields m) as (_ & -> & _). exact Hm.
  - rewrite <- list_fmap_compose.
    erewrite list_fmap_ext; [exact Hsort|].
    intros i m _. cbn. now destruct (mark_read_fields m) as (-> & _).
Qed.

End Tables.

(** ** What a command does to the database *)

Section Statements.
Import Database Server.
Context `{CharTable} `{Database.Sqlite}.

Lemma step_keeps {A} (R : relation Database.t) (m : M A) :
  (forall db, R db db) -> keeps_database m -> db_step R m.
Proof. intros Hrefl Hm w. rewrite Hm. apply Hrefl. Qed.

Lemma step_after {A B} (R : relation Database.t) (m : M A) (k : A -> M B) :
  (forall db, R db db) ->
  keeps_database m -> (forall a, db_step R (k a)) -> db_step R (m ≫= k).
Proof.
  intros Hrefl Hm Hk w. unfold mbind, M_bind. specialize (Hm w).
  destruct (m w) as [[a| |] w1]; cbn in *.
  - rewrite <- Hm. apply Hk.
  - rewrite Hm. apply Hrefl.
  - rewrite Hm. apply Hrefl.
Qed.

Lemma step_execute {A} (R : relation Database.t)
    (f : Database.t -> res (A * Database.t)) :
  (forall db, R db db) ->
  (forall db a db', f db = Ok (a, db') -> R db db') ->
  db_step R (execute f).
Proof.
  intros Hrefl Hf w. unfold execute.
  destruct (f (database w)) as [[a db']| |] eqn:E; cbn; eauto.
Qed.

Lemma step_before {A B} (R : relation Database.t) (m : M A) (k : A -> M B) :
  db_step R m -> (forall a, keeps_database (k a)) -> db_step R (m ≫= k).
Proof.
  intros Hm Hk w. unfold mbind, M_bind. specialize (Hm w).
  destruct (m w) as [[a| |] w1]; cbn in *; [|easy|easy].
  now rewrite Hk.
Qed.

(** A command that names a table keeps the constraints of the store. *)
Lemma dispatch_constraints fuel client _id data :
  db_step (keeps_constraints data) (dispatch fuel client _id data).
Proof.
  assert (Hrefl : forall db, keeps_constraints data db db)
    by (intros db _ Hu Ht; now split).
  destruct data as [peer_id| |username|chat_id peer_id message|chat_id|name];
    cbn [dispatch].
  - unfold Server.create_chat. apply step_before.
    + apply step_execute; [exact Hrefl|]. intros db a db' E _ Hu Ht. split.
      * unfold Database.create_chat in E.
        destruct (existsb _ _); [discriminate|]. now injection E as _ <-.
      * eapply create_chat_tables_wf; eauto.
    + intros chat_id. keeps.
  - apply step_after; [exact Hrefl|auto with keeps|]. intros _.
    apply step_after; [exact Hrefl|auto with keeps|]. intros _.
    apply step_after; [exact Hrefl|apply keeps_get_username|]. intros u.
    apply step_before; [|intros _; auto with keeps].
    apply step_execute; [exact Hrefl|]. intros db a db' E _ Hu Ht.
    destruct (change_username db _id u) as [db2| |] eqn:Ecu;
      [|discriminate..].
    cbn in E. injection E as _ <-. split.
    + eapply change_username_users_wf; eauto.
    + unfold change_username in Ecu. destruct (_ && _); [discriminate|].
      injection Ecu as <-. now apply (tables_wf_same db).
  - apply step_keeps; [exact Hrefl|]. keeps.
  - unfold Server.send_message.
    apply step_after; [exact Hrefl|intros w; reflexivity|]. intros dt.
    apply step_before.
    + apply step_execute; [exact Hrefl|]. intros db a db' E Hname Hu Ht.
      split.
      * unfold add_message in E. destruct Hname as [tbl Htbl].
        cbn in Htbl. rewrite Htbl in E.
        destruct (_ || _); [|discriminate]. now injection E as _ <-.
      * eapply add_message_tables_wf; eauto.
    + intros msg_id.
      apply keeps_bind; [auto with keeps|]. intros present. apply keeps_if.
      * apply keeps_bind.
        -- intros w. now destruct (get_message _ _ _).
        -- intros row. keeps.
      * auto with keeps.
  - apply step_execute; [exact Hrefl|]. intros db a db' E Hname Hu Ht.
    destruct (read_messages db chat_id) as [db2| |] eqn:Erm;
      [|discriminate..].
    cbn in E. injection E as _ <-. split.
    + unfold read_messages in Erm. destruct Hname as [tbl Htbl].
      cbn in Htbl. rewrite Htbl in Erm. now injection Erm as <-.
    + eapply read_messages_tables_wf; eauto.
  - intros w. apply Hrefl.
Qed.

(** X7.  User ids are natural numbers.  Along every run of commands,
    whoever sends them, in which [send_message] and [read_messages] name a
    table that exists when the command is handled, the constraints of the
    store hold: user ids, usernames and pairs of ip and mac stay unique;
    every chat keeps its table and every table its chat; every stored
    message was sent by one of the two users of its chat; and the message
    ids of a table go up in the order of its rows. *)
Theorem store_constraints_invariant (fuel : nat)
    (cmds : list (socket * nat * command)) (w : world) :
  users_wf w.(database) -> tables_wf w.(database) ->
  names_tables fuel cmds w ->
  let db' := (run_commands fuel cmds w).(database) in
  users_wf db' /\ tables_wf db'
  /\ forall c, c ∈ db'.(chats) ->
       exists tbl, db'.(tables) !! c.(chat_id) = Some tbl
         /\ Forall (fun m => m.(sender_id) = c.(user_1)
                             \/ m.(sender_id) = c.(user_2)) tbl.(rows).
Proof.
  revert w. induction cmds as [|[[client _id] data] cmds IH];
    intros w Hu Ht Hnames; cbn [run_commands].
  - cbn zeta. split; [exact Hu|split; [exact Ht|]].
    intros c Hc. destruct Ht as (Hchat & _ & Hrows).
    destruct (Hchat c Hc) as (tbl & Htbl & <- & <-).
    exists tbl. split; [exact Htbl|]. now apply (Hrows c.(chat_id)).
  - destruct Hnames as [Hname Hnames].
    destruct (dispatch_constraints fuel client _id data w Hname Hu Ht)
      as [Hu' Ht'].
    now apply IH.
Qed.

End Statements.

(** ** Reading chats back *)

Section History.
Import Database.
Context `{Sqlite}.

Lemma insert_desc_least m l :
  Forall (fun x => m.(message_id) < x.(message_id)) l ->
  insert_desc m l = l ++ [m].
Proof.
  induction 1 as [|x l Hx _ IH]; [reflexivity|].
  cbn. rewrite (proj2 (Nat.leb_gt _ _) Hx). now rewrite <- IH.
Qed.

Lemma foldr_insert_desc rows :
  StronglySorted lt (message_id <$> rows) ->
  foldr insert_desc [] rows = reverse rows.
Proof.
  induction rows as [|m rows IH]; [reflexivity|].
  cbn [fmap list_fmap foldr]. intros Hs.
  apply StronglySorted_inv in Hs as [Hs Hm].
  rewrite (IH Hs), reverse_cons. apply insert_desc_least.
  apply Forall_reverse. rewrite Forall_fmap in Hm. exact Hm.
Qed.

(** X8.  When the message ids of a table go up in row order, as
    [add_message] leaves them, the history sent for a chat is its last 50
    rows in the order they were stored, and the whole table when it has at
    most 50. *)
Theorem last_messages_window (rows : list message_row) :
  StronglySorted lt (message_id <$> rows) ->
  last_messages rows = drop (length rows - 50) rows
  /\ (length rows <= 50 -> last_messages rows = rows).
Proof.
  intros Hs.
  assert (E : last_messages rows = drop (length rows - 50) rows).
  { unfold last_messages. rewrite (foldr_insert_desc rows Hs).
    now rewrite take_reverse, reverse_involutive. }
  split; [exact E|]. intros Hlen. rewrite E.
  now replace (length rows - 50) with 0 by lia.
Qed.

(** The other user of a chat, as [get_user_chats] picks it. *)
Lemma chat_entry_cases db uid c :
  tables_wf db -> c ∈ db.(chats) ->
  let is_user_1 := bool_decide (c.(user_1) = uid) in
  let peer_id := if is_user_1 then c.(user_2) else c.(user_1) in
  match get_user_id db peer_id with
  | Some peer =>
      exists tbl, db.(tables) !! c.(chat_id) = Some tbl /\
        chat_entry db uid c
        = Ok (ChatDict c.(chat_id) is_user_1 peer_id peer.(username)
                peer.(key) (drop (length tbl.(rows) - 50) tbl.(rows)))
  | None => chat_entry db uid c = Raise TypeError
  end.
Proof.
  intros Hwf Hc is_user_1 peer_id.
  destruct Hwf as (Hchat & _ & Hrows).
  destruct (Hchat c Hc) as (tbl & Ht & _).
  destruct (Hrows _ _ Ht) as [_ Hs].
  unfold chat_entry. fold is_user_1. fold peer_id. rewrite Ht.
  destruct (get_user_id db peer_id) as [peer|] eqn:Hp; [|reflexivity].
  exists tbl. split; [reflexivity|].
  rewrite (proj1 (last_messages_window _ Hs)).
  apply fetchone_some in Hp as [_ Hp]. rewrite bool_decide_eq_true in Hp.
  now rewrite Hp.
Qed.

(** One chat whose other user has no row stops the listing. *)
Lemma mapM_chat_entry_raises db uid l :
  tables_wf db -> Forall (fun c => c ∈ db.(chats)) l ->
  Exists (fun c =>
            get_user_id db (if bool_decide (c.(user_1) = uid)
                            then c.(user_2) else c.(user_1)) = None) l ->
  mapM (chat_entry db uid) l = Raise TypeError.
Proof.
  intros Hwf Hl. induction Hl as [|c l Hc _ IH]; intros Hex.
  - now apply Exists_nil in Hex.
  - pose proof (chat_entry_cases db uid c Hwf Hc) as Hentry.
    cbn zeta in Hentry. cbn [mapM].
    destruct (get_user_id db _) as [peer|] eqn:Hp.
    + destruct Hentry as (tbl & Ht & ->). cbn.
      apply Exists_cons in Hex as [Hex|Hex]; [congruence|].
      now rewrite (IH Hex).
    + now rewrite Hentry.
Qed.

(** X9.  On a store whose tables are well formed, [get_user_chats] answers
    with one dict per chat the user takes part in, in the order of [chats]:
    the chat id, whether the user is its first user, the id, name and key of
    the other user, and the last 50 messages.  One chat whose other user has
    no row makes the whole call raise [TypeError]. *)
Theorem get_user_chats_entries (db : t) (uid : nat) :
  tables_wf db ->
  let mine :=
    filter (fun c => c.(user_1) = uid \/ c.(user_2) = uid) db.(chats) in
  let peer_of c :=
    if bool_decide (c.(user_1) = uid) then c.(user_2) else c.(user_1) in
  (Forall (fun c => is_Some (get_user_id db (peer_of c))) mine ->
   exists ds,
     get_user_chats db uid = Ok ds
     /\ Forall2 (fun c d =>
          d.(cd_chat_id) = c.(chat_id)
          /\ d.(cd_is_user_1) = bool_decide (c.(user_1) = uid)
          /\ d.(cd_peer_id) = peer_of c
          /\ (exists peer, get_user_id db (peer_of c) = Some peer
                /\ peer.(user_id) = peer_of c
                /\ d.(cd_peer_username) = peer.(username)
                /\ d.(cd_peer_key) = peer.(key))
          /\ (exists tbl, db.(tables) !! c.(chat_id) = Some tbl
                /\ d.(cd_messages)
                   = drop (length tbl.(rows) - 50) tbl.(rows))) mine ds)
  /\ (Exists (fun c => get_user_id db (peer_of c) = None) mine ->
      get_user_chats db uid = Raise TypeError).
Proof.
  intros Hwf mine peer_of. unfold get_user_chats. fold mine.
  assert (Hmine : Forall (fun c => c ∈ db.(chats)) mine).
  { apply Forall_forall. intros c Hc.
    now apply list_elem_of_filter in Hc as [_ Hc]. }
  clearbody mine. split.
  - induction Hmine as [|c l Hc _ IH]; intros Hall.
    + exists []. split; [reflexivity|constructor].
    + apply Forall_cons in Hall as [[peer Hp] Hall].
      destruct (IH Hall) as (ds & Eds & Hds).
      pose proof (chat_entry_cases db uid c Hwf Hc) as Hentry.
      cbn zeta in Hentry. fold (peer_of c) in Hentry. rewrite Hp in Hentry.
      destruct Hentry as (tbl & Ht & Hentry).
      eexists. split.
      * cbn [mapM]. rewrite Hentry. cbn. rewrite Eds. reflexivity.
      * constructor; [|exact Hds]. cbn.
        repeat split; [|now exists tbl].
        exists peer. repeat split; [exact Hp|].
        apply fetchone_some in Hp as [_ Hp].
        now rewrite bool_decide_eq_true in Hp.
  - intros Hex. now apply mapM_chat_entry_raises.
Qed.

(** X10.  On a store whose tables are well formed, a message under a
    [chat_id] that is the name of a table is stored exactly when the
    sender is one of the two users of the chat of that name: the row is
    added at the end of the table under an id above those in it.  Another
    sender is refused by the [CHECK]. *)
Theorem add_message_guard (db : t) (chat_id : string) (sender : nat)
    (message dt : string) (unread : bool) :
  tables_wf db ->
  is_Some (db.(tables) !! chat_id) ->
  match add_message db chat_id sender message dt unread with
  | Ok (id, db') =>
      exists c tbl, c ∈ db.(chats) /\ c.(Database.chat_id) = chat_id
        /\ (sender = c.(user_1) \/ sender = c.(user_2))
        /\ db.(tables) !! chat_id = Some tbl
        /\ db'.(tables) !! chat_id
           = Some (ChatTable c.(user_1) c.(user_2)
                     (tbl.(rows) ++ [Message id sender message dt unread]))
        /\ Forall (fun m => m.(message_id) < id) tbl.(rows)
  | Raise e =>
      e = IntegrityError /\
      exists c, c ∈ db.(chats) /\ c.(Database.chat_id) = chat_id
        /\ sender <> c.(user_1) /\ sender <> c.(user_2)
  | OutOfFuel => False
  end.
Proof.
  intros (Hchat & Htable & Hrows) [tbl Ht]. unfold add_message. rewrite Ht.
  pose proof (Htable _ _ Ht) as Hin.
  apply list_elem_of_fmap in Hin as (c & Hid & Hc).
  destruct (Hchat c Hc) as (tbl' & Ht' & H1 & H2).
  rewrite <- Hid, Ht in Ht'. injection Ht' as <-.
  destruct (_ || _) eqn:Hcheck.
  - exists c, tbl. rewrite H1, H2 in *.
    split; [easy|split; [easy|split; [|split; [easy|split]]]].
    + apply orb_prop in Hcheck as [E|E];
        rewrite bool_decide_eq_true in E; auto.
    + cbn [tables]. now rewrite lookup_insert_eq.
    + apply Forall_forall. intros m Hm. apply next_id_above.
      apply list_elem_of_fmap. eauto.
  - split; [easy|]. exists c.
    apply orb_false_elim in Hcheck as [E1 E2].
    rewrite bool_decide_eq_false in E1, E2. rewrite H1 in E1.
    rewrite H2 in E2. easy.
Qed.

End History.

Section ConstraintExamples.
Import Database Server Scenario.

Lemma scenario_users_wf (chats : list chat_row) tables :
  users_wf (Db [alice; bob] chats tables).
Proof.
  unfold users_wf. cbn. repeat split;
    apply (bool_decide_unpack _); vm_compute; exact I.
Qed.

Lemma empty_tables_wf (users : list user_row) : tables_wf (Db users [] ∅).
Proof.
  unfold tables_wf. cbn. split; [|split].
  - intros c Hc. now apply elem_of_nil in Hc.
  - intros name tbl Ht. now rewrite lookup_empty in Ht.
  - intros name tbl Ht. now rewrite lookup_empty in Ht.
Qed.

Lemma history_tables_wf : tables_wf history.
Proof.
  unfold tables_wf, history. cbn [chats tables]. split; [|split].
  - intros c Hc. rewrite !elem_of_cons, elem_of_nil in Hc.
    destruct Hc as [->|[->|[->|[]]]]; cbn; eexists;
      (split; [vm_compute; reflexivity|split; reflexivity]).
  - intros name tbl Ht.
    rewrite !lookup_insert_Some, lookup_empty in Ht.
    destruct Ht as [[<- _]|[_ [[<- _]|[_ [[<- _]|[_ Ht]]]]]];
      [| | |discriminate]; apply (bool_decide_unpack _); vm_compute; exact I.
  - intros name tbl Ht.
    rewrite !lookup_insert_Some, lookup_empty in Ht.
    destruct Ht as [[<- <-]|[_ [[<- <-]|[_ [[<- <-]|[_ Ht]]]]]];
      [| | |discriminate]; cbn; split; repeat constructor; lia.
Qed.

Lemma add_user_registers_witness :
  add_user history "10.0.0.3" "cc:cc" "alice" "KC" = Raise IntegrityError
  /\ add_user history "10.0.0.3" "cc:cc" "carol" "KC"
     = Ok (Some (User 3 "10.0.0.3" "cc:cc" "carol" "KC"),
           Db [alice; bob; User 3 "10.0.0.3" "cc:cc" "carol" "KC"]
              history.(chats) history.(tables)).
Proof.
  split.
  - apply (add_user_registers history "10.0.0.3" "cc:cc" "alice" "KC").
    exists alice. split; [left|now left].
  - apply (add_user_registers history "10.0.0.3" "cc:cc" "carol" "KC").
    intros (u & Hu & Hp). cbn in Hu.
    rewrite !elem_of_cons, elem_of_nil in Hu.
    destruct Hu as [->|[->|[]]]; cbn in Hp; destruct Hp as [Hp|[Hp _]];
      discriminate.
Defined.

Lemma change_username_renames_witness :
  (exists db',
     change_username history 1 "alicia" = Ok db'
     /\ get_user_id db' 1 = Some (User 1 "10.0.0.1" "aa:aa" "alicia" "KA")
     /\ validate_username db' "alice" = true)
  /\ change_username history 1 "bob" = Raise IntegrityError.
Proof.
  split.
  - destruct (change_username_renames history 1 "alicia" alice
                (scenario_users_wf _ _) eq_refl) as [Hok _].
    destruct (Hok (or_introl eq_refl)) as (db' & E & Hget & _ & _ & _ & Hold).
    exists db'. split; [exact E|split; [exact Hget|]].
    apply Hold. discriminate.
  - apply (change_username_renames history 1 "bob" alice
             (scenario_users_wf _ _) eq_refl).
    intros [Hv|Hn]; discriminate.
Defined.

Lemma store_constraints_invariant_witness :
  let w := run_commands 5
             [(10, 1, create_chat_cmd 2);
              (10, 1, send_message_cmd "chat_1_2" 2 "c1");
              (20, 2, send_message_cmd "chat_1_2" 1 "c2");
              (20, 2, read_messages_cmd "chat_1_2");
              (10, 1, create_chat_cmd 1);
              (10, 1, send_message_cmd "chat_1_1" 1 "c3")] lobby in
  users_wf w.(database) /\ tables_wf w.(database)
  /\ (rows <$> w.(database).(tables) !! "chat_1_2"
      = Some [Message 1 1 "c1" "01-09-2024 12:00" false;
              Message 2 2 "c2" "01-09-2024 12:00" false]).
Proof.
  cbn zeta.
  destruct (store_constraints_invariant 5
              [(10, 1, create_chat_cmd 2);
               (10, 1, send_message_cmd "chat_1_2" 2 "c1");
               (20, 2, send_message_cmd "chat_1_2" 1 "c2");
               (20, 2, read_messages_cmd "chat_1_2");
               (10, 1, create_chat_cmd 1);
               (10, 1, send_message_cmd "chat_1_1" 1 "c3")] lobby
              (scenario_users_wf _ _) (empty_tables_wf _)) as (Hu & Ht & _).
  - vm_compute. repeat split; eauto.
  - split; [exact Hu|split; [exact Ht|]]. vm_compute. reflexivity.
Defined.

Lemma last_messages_window_witness :
  last_messages [Message 1 1 "c1" "01-09-2024 11:00" true;
                 Message 2 2 "c2" "01-09-2024 11:01" true]
  = [Message 1 1 "c1" "01-09-2024 11:00" true;
     Message 2 2 "c2" "01-09-2024 11:01" true].
Proof.
  apply (last_messages_window
           [Message 1 1 "c1" "01-09-2024 11:00" true;
            Message 2 2 "c2" "01-09-2024 11:01" true]).
  - cbn. repeat constructor.
  - cbn. lia.
Defined.

Lemma get_user_chats_entries_witness :
  (exists ds, get_user_chats history 1 = Ok ds /\ length ds = 3)
  /\ get_user_chats (Db [alice] history.(chats) history.(tables)) 1
     = Raise TypeError.
Proof.
  split.
  - destruct (get_user_chats_entries history 1 history_tables_wf) as [Hok _].
    destruct Hok as (ds & E & Hds).
    + repeat constructor; vm_compute; eauto.
    + exists ds. split; [exact E|].
      apply Forall2_length in Hds. now rewrite <- Hds.
  - apply (get_user_chats_entries (Db [alice] history.(chats) history.(tables))
             1 history_tables_wf).
    apply Exists_cons. left. reflexivity.
Defined.

Lemma add_message_guard_witness :
  match add_message history "chat_1_2" 1 "c3" "01-09-2024 12:00" true with
  | Ok (id, _) =>
      Forall (fun m => m.(message_id) < id)
        [Message 1 1 "c1" "01-09-2024 11:00" true;
         Message 2 2 "c2" "01-09-2024 11:01" true]
  | _ => False
  end.
Proof.
  assert (Hname : is_Some (history.(tables) !! "chat_1_2"))
    by (vm_compute; eauto).
  pose proof (add_message_guard history "chat_1_2" 1 "c3" "01-09-2024 12:00"
                true history_tables_wf Hname) as Hguard.
  destruct (add_message history "chat_1_2" 1 "c3" "01-09-2024 12:00" true)
    as [[id db']|e|] eqn:E; [|discriminate E..].
  destruct Hguard as (c & tbl & _ & _ & _ & Ht & _ & Hlt).
  vm_compute in Ht. injection Ht as <-. exact Hlt.
Defined.

End ConstraintExamples.

(** ** Accepting a connection *)

Section Greeting.
Import Server.
Context {V : Type} (dumps : V -> list byte) (connected : V).

Lemma decode_bytes data s :
  decode data = Some s -> data = list_byte_of_string s.
Proof.
  unfold decode. destruct (forallb _ data); [|discriminate].
  intros [= <-]. now rewrite list_byte_of_string_of_list_byte.
Qed.

(** X11.  [listen] returns the connection exactly when its first read of at
    most 64 bytes is, byte for byte, [PeerChat_v1.1.0] or
    [PeerChat_v1.1.1]; it then answers with the frame of ['Connected'] and
    leaves the socket open.  In every other case it writes nothing and
    closes the socket; so does a greeting that arrives with more bytes
    behind it in the same segment. *)
Theorem listen_checks_greeting (c : connection) :
  let greetings := [list_byte_of_string "PeerChat_v1.1.0";
                    list_byte_of_string "PeerChat_v1.1.1"] in
  let read := Communicator.sock_recv 64 c.(inbound) in
  let '(accepted, c') := listen dumps connected c in
  c'.(inbound) = read.2
  /\ (accepted = true <-> read.1 ∈ greetings)
  /\ (if accepted
      then c'.(outbound)
           = c.(outbound) ++ Communicator.frame_of dumps connected
           /\ c'.(is_closed) = false
      else c'.(outbound) = c.(outbound) /\ c'.(is_closed) = true)
  /\ (forall greeting more rest,
        greeting ∈ greetings -> more <> [] ->
        c.(inbound) = (greeting ++ more) :: rest -> accepted = false).
Proof.
  intros greetings read. unfold listen. fold read.
  destruct read as [data inbound'] eqn:Hread. cbn [fst snd].
  assert (Hmore : forall greeting more rest,
            greeting ∈ greetings -> more <> [] ->
            c.(inbound) = (greeting ++ more) :: rest -> data ∉ greetings).
  { intros greeting more rest Hg Hmore Hin. unfold read in Hread.
    rewrite Hin in Hread.
    assert (Hlen : length greeting = 15).
    { unfold greetings in Hg. rewrite !elem_of_cons, elem_of_nil in Hg.
      destruct Hg as [->|[->|[]]]; reflexivity. }
    assert (Hdata : data = take 64 (greeting ++ more)).
    { destruct greeting as [|b g]; [discriminate|].
      change (Communicator.sock_recv 64 (((b :: g) ++ more) :: rest))
        with (take 64 ((b :: g) ++ more),
              match drop 64 ((b :: g) ++ more) with
              | [] => rest
              | tl => tl :: rest
              end) in Hread.
      now injection Hread. }
    intros Hd.
    assert (Hlen' : length data = 15).
    { unfold greetings in Hd. rewrite !elem_of_cons, elem_of_nil in Hd.
      destruct Hd as [->|[->|[]]]; reflexivity. }
    rewrite Hdata, length_take, length_app, Hlen in Hlen'.
    destruct more; [easy|]. cbn in Hlen'. lia. }
  destruct (decode data) as [greeting|] eqn:Hdec.
  - apply decode_bytes in Hdec. rewrite orb_false_r.
    destruct (bool_decide_reflect
                (greeting ∈ (fun version => __PROJECT__ +:+ "_" +:+ version)
                            <$> __version__)) as [Hg|Hg].
    + assert (Hd : data ∈ greetings).
      { rewrite Hdec. cbn in Hg. rewrite !elem_of_cons, elem_of_nil in Hg.
        unfold greetings. rewrite !elem_of_cons.
        destruct Hg as [->|[->|[]]]; auto. }
      cbn. split; [reflexivity|split; [tauto|split]].
      * split; [|reflexivity]. apply send_frame.
      * intros greeting' more rest Hg' Hmore' Hin.
        destruct (Hmore _ _ _ Hg' Hmore' Hin Hd).
    + assert (Hd : data ∉ greetings).
      { intros Hd. apply Hg. rewrite Hdec in Hd. cbn.
        unfold greetings in Hd. rewrite !elem_of_cons, elem_of_nil in Hd.
        rewrite !elem_of_cons.
        destruct Hd as [Hd|[Hd|[]]]; [left|right; left];
          apply (f_equal string_of_list_byte) in Hd;
          rewrite !string_of_list_byte_of_string in Hd; exact Hd. }
      cbn. split; [reflexivity|split; [|split; [easy|easy]]].
      split; [discriminate|tauto].
  - assert (Hd : data ∉ greetings).
    { intros Hd. unfold greetings in Hd.
      rewrite !elem_of_cons, elem_of_nil in Hd.
      destruct Hd as [->|[->|[]]]; discriminate Hdec. }
    cbn. split; [reflexivity|split; [|split; [easy|easy]]].
    split; [discriminate|tauto].
Qed.

End Greeting.

(** ** Commands *)

Section Notifications.
Import Database Server.
Context `{CharTable} `{Database.Sqlite}.

Lemma get_user_id_same db db' _id :
  db'.(users) = db.(users) -> get_user_id db' _id = get_user_id db _id.
Proof. unfold get_user_id. now intros ->. Qed.

Lemma get_user_id_id db _id row :
  get_user_id db _id = Some row -> row.(user_id) = _id.
Proof.
  intros Hrow. apply fetchone_some in Hrow as [_ Hid].
  now rewrite bool_decide_eq_true in Hid.
Qed.

(** X12.  A [create_chat] for a pair with no chat yet, both users having
    their row, stores the chat and notifies the registered socket of the
    initiator and, when the peer is another user and registered, the
    peer's: a socket that is the commanding one is told that it is the
    first user and given the peer's id, name and key, any other socket that
    it is the second user and given the initiator's. *)
Theorem create_chat_notifies (fuel : nat) (client : socket) (_id peer_id : nat)
    (w : world) (user peer : user_row) (own : socket) :
  chats_wf w.(database) ->
  (forall c, c ∈ w.(database).(chats) ->
     ~ (c.(user_1) = _id /\ c.(user_2) = peer_id)) ->
  get_user_id w.(database) _id = Some user ->
  get_user_id w.(database) peer_id = Some peer ->
  w.(clients) !! _id = Some own ->
  let chat_id := chat_name _id peer_id in
  let frame (s : socket) :=
    if bool_decide (s = client)
    then CreateChat chat_id true peer_id peer.(username) peer.(key)
    else CreateChat chat_id false _id user.(username) user.(key) in
  let receivers :=
    own :: match w.(clients) !! peer_id with
           | Some s => if bool_decide (peer_id = _id) then [] else [s]
           | None => []
           end in
  exists w',
    dispatch fuel client _id (create_chat_cmd peer_id) w = (Ok (), w')
    /\ w'.(sent) = w.(sent) ++ ((fun s => (s, frame s)) <$> receivers)
    /\ w'.(database).(chats)
       = w.(database).(chats) ++ [ChatRow chat_id _id peer_id]
    /\ w'.(clients) = w.(clients).
Proof.
  intros Hwf Hnew Huser Hpeer Hown chat_id frame receivers.
  destruct (create_chat_spec w.(database) _id peer_id Hwf)
    as [(_ & c & Hc & H1 & H2) | (db' & Ecc & Hchats & Husers & _)].
  { destruct (Hnew c Hc). now split. }
  pose proof (get_user_id_id _ _ _ Hpeer) as Hpid.
  unfold dispatch, Server.create_chat. run. rewrite Ecc.
  cbn [database clients incoming sent closed logged now].
  rewrite !(get_user_id_same _ _ _ Husers), Huser, Hpeer, Hown, Hpid.
  unfold receivers, frame. fold chat_id.
  cbn [database clients incoming sent closed logged now].
  destruct (w.(clients) !! peer_id) as [s|] eqn:Hs.
  - rewrite (bool_decide_eq_true_2 (is_Some (Some s))) by eauto.
    destruct (decide (peer_id = _id)) as [Heq|Hne].
    + rewrite (bool_decide_eq_true_2 _ Heq). cbn.
      destruct (bool_decide (own = client)); run;
        (eexists; split; [reflexivity|cbn; auto]).
    + rewrite (bool_decide_eq_false_2 _ Hne). cbn. rewrite Hs.
      cbn [mapM]. run.
      destruct (bool_decide (own = client)), (bool_decide (s = client)); run;
        (eexists; split; [reflexivity|cbn; rewrite <- ?app_assoc; auto]).
  - rewrite (bool_decide_eq_false_2 (is_Some None))
      by (intros [? ?]; discriminate).
    cbn. destruct (bool_decide (own = client)); run;
      (eexists; split; [reflexivity|cbn; auto]).
Qed.

End Notifications.

Section Orphans.
Import Database Server.
Context `{CharTable} `{Database.Sqlite}.


End Orphans.

Section Renaming.
Import Database Server.
Context `{CharTable} `{Database.Sqlite}.

(** X14.  A [change_username] command whose next frame is a valid name no
    row holds: the command is echoed, the name accepted, the row of the
    user renamed and the socket put back in the registry under the user's
    id.  When the registry has no entry for the user the command is echoed
    and ends in [KeyError] before any name is read. *)
Theorem change_username_command (fuel : nat) (client : socket) (_id : nat)
    (w : world) (u : string) (frames : list client_frame) :
  w.(incoming) !! client = Some (Text u :: frames) ->
  isalnum (strip_allowed u) = true ->
  validate_username w.(database) u = true ->
  let result := dispatch (S fuel) client _id change_username_cmd w in
  (is_Some (w.(clients) !! _id) ->
   result.1 = Ok ()
   /\ result.2.(sent) = w.(sent) ++ [(client, Echo change_username_cmd);
                                     (client, Str "username accepted")]
   /\ change_username w.(database) _id u = Ok result.2.(database)
   /\ (forall row, get_user_id w.(database) _id = Some row ->
         get_user_id result.2.(database) _id
         = Some (User _id row.(ip) row.(mac) u row.(key)))
   /\ result.2.(clients) = <[_id := client]> w.(clients)
   /\ result.2.(incoming) !! client = Some frames)
  /\ (w.(clients) !! _id = None ->
      result = (Raise KeyError,
                sending [(client, Echo change_username_cmd)] w)).
Proof.
  intros Hin Hvalid Hfree result.
  assert (Hok : change_username w.(database) _id u
                = Ok (Db (update_user
                            (fun r => User r.(user_id) r.(ip) r.(mac) u r.(key))
                            _id w.(database).(users))
                         w.(database).(chats) w.(database).(tables))).
  { unfold change_username.
    replace (existsb _ _) with false; [reflexivity|].
    symmetry. apply existsb_none. intros row Hrow.
    rewrite (bool_decide_eq_false_2 (row.(username) = u)); [reflexivity|].
    now apply (proj1 (validate_username_spec _ _) Hfree). }
  split.
  - intros [own Hown]. unfold result, dispatch. cbn [get_username]. run.
    rewrite Hown. cbn [database clients incoming sent closed logged now].
    rewrite Hin. cbn [database clients incoming sent closed logged now].
    rewrite Hvalid. cbn [negb]. run. rewrite Hfree. run.
    rewrite Hok. cbn.
    split; [reflexivity|split; [now rewrite <- app_assoc|split; [reflexivity|]]].
    split; [|split].
    + intros row Hrow. unfold get_user_id. cbn [users].
      rewrite (update_user_get _ _ _ row); [|reflexivity|exact Hrow].
      now rewrite (get_user_id_id _ _ _ Hrow).
    + now rewrite insert_delete_eq.
    + now rewrite lookup_insert_eq.
  - intros Hnone. unfold result, dispatch. run. rewrite Hnone. reflexivity.
Qed.

End Renaming.

Section Refusals.
Import Database Server.
Context `{CharTable} `{Database.Sqlite}.

(** X15.  On a store whose tables are well formed, a [send_message]
    under a [chat_id] that is the name of a table, from a sender who is
    neither of the two users of the chat of that name, changes nothing at
    all: no row is stored and no frame sent, the peer being online or not,
    and the command ends in [IntegrityError]. *)
Theorem send_message_refused (fuel : nat) (client : socket) (_id : nat)
    (chat_id : string) (peer_id : nat) (message : string) (w : world) :
  tables_wf w.(database) ->
  is_Some (w.(database).(tables) !! chat_id) ->
  (forall c, c ∈ w.(database).(chats) -> c.(Database.chat_id) = chat_id ->
     _id <> c.(user_1) /\ _id <> c.(user_2)) ->
  dispatch fuel client _id (send_message_cmd chat_id peer_id message) w
  = (Raise IntegrityError, w).
Proof.
  intros (Hchat & Htable & _) [tbl Ht] Hout.
  unfold dispatch, Server.send_message. run. unfold add_message. rewrite Ht.
  pose proof (Htable _ _ Ht) as Hin.
  apply list_elem_of_fmap in Hin as (c & Hid & Hc).
  destruct (Hchat c Hc) as (tbl' & Ht' & H1 & H2).
  rewrite <- Hid, Ht in Ht'. injection Ht' as <-.
  destruct (Hout c Hc (eq_sym Hid)) as [Hn1 Hn2].
  rewrite H1, H2, (bool_decide_eq_false_2 _ Hn1),
          (bool_decide_eq_false_2 _ Hn2).
  reflexivity.
Qed.

End Refusals.

(** ** Sessions *)

Section Sessions.
Import Database Server.
Context `{CharTable} `{Database.Sqlite}.

(** X16.  The registry holds one socket per user, and a handler that ends
    on a lost connection deletes the entry of its user without looking at
    the socket in it.  When an older session of a user ends while a newer
    one holds the entry, the newer socket stays open and unregistered:
    messages for the user are stored but not relayed, and the newer
    session's own [create_chat] and [change_username] end in an
    exception. *)
Theorem stale_session_teardown (old new : socket) (_id : nat) (w : world) :
  w.(clients) !! _id = Some new ->
  let w1 := (except old (Some _id) ConnectionResetError w).2 in
  w1.(clients) = delete _id w.(clients)
  /\ w1.(closed) = old :: w.(closed)
  /\ (forall fuel client sender chat_id message,
        (dispatch fuel client sender
           (send_message_cmd chat_id _id message) w1).2.(sent) = w1.(sent))
  /\ (forall fuel peer_id,
        exists e w2,
          dispatch fuel new _id (create_chat_cmd peer_id) w1 = (Raise e, w2))
  /\ (forall fuel,
        dispatch fuel new _id change_username_cmd w1
        = (Raise KeyError, sending [(new, Echo change_username_cmd)] w1)).
Proof.
  intros Hnew w1.
  assert (Hw1 : w1 = World w.(database) (delete _id w.(clients)) w.(incoming)
                       w.(sent) (old :: w.(closed)) w.(logged) w.(now)).
  { unfold w1, except. cbn [is_disconnect]. run.
    rewrite (bool_decide_eq_true_2 (is_Some (w.(clients) !! _id))) by eauto.
    now rewrite Hnew. }
  assert (Hgone : w1.(clients) !! _id = None).
  { rewrite Hw1. cbn. apply lookup_delete_eq. }
  clearbody w1.
  split; [now rewrite Hw1|split; [now rewrite Hw1|split; [|split]]].
  - intros fuel client sender chat_id message.
    unfold dispatch, Server.send_message. run.
    destruct (add_message _ _ _ _ _ _) as [[id db']| |]; [|reflexivity..].
    cbn [database clients incoming sent closed logged now].
    rewrite Hgone.
    rewrite (bool_decide_eq_false_2 (is_Some None))
      by (intros [? ?]; discriminate).
    reflexivity.
  - intros fuel peer_id. unfold dispatch, Server.create_chat. run.
    destruct (Database.create_chat _ _ _) as [[id db']|e|] eqn:E.
    + cbn [database clients incoming sent closed logged now].
      rewrite Hgone. eauto.
    + eauto.
    + unfold Database.create_chat in E. destruct (existsb _ _); discriminate.
  - intros fuel. unfold dispatch. run. now rewrite Hgone.
Qed.

(** X17.  [get_username] goes on reading candidates until one is valid and
    belongs to no row: each candidate before it is answered with the
    reason it was rejected, in order, the accepted one with
    ['username accepted'], and the frames behind it are left to be read. *)
Theorem get_username_first_free (fuel : nat) (client : socket)
    (rejected : list string) (u : string) (frames : list client_frame) :
  forall w : world,
  w.(incoming) !! client = Some ((Text <$> rejected) ++ Text u :: frames) ->
  Forall (fun r => isalnum (strip_allowed r)
                   && validate_username w.(database) r = false) rejected ->
  isalnum (strip_allowed u) = true ->
  validate_username w.(database) u = true ->
  length rejected < fuel ->
  let reply r :=
    (client, Str (if isalnum (strip_allowed r)
                  then "This username is already taken"
                  else "invalid username")) in
  exists w',
    get_username fuel client w = (Ok u, w')
    /\ w'.(sent) = w.(sent) ++ (reply <$> rejected)
                         ++ [(client, Str "username accepted")]
    /\ w'.(incoming) !! client = Some frames
    /\ w'.(database) = w.(database)
    /\ w'.(clients) = w.(clients).
Proof.
  revert fuel. induction rejected as [|r rejected IH];
    intros fuel w Hin Hrej Hvalid Hfree Hfuel reply;
    (destruct fuel as [|fuel]; [cbn in Hfuel; lia|]).
  - cbn [get_username]. run. cbn [fmap list_fmap app] in Hin. rewrite Hin.
    cbn [database clients incoming sent closed logged now].
    rewrite Hvalid. cbn [negb]. run. rewrite Hfree.
    eexists. split; [reflexivity|]. cbn.
    split; [reflexivity|split; [apply lookup_insert_eq|auto]].
  - apply Forall_cons in Hrej as [Hr Hrej].
    cbn [fmap list_fmap app] in Hin.
    set (w1 := World w.(database) w.(clients)
                 (<[client := (Text <$> rejected) ++ Text u :: frames]>
                    w.(incoming))
                 (w.(sent) ++ [reply r]) w.(closed) w.(logged) w.(now)).
    destruct (IH fuel w1) as (w' & Erun & Hsent & Hinc & Hdb & Hcl).
    { apply lookup_insert_eq. }
    { exact Hrej. }
    { exact Hvalid. }
    { exact Hfree. }
    { cbn in Hfuel. lia. }
    exists w'. split; [|split; [|split; [exact Hinc|split; [exact Hdb|exact Hcl]]]].
    + cbn [get_username]. run. rewrite Hin.
      cbn [database clients incoming sent closed logged now].
      unfold reply in w1.
      destruct (isalnum (strip_allowed r)) eqn:Hal; cbn [negb].
      * run. cbn in Hr. rewrite Hr. exact Erun.
      * run. exact Erun.
    + rewrite Hsent. cbn. now rewrite <- app_assoc.
Qed.

(** X18.  The branch of a client not seen before: told ['unregistered'],
    it offers a name; given a valid name no row holds, and no row with its
    ip and mac, it gets a row of its own under an id no user had, with
    that name and the key it sent, and the handler goes on as that user,
    marked as not registered before. *)
Theorem register_adds_user (fuel : nat) (client : socket)
    (ip mac key u : string) (frames : list client_frame) (w : world) :
  w.(incoming) !! client = Some (Text u :: frames) ->
  isalnum (strip_allowed u) = true ->
  validate_username w.(database) u = true ->
  get_user w.(database) ip mac = None ->
  let row := User (next_id (user_id <$> w.(database).(users))) ip mac u key in
  exists w',
    register (S fuel) client ip mac key w = (Ok (Login row u false false), w')
    /\ w'.(sent) = w.(sent) ++ [(client, Str "unregistered");
                                (client, Str "username accepted")]
    /\ w'.(database).(users) = w.(database).(users) ++ [row]
    /\ get_user w'.(database) ip mac = Some row
    /\ (row.(user_id) ∉ user_id <$> w.(database).(users))
    /\ w'.(clients) = w.(clients)
    /\ w'.(incoming) !! client = Some frames.
Proof.
  intros Hin Hvalid Hfree Hnew row.
  pose proof (add_user_fresh _ _ _ _ key Hfree Hnew) as Hadd.
  cbn zeta in Hadd. fold row in Hadd.
  unfold register. cbn [get_username]. run. rewrite Hin.
  cbn [database clients incoming sent closed logged now].
  rewrite Hvalid. cbn [negb]. run. rewrite Hfree. run. rewrite Hadd.
  eexists. split; [reflexivity|]. cbn.
  split; [now rewrite <- app_assoc|split; [reflexivity|split; [|split]]].
  - unfold get_user. cbn [users]. unfold get_user in Hnew.
    rewrite fetchone_none in Hnew. apply fetchone_fresh; [|exact Hnew].
    cbn. now rewrite !bool_decide_eq_true_2.
  - intros Hid. apply next_id_above in Hid. cbn in Hid. lia.
  - split; [reflexivity|apply lookup_insert_eq].
Qed.

End Sessions.

(** ** The command loop *)

Section Loop.
Import Database Server.
Context `{CharTable} `{Database.Sqlite}.

Lemma spliced_returns {A} (r : exn + A) : spliced r <> OutOfFuel.
Proof. now destruct r. Qed.

Lemma quiet_ret {A} (a : A) : reads_nothing (mret a).
Proof. intros w. split; [discriminate|reflexivity]. Qed.

Lemma quiet_raise {A} e : reads_nothing (raise (A := A) e).
Proof. intros w. split; [discriminate|reflexivity]. Qed.

Lemma quiet_query {A} (f : Database.t -> A) : reads_nothing (query f).
Proof. intros w. split; [discriminate|reflexivity]. Qed.

Lemma quiet_execute {A} (f : Database.t -> res (A * Database.t)) :
  (forall db, f db <> OutOfFuel) -> reads_nothing (execute f).
Proof.
  intros Hf w. unfold execute. specialize (Hf w.(database)).
  destruct (f _) as [[a db]| |]; cbn; split; congruence.
Qed.

Lemma quiet_send data connection : reads_nothing (send data connection).
Proof. intros w. split; [discriminate|reflexivity]. Qed.

Lemma quiet_contains key : reads_nothing (clients_contains key).
Proof. intros w. split; [discriminate|reflexivity]. Qed.

Lemma quiet_getitem key : reads_nothing (clients_getitem key).
Proof.
  intros w. unfold clients_getitem.
  destruct (_ !! _); split; (discriminate || reflexivity).
Qed.

Lemma quiet_setitem key value : reads_nothing (clients_setitem key value).
Proof. intros w. split; [discriminate|reflexivity]. Qed.

Lemma quiet_delitem key : reads_nothing (clients_delitem key).
Proof.
  intros w. unfold clients_delitem.
  destruct (_ !! _); split; (discriminate || reflexivity).
Qed.

Lemma quiet_bind {A B} (m : M A) (k : A -> M B) :
  reads_nothing m -> (forall a, reads_nothing (k a)) -> reads_nothing (m ≫= k).
Proof.
  intros Hm Hk w. unfold mbind, M_bind. destruct (Hm w) as [Hr Hi].
  destruct (m w) as [[a| |] w1]; cbn in *.
  - destruct (Hk a w1) as [Hr' Hi']. split; [exact Hr'|congruence].
  - split; [discriminate|exact Hi].
  - easy.
Qed.

Lemma quiet_mapM {A B} (f : A -> M B) l :
  (forall a, reads_nothing (f a)) -> reads_nothing (mapM f l).
Proof.
  intros Hf. induction l as [|a l IH]; cbn [mapM]; [apply quiet_ret|].
  apply quiet_bind; [apply Hf|]. intros b.
  apply quiet_bind; [exact IH|]. intros bs. apply quiet_ret.
Qed.

Lemma quiet_if {A} (b : bool) (m1 m2 : M A) :
  reads_nothing m1 -> reads_nothing m2 -> reads_nothing (if b then m1 else m2).
Proof. now destruct b. Qed.

Lemma get_username_pending fuel client : forall w,
  length (pending client (get_username fuel client w).2)
  <= length (pending client w).
Proof.
  induction fuel as [|fuel IH]; intros w; [reflexivity|].
  cbn [get_username]. run. unfold pending at 2.
  destruct (w.(incoming) !! client) as [[|[u|c] frames]|] eqn:Hin;
    cbn [default]; try (cbn; unfold pending; rewrite Hin; cbn; lia).
  - cbn [database clients incoming sent closed logged now].
    assert (Hnext : forall w',
              w'.(incoming) = <[client := frames]> w.(incoming) ->
              length (pending client (get_username fuel client w').2)
              <= length (Text u :: frames)).
    { intros w' Hw'. etrans; [apply IH|]. unfold pending.
      rewrite Hw', lookup_insert_eq. cbn. lia. }
    destruct (isalnum (strip_allowed u)); cbn [negb]; run.
    + destruct (validate_username (database w) u); run.
      * cbn. unfold pending. cbn. rewrite lookup_insert_eq. cbn. lia.
      * now apply Hnext.
    + now apply Hnext.
  - cbn. unfold pending. cbn. rewrite lookup_insert_eq. cbn. lia.
Qed.

Lemma quiet_pending {A} (m : M A) client w :
  reads_nothing m ->
  (m w).1 <> OutOfFuel
  /\ length (pending client (m w).2) <= length (pending client w).
Proof.
  intros Hm. destruct (Hm w) as [Hr Hi]. split; [exact Hr|].
  unfold pending. now rewrite Hi.
Qed.

(** A command reads frames in [get_username] only, and with more fuel
    than frames pending it is not cut short. *)
Lemma dispatch_pending fuel client _id data w :
  length (pending client w) < fuel ->
  (dispatch fuel client _id data w).1 <> OutOfFuel
  /\ length (pending client (dispatch fuel client _id data w).2)
     <= length (pending client w).
Proof.
  intros Hfuel.
  destruct data as [peer_id| |username|chat_id peer_id message|chat_id|name];
    cbn [dispatch].
  - apply quiet_pending. unfold Server.create_chat.
    apply quiet_bind.
    { apply quiet_execute. intros db. unfold Database.create_chat.
      destruct (existsb _ _); discriminate. }
    intros chat_id.
    repeat first
      [ apply quiet_bind; [|intros ?]
      | apply quiet_mapM; intros ?
      | apply quiet_if
      | apply quiet_ret | apply quiet_raise | apply quiet_query
      | apply quiet_send | apply quiet_contains | apply quiet_getitem
      | match goal with
        | |- reads_nothing (match ?x with _ => _ end) => destruct x
        end ].
  - run. destruct (w.(clients) !! _id) as [own|];
      [|split; [discriminate|reflexivity]].
    cbn [database clients incoming sent closed logged now].
    set (w1 := World _ _ _ _ _ _ _).
    assert (Hw1 : pending client w1 = pending client w) by reflexivity.
    pose proof (get_username_fuel fuel client w1) as Hnot.
    pose proof (get_username_pending fuel client w1) as Hlen.
    rewrite Hw1 in Hlen.
    destruct (get_username fuel client w1) as [[u| |] w2]; cbn in *.
    + assert (Hcu : change_username (database w2) _id u <> OutOfFuel).
      { unfold change_username. destruct (_ && _); discriminate. }
      destruct (change_username (database w2) _id u); cbn;
        [| |now destruct Hcu]; (split; [discriminate|exact Hlen]).
    + split; [discriminate|exact Hlen].
    + destruct Hnot; [exact Hfuel|reflexivity].
  - apply quiet_pending.
    apply quiet_bind; [apply quiet_query|]. intros users. apply quiet_send.
  - apply quiet_pending. unfold Server.send_message.
    apply quiet_bind; [intros w0; split; [discriminate|reflexivity]|].
    intros dt. apply quiet_bind.
    { apply quiet_execute. intros db. unfold add_message.
      destruct (_ !! _); [|apply spliced_returns].
      destruct (_ || _); discriminate. }
    intros msg_id. apply quiet_bind; [apply quiet_contains|].
    intros present. apply quiet_if; [|apply quiet_ret].
    apply quiet_bind.
    { intros w0. cbn. split; [|reflexivity]. unfold get_message.
      destruct (_ !! _); [discriminate|apply spliced_returns]. }
    intros row. apply quiet_bind; [apply quiet_getitem|].
    intros peer. apply quiet_send.
  - apply quiet_pending. apply quiet_execute. intros db.
    unfold read_messages. destruct (_ !! _); [discriminate|].
    destruct (update_unread db chat_id); discriminate.
  - apply quiet_pending. apply quiet_ret.
Qed.

(** X19.  The command loop has no way out but an exception: given more
    fuel than the client has frames left to send, it ends, and it ends by
    raising. *)
Theorem command_loop_ends (fuel : nat) (client : socket) (_id : nat) :
  forall w : world,
  length (pending client w) < fuel ->
  exists e w', command_loop fuel client _id w = (Raise e, w').
Proof.
  induction fuel as [|fuel IH]; intros w Hfuel; [lia|].
  cbn [command_loop]. run. unfold pending in Hfuel.
  destruct (w.(incoming) !! client) as [[|[u|c] frames]|] eqn:Hin;
    cbn [default] in Hfuel; eauto.
  cbn [database clients incoming sent closed logged now].
  set (w1 := World _ _ _ _ _ _ _).
  assert (Hw1 : length (pending client w1) < fuel).
  { unfold pending, w1. cbn. rewrite lookup_insert_eq. cbn in *. lia. }
  destruct (dispatch_pending fuel client _id c w1 Hw1) as [Hnot Hlen].
  destruct (dispatch fuel client _id c w1) as [[[]| |] w2]; cbn in *.
  - apply IH. lia.
  - eauto.
  - now destruct Hnot.
Qed.

End Loop.

Section ServerExamples.
Import Database Server Scenario.

Lemma no_chats_wf (users : list user_row) tables : chats_wf (Db users [] tables).
Proof. split; constructor. Qed.

(** The greeting alone, the greeting with the first frame behind it in one
    segment, and the greeting cut in two. *)
Example listen_greetings :
  let greeting := list_byte_of_string "PeerChat_v1.1.1" in
  let header := Communicator.length_header_of [x61] in
  listen Communicator.raw_dumps [x43] (Connection [greeting; header] [] false)
  = (true, Connection [header]
             (Communicator.frame_of Communicator.raw_dumps [x43]) false)
  /\ listen Communicator.raw_dumps [x43]
       (Connection [greeting ++ header] [] false)
     = (false, Connection [drop 49 header] [] true)
  /\ listen Communicator.raw_dumps [x43]
       (Connection [take 8 greeting; drop 8 greeting] [] false)
     = (false, Connection [drop 8 greeting] [] true).
Proof. repeat split. Qed.

Lemma create_chat_notifies_witness :
  (dispatch 1 10 1 (create_chat_cmd 2) lobby).2.(sent)
  = [(10, CreateChat "chat_1_2" true 2 "bob" "KB");
     (20, CreateChat "chat_1_2" false 1 "alice" "KA")].
Proof.
  destruct (create_chat_notifies 1 10 1 2 lobby alice bob 10)
    as (w' & E & Hsent & _).
  - apply no_chats_wf.
  - intros c Hc. now apply elem_of_nil in Hc.
  - reflexivity.
  - reflexivity.
  - reflexivity.
  - rewrite E. exact Hsent.
Defined.


Lemma change_username_command_witness :
  let result := dispatch 1 10 1 change_username_cmd (online [Text "carol"]) in
  result.1 = Ok ()
  /\ get_user_id result.2.(database) 1
     = Some (User 1 "10.0.0.1" "aa:aa" "carol" "KA")
  /\ result.2.(clients) !! 1 = Some 10.
Proof.
  destruct (change_username_command 0 10 1 (online [Text "carol"]) "carol" [])
    as [Hok _]; [reflexivity..|].
  destruct Hok as (Hres & _ & _ & Hrow & Hclients & _).
  - exists 10. reflexivity.
  - cbn zeta. split; [exact Hres|split].
    + apply (Hrow alice). reflexivity.
    + rewrite Hclients. reflexivity.
Defined.

Lemma send_message_refused_witness :
  dispatch 1 20 2 (send_message_cmd "chat_1_1" 1 "c9") (chatting [])
  = (Raise IntegrityError, chatting []).
Proof.
  apply (send_message_refused 1 20 2 "chat_1_1" 1 "c9" (chatting [])).
  - exact history_tables_wf.
  - vm_compute. eauto.
  - intros c Hc. cbn in Hc. rewrite !elem_of_cons, elem_of_nil in Hc.
    destruct Hc as [->|[->|[->|[]]]]; cbn; intros; (discriminate || lia).
Defined.

Lemma stale_session_teardown_witness :
  let w1 := (except 10 (Some 1) ConnectionResetError (chatting [])).2 in
  w1.(clients) !! 1 = None
  /\ w1.(closed) = [10]
  /\ (dispatch 1 20 2 (send_message_cmd "chat_1_2" 1 "c3") w1).2.(sent) = [].
Proof.
  destruct (stale_session_teardown 10 11 1 (chatting []) eq_refl)
    as (Hclients & Hclosed & Hsend & _).
  cbn zeta. split; [|split].
  - rewrite Hclients. reflexivity.
  - exact Hclosed.
  - rewrite Hsend. reflexivity.
Defined.

Lemma get_username_first_free_witness :
  exists w',
    get_username 3 10 (online [Text "_@ "; Text "alice"; Text "carol";
                               Text "dave"])
    = (Ok "carol", w')
    /\ w'.(sent) = [(10, Str "invalid username");
                    (10, Str "This username is already taken");
                    (10, Str "username accepted")]
    /\ w'.(incoming) !! 10 = Some [Text "dave"].
Proof.
  destruct (get_username_first_free 3 10 ["_@ "; "alice"] "carol" [Text "dave"]
              (online [Text "_@ "; Text "alice"; Text "carol"; Text "dave"]))
    as (w' & E & Hsent & Hinc & _).
  - reflexivity.
  - repeat constructor.
  - reflexivity.
  - reflexivity.
  - cbn. lia.
  - exists w'. split; [exact E|split; [exact Hsent|exact Hinc]].
Defined.

Lemma register_adds_user_witness :
  exists w',
    register 1 10 "10.0.0.3" "cc:cc" "KC" (connecting [Text "carol"])
    = (Ok (Login (User 3 "10.0.0.3" "cc:cc" "carol" "KC") "carol" false false),
       w')
    /\ w'.(sent) = [(10, Str "unregistered"); (10, Str "username accepted")].
Proof.
  destruct (register_adds_user 0 10 "10.0.0.3" "cc:cc" "KC" "carol" []
              (connecting [Text "carol"]))
    as (w' & E & Hsent & _); [reflexivity..|].
  exists w'. split; [exact E|exact Hsent].
Defined.

Lemma command_loop_ends_witness :
  exists e w',
    command_loop 3 10 1
      (online [Command (search_peer_cmd "bo");
               Command (read_messages_cmd "chat_1_2")])
    = (Raise e, w').
Proof.
  apply (command_loop_ends 3 10 1).
  vm_compute. lia.
Defined.

End ServerExamples.

(** ** The client *)

Section MacAddress.
Import Client.
Local Open Scope Z_scope.

Lemma octet_low (mac elements : Z) :
  0 <= elements <= 10 ->
  Z.land (Z.shiftr mac elements) 255
  = Z.land (Z.shiftr (mac mod 2 ^ 18) elements) 255.
Proof.
  intros He. rewrite <- (Z.land_ones mac 18) by lia.
  apply Z.bits_inj'. intros n Hn.
  rewrite !Z.land_spec, !Z.shiftr_spec, Z.land_spec by lia.
  change 255 with (Z.ones 8).
  destruct (Z.lt_ge_cases n 8) as [Hlt|Hge].
  - rewrite (Z.ones_spec_low 18 (n + elements)) by lia.
    now rewrite andb_true_r.
  - rewrite (Z.ones_spec_high 8 n) by lia. now rewrite !andb_false_r.
Qed.

(** X20.  The address a client reports has six groups of two hexadecimal
    digits and is made of the low 18 bits of the node id alone, the shifts
    going up by two bits: two node ids that agree on those bits report the
    same address. *)
Theorem get_mac_address_low_bits (mac mac' : Z) :
  String.length (get_mac_address mac) = 17%nat
  /\ (mac mod 2 ^ 18 = mac' mod 2 ^ 18 ->
      get_mac_address mac = get_mac_address mac').
Proof.
  split; [reflexivity|]. intros Hlow.
  assert (Hmod : forall m, get_mac_address m = get_mac_address (m mod 2 ^ 18)).
  { intros m. unfold get_mac_address. cbn [fmap list_fmap].
    now rewrite (octet_low m 0), (octet_low m 2), (octet_low m 4),
                (octet_low m 6), (octet_low m 8), (octet_low m 10) by lia. }
  now rewrite (Hmod mac), (Hmod mac'), Hlow.
Qed.

End MacAddress.

Section MacAddressExamples.
Import Client.

(** Two adapters of different makers. *)
Lemma get_mac_address_low_bits_witness :
  get_mac_address 0x001A2B3C4D5E = get_mac_address 0xF8E4E3004D5E
  /\ get_mac_address 0x001A2B3C4D5E = "13:4d:35:d5:57:5e"%string.
Proof.
  split; [|reflexivity].
  apply (get_mac_address_low_bits 0x001A2B3C4D5E 0xF8E4E3004D5E).
  reflexivity.
Defined.

End MacAddressExamples.

Section SendingMessages.
Import Database Client.
Variable pq_ntru_encrypt : string -> string -> outcome.


End SendingMessages.

Section OwnHistory.
Import Database Client.
Variable pq_ntru_decrypt : string -> string -> outcome.

(** X22.  When the history of a chat is loaded, only the peer's messages
    are decrypted.  A message of the user's own is shown from the cache of
    the chat; with no entry there, as on a device that did not send it,
    it is shown as 'Unable to decrypt message' whatever the key. *)
Theorem own_history_needs_cache (key_dir : string) (cs : chat_screen)
    (peer_id : nat) (messages : list message_row) (i : nat)
    (m : message_row) :
  messages !! i = Some m ->
  m.(sender_id) <> peer_id ->
  (forall m', m' ∈ messages -> m'.(sender_id) = peer_id ->
     m'.(message) <> m.(message)) ->
  cs.(saved_chat) = default ∅ cs.(saved_chat_file) ->
  let shown :=
    (add_existing_chat pq_ntru_decrypt key_dir cs peer_id messages).(labels)
      !! (length cs.(labels) + i) in
  shown = Some (add_message cs.(saved_chat) m)
  /\ (cs.(saved_chat) !! m.(message) = None ->
      shown = Some (Label "Unable to decrypt message" true 230)).
Proof.
  intros Hi Hown Hother Hcache shown.
  assert (Hshown : shown = Some (add_message cs.(saved_chat) m)).
  { unfold shown. rewrite add_existing_chat_labels. cbv zeta.
    rewrite lookup_app_r by lia.
    replace (length (labels cs) + i - length (labels cs)) with i by lia.
    rewrite list_lookup_fmap, Hi. cbn [fmap option_fmap option_map].
    f_equal. unfold add_message.
    set (saved := match saved_chat_file cs with Some d => d | None => ∅ end).
    assert (Hsaved : cs.(saved_chat) = saved).
    { rewrite Hcache. unfold saved. now destruct (saved_chat_file cs). }
    destruct (filter _ messages) as [|t todo] eqn:Htodo; [reflexivity|].
    rewrite dict_update_starmap, bool_decide_eq_false_2, Hsaved; [reflexivity|].
    intros Hin. apply list_elem_of_fmap in Hin as (m' & Hm' & Hin).
    rewrite <- Htodo in Hin. apply list_elem_of_filter in Hin as [[_ Hs] Hin].
    now apply (Hother m' Hin Hs). }
  split; [exact Hshown|]. intros Hnone. rewrite Hshown.
  unfold add_message. now rewrite Hnone.
Qed.

(** X23.  Ciphertexts that are in the cache file of a chat are not
    decrypted again: when every message of the peer in a history is cached,
    loading it leaves the cache and its file as they are and shows each
    message as the cache has it, whatever the decryption would give. *)
Theorem cached_history_not_decrypted (key_dir : string) (cs : chat_screen)
    (peer_id : nat) (messages : list message_row) :
  (forall m, m ∈ messages -> m.(sender_id) = peer_id ->
     is_Some (default ∅ cs.(saved_chat_file) !! m.(message))) ->
  add_existing_chat pq_ntru_decrypt key_dir cs peer_id messages
  = ChatScreen cs.(saved_chat) cs.(saved_chat_file)
      (cs.(labels) ++ (add_message cs.(saved_chat) <$> messages)).
Proof.
  intros Hcached. unfold add_existing_chat.
  replace (filter _ messages) with (@nil message_row); [reflexivity|].
  symmetry.
  induction messages as [|m messages IH]; [reflexivity|].
  rewrite filter_cons.
  destruct (decide _) as [[Hnone Hpeer]|_].
  - destruct (Hcached m) as [p Hp]; [left|exact Hpeer|].
    destruct (saved_chat_file cs); cbn in Hp; congruence.
  - apply IH. intros m' Hm'. apply Hcached. now right.
Qed.

End OwnHistory.

Section Unread.
Import Database Server Client.
Context `{CharTable} `{Database.Sqlite}.

Lemma insert_desc_elem x m l : x ∈ insert_desc m l -> x = m \/ x ∈ l.
Proof.
  induction l as [|y l IH]; cbn.
  - intros Hx. apply list_elem_of_singleton in Hx. auto.
  - destruct (_ <=? _).
    + intros Hx. apply elem_of_cons in Hx. tauto.
    + intros Hx. apply elem_of_cons in Hx as [->|Hx]; [right; left|].
      destruct (IH Hx); [auto|right; now right].
Qed.

Lemma last_messages_elem x rows : x ∈ last_messages rows -> x ∈ rows.
Proof.
  unfold last_messages. rewrite elem_of_reverse. intros Hx.
  apply subseteq_take in Hx. revert Hx.
  induction rows as [|m rows IH]; cbn [foldr]; [easy|].
  intros Hx. apply insert_desc_elem in Hx as [->|Hx]; [left|right; auto].
Qed.

Lemma mapM_res_elem {A B} (f : A -> res B) l : forall ds d,
  mapM f l = Ok ds -> d ∈ ds -> exists c, c ∈ l /\ f c = Ok d.
Proof.
  induction l as [|c l IH]; intros ds d; cbn [mapM].
  - intros [= <-] Hd. now apply elem_of_nil in Hd.
  - destruct (f c) as [b| |] eqn:Hc; cbn; [|discriminate..].
    destruct (mapM f l) as [bs| |]; cbn; [|discriminate..].
    intros [= <-] Hd. apply elem_of_cons in Hd as [->|Hd].
    + exists c. split; [left|exact Hc].
    + destruct (IH bs d eq_refl Hd) as (c' & Hc' & Hf). exists c'.
      split; [now right|exact Hf].
Qed.

(** X24.  [read_messages] clears the unread mark of every row of the chat,
    the reader's own messages included.  Once one side has opened a chat,
    the history either side is sent on its next connection carries no
    unread message, and the client that loads it marks nothing and sends
    [read_messages] itself. *)
Theorem read_messages_silences (fuel : nat) (client : socket) (_id : nat)
    (chat_id : string) (w : world) :
  is_Some (w.(database).(tables) !! chat_id) ->
  let result := dispatch fuel client _id (read_messages_cmd chat_id) w in
  result.1 = Ok ()
  /\ forall uid ds d current,
       get_user_chats result.2.(database) uid = Ok ds ->
       d ∈ ds -> d.(cd_chat_id) = chat_id ->
       Forall (fun m => m.(unread) = false) d.(cd_messages)
       /\ after_loading current chat_id d.(cd_peer_id) d.(cd_messages)
          = SendReadMessages.
Proof.
  intros [tbl Ht] result.
  assert (Hres : result
                 = (Ok (), set_database
                             (Db w.(database).(users) w.(database).(chats)
                                (<[chat_id := ChatTable tbl.(check_1)
                                      tbl.(check_2) (mark_read <$> tbl.(rows))]>
                                   w.(database).(tables))) w)).
  { unfold result, dispatch, read_messages. run. now rewrite Ht. }
  rewrite Hres. cbn [fst snd set_database database].
  split; [reflexivity|]. intros uid ds d current Hds Hd Hid.
  unfold get_user_chats in Hds.
  destruct (mapM_res_elem _ _ _ _ Hds Hd) as (c & _ & Hc).
  unfold chat_entry in Hc. cbn [tables] in Hc.
  destruct (_ !! c.(Database.chat_id)) as [tbl'|] eqn:Ht'; [|discriminate].
  destruct (get_user_id _ _) as [peer|]; [|discriminate].
  injection Hc as <-. cbn in Hid. cbn [cd_messages cd_peer_id].
  rewrite Hid, lookup_insert_eq in Ht'. injection Ht' as <-. cbn [rows].
  assert (Hall : Forall (fun m => m.(unread) = false)
                   (last_messages (mark_read <$> tbl.(rows)))).
  { apply Forall_forall. intros m Hm. apply last_messages_elem in Hm.
    apply list_elem_of_fmap in Hm as (m0 & -> & _). apply mark_read_unread. }
  split; [exact Hall|]. unfold after_loading.
  replace (existsb _ _) with false; [reflexivity|].
  symmetry. apply existsb_none. intros m Hm.
  rewrite Forall_forall in Hall. now rewrite (Hall m Hm).
Qed.

End Unread.

Section Labels.
Import Client.

(** X25.  A label is as wide as its text is long, in steps: 80 for fewer
    than 5 characters and 30 more for every 5 characters, up to 350 for
    45 to 49; from 50 characters on it is 400.  Every length falls in one
    row of [SIZES] or beyond the table. *)
Theorem add_text_width (text : string) :
  let n := String.length text in
  add_text (Some text)
  = Label text false (if n <? 50 then 80 + 30 * (n / 5) else 400).
Proof.
  cbv zeta. unfold add_text. f_equal.
  generalize (String.length text). intros n.
  destruct (Nat.ltb_spec n 50) as [Hlt|Hge].
  - do 50 (destruct n as [|n]; [reflexivity|]). lia.
  - replace n with (50 + (n - 50)) by lia. reflexivity.
Qed.

End Labels.

Section ClientExamples.
Import Database Server Client Scenario.

Example chat_send_examples :
  let encrypt (key_dir message : string) :=
    if bool_decide (message = "boom") then Throws ValueError
    else Returns ("enc " +:+ message) in
  _send encrypt "chat_1_2" 2 "keys/2" false "  hello " (ChatScreen ∅ None [])
  = (Ok (Some (send_message_cmd "chat_1_2" 2 "enc hello")),
     ChatScreen (<["enc hello" := Some "hello"]> ∅)
       (Some (<["enc hello" := Some "hello"]> ∅)) [Label "hello" false 110])
  /\ _send encrypt "chat_1_2" 2 "keys/2" false "boom" (ChatScreen ∅ None [])
     = (Raise (OtherError "Exception"),
        ChatScreen ∅ None [Label "boom" false 80])
  /\ _send encrypt "chat_1_2" 2 "keys/2" false "   " (ChatScreen ∅ None [])
     = (Ok None, ChatScreen ∅ None [])
  /\ _send encrypt "chat_1_2" 2 "keys/2" true "hello" (ChatScreen ∅ None [])
     = (Ok None, ChatScreen ∅ None []).
Proof. repeat split. Qed.


Lemma own_history_needs_cache_witness :
  (add_existing_chat toy_decrypt "keys/me" (ChatScreen ∅ None []) 2
     [Message 1 1 "c1" "01-09-2024 11:00" false;
      Message 2 2 "c2" "01-09-2024 11:01" true]).(labels) !! 0
  = Some (Label "Unable to decrypt message" true 230).
Proof.
  pose proof (own_history_needs_cache toy_decrypt "keys/me"
                (ChatScreen ∅ None []) 2
                [Message 1 1 "c1" "01-09-2024 11:00" false;
                 Message 2 2 "c2" "01-09-2024 11:01" true]
                0 (Message 1 1 "c1" "01-09-2024 11:00" false)) as Hown.
  destruct Hown as [_ Hshown].
  - reflexivity.
  - cbn. lia.
  - intros m' Hm' Hs. rewrite !elem_of_cons, elem_of_nil in Hm'.
    destruct Hm' as [->|[->|[]]]; cbn in *; [lia|discriminate].
  - reflexivity.
  - exact (Hshown eq_refl).
Defined.

Lemma cached_history_not_decrypted_witness :
  let cache : gmap string (option string) :=
    <["garbled" := Some "kept"]> ∅ in
  (add_existing_chat toy_decrypt "keys/me"
     (ChatScreen cache (Some cache) []) 2
     [Message 7 2 "garbled" "01-09-2024 11:00" true]).(labels)
  = [Label "kept" false 80].
Proof.
  cbn zeta.
  rewrite (cached_history_not_decrypted toy_decrypt "keys/me"
             (ChatScreen (<["garbled" := Some "kept"]> ∅)
                (Some (<["garbled" := Some "kept"]> ∅)) []) 2
             [Message 7 2 "garbled" "01-09-2024 11:00" true]).
  - reflexivity.
  - intros m Hm _. apply list_elem_of_singleton in Hm as ->.
    exists (Some "kept"). reflexivity.
Defined.

Lemma read_messages_silences_witness :
  let result := dispatch 1 10 1 (read_messages_cmd "chat_1_2") (chatting []) in
  result.1 = Ok ()
  /\ exists d ds,
       get_user_chats result.2.(database) 2 = Ok (d :: ds)
       /\ d.(cd_chat_id) = "chat_1_2"%string
       /\ d.(cd_messages) = [Message 1 1 "c1" "01-09-2024 11:00" false;
                             Message 2 2 "c2" "01-09-2024 11:01" false]
       /\ after_loading "Display" "chat_1_2" d.(cd_peer_id) d.(cd_messages)
          = SendReadMessages.
Proof.
  destruct (read_messages_silences 1 10 1 "chat_1_2" (chatting []))
    as [Hok Hall].
  - eexists. vm_compute. reflexivity.
  - cbn zeta. split; [exact Hok|].
    destruct (get_user_chats _ 2) as [[|d ds]| |] eqn:E;
      vm_compute in E; try discriminate E.
    exists d, ds. split; [reflexivity|].
    destruct (Hall 2 (d :: ds) d "Display"%string) as [_ Hafter].
    + vm_compute. exact E.
    + left.
    + now injection E as <- _.
    + split; [now injection E as <- _|]. split; [now injection E as <- _|].
      exact Hafter.
Defined.

End ClientExamples.

(** ** A header cut by the transport *)

Section SplitHeader.
Import Communicator.
Context {V : Type} (dumps : V -> list byte) (loads : list byte -> option V).

(** X26.  The header is read with one [recv].  When the transport hands
    over the digits of the header but not all of its padding, the length is
    still parsed, and the padding left over is taken for the start of the
    payload: what is unpickled is that padding followed by the payload cut
    short by as many bytes, and the bytes cut off stay on the connection in
    front of the next frame. *)
Theorem receive_split_header_misreads (v : V) (k : nat) (rest : stream) :
  let payload := dumps v in
  let header := length_header_of payload in
  let padding := replicate (HEADER - k) x20 in
  length (py_str (length payload)) <= k -> k < HEADER ->
  exists c',
    concat c' = drop (length payload) (padding ++ payload) ++ concat rest
    /\ receive loads (take k header :: drop k header :: payload :: rest)
       = match loads (take (length payload) (padding ++ payload)) with
         | Some v' => Ok (v', c')
         | None => Raise UnpicklingError
         end.
Proof.
  intros payload header padding Hdigits Hk.
  set (digits := py_str (length payload)) in *.
  assert (Hhead : take k header = digits ++ replicate (k - length digits) x20).
  { unfold header, length_header_of. fold digits.
    rewrite take_app_ge, take_replicate by exact Hdigits.
    do 2 f_equal. lia. }
  assert (Htail : drop k header = padding).
  { unfold header, length_header_of, padding. fold digits.
    rewrite drop_app_ge, drop_replicate by exact Hdigits.
    f_equal. lia. }
  assert (Hne : digits <> []) by apply py_str_nonempty.
  assert (Hparse : py_int (strip (take k header)) = Some (length payload)).
  { rewrite Hhead, strip_padded by apply digits_not_space.
    apply py_int_py_str. }
  destruct (recv_loop_spec (length payload) (length payload) []
              (take (length payload) (padding ++ payload))
              (drop (length payload) (padding ++ payload) ++ concat rest)
              (padding :: payload :: rest)) as (c' & Hloop & Hc').
  { cbn [concat]. now rewrite !app_assoc, take_drop. }
  { cbn [length]. rewrite length_take_le; [lia|]. rewrite length_app. lia. }
  { rewrite length_take. lia. }
  exists c'. split; [exact Hc'|].
  unfold receive, _recv.
  assert (Hrecv : sock_recv HEADER (take k header :: drop k header
                                      :: payload :: rest)
                  = (take k header, drop k header :: payload :: rest)).
  { rewrite Hhead. destruct digits as [|d digits']; [easy|].
    cbn [app sock_recv].
    rewrite take_ge, drop_ge; [reflexivity| |];
      cbn [length]; rewrite length_app, length_replicate;
      cbn [length] in Hdigits; unfold HEADER in *; lia. }
  rewrite Hrecv.
  destruct (take k header) as [|b bs] eqn:Eh.
  { rewrite Hhead in Eh. destruct digits; [easy|discriminate]. }
  cbn [mbind res_bind]. rewrite Hparse, Htail, Hloop. cbn.
  now destruct (loads _).
Qed.

End SplitHeader.

Section SplitHeaderExamples.
Import Communicator.

Lemma receive_split_header_misreads_witness :
  exists c',
    concat c' = replicate 59 x20 ++ [x68; x69; x21]
    /\ receive raw_loads
         [take 2 (length_header_of [x68; x69; x21]);
          drop 2 (length_header_of [x68; x69; x21]); [x68; x69; x21]]
       = Ok ([x20; x20; x20], c').
Proof.
  destruct (receive_split_header_misreads raw_dumps raw_loads
              [x68; x69; x21] 2 []) as (c' & Hc' & E).
  - cbn. lia.
  - unfold HEADER. lia.
  - exists c'. split; [exact Hc'|exact E].
Defined.

End SplitHeaderExamples.

Section ReceivedMessages.
Import Database Client.
Variable pq_ntru_decrypt : string -> string -> outcome.

(** X27.  A message that arrives while the client runs and decrypts is
    shown as its plaintext and written to the cache of the chat and its
    file, the other entries staying.  When the chat is loaded again from
    that file the message is shown with the same text without being
    decrypted, so also under a key that no longer opens it. *)
Theorem received_message_kept (key_dir : string) (cs : chat_screen)
    (m : message_row) (p : string) :
  pq_ntru_decrypt key_dir m.(message) = Returns p ->
  let cs1 := on_receive_message pq_ntru_decrypt key_dir cs m in
  cs1.(labels) = cs.(labels) ++ [add_text (Some p)]
  /\ cs1.(saved_chat) !! m.(message) = Some (Some p)
  /\ cs1.(saved_chat_file) = Some cs1.(saved_chat)
  /\ (forall k, k <> m.(message) ->
        cs1.(saved_chat) !! k = cs.(saved_chat) !! k)
  /\ (forall decrypt' key_dir' shown peer_id,
        (add_existing_chat decrypt' key_dir'
           (ChatScreen cs1.(saved_chat) cs1.(saved_chat_file) shown)
           peer_id [m]).(labels)
        = shown ++ [add_text (Some p)]).
Proof.
  intros Hp cs1.
  assert (Hcache : cs1.(saved_chat) = <[m.(message) := Some p]> cs.(saved_chat)).
  { unfold cs1, on_receive_message, starmap.
    cbn [saved_chat fmap list_fmap fst snd].
    now rewrite decrypt_message_spec, Hp. }
  assert (Hfile : cs1.(saved_chat_file) = Some cs1.(saved_chat)) by reflexivity.
  assert (Hhit : cs1.(saved_chat) !! m.(message) = Some (Some p)).
  { rewrite Hcache. apply lookup_insert_eq. }
  split; [|split; [exact Hhit|split; [exact Hfile|split]]].
  - unfold cs1, on_receive_message. cbn [labels]. unfold add_message.
    replace (dict_update (saved_chat cs)
               (starmap pq_ntru_decrypt [(message m, key_dir)]) !! message m)
      with (Some (Some p)) by (symmetry; exact Hhit).
    reflexivity.
  - intros k Hk. rewrite Hcache. now apply lookup_insert_ne.
  - intros decrypt' key_dir' shown peer_id.
    rewrite Hfile. revert Hhit. generalize (saved_chat cs1).
    intros cache Hhit. unfold add_existing_chat.
    cbn [saved_chat_file saved_chat labels].
    rewrite filter_cons, decide_False.
    + rewrite filter_nil. cbn [fmap list_fmap labels saved_chat].
      unfold add_message. now rewrite Hhit.
    + intros [Hnone _]. congruence.
Qed.

End ReceivedMessages.

Section ReceivedMessagesExamples.
Import Database Client Scenario.

Lemma received_message_kept_witness :
  let m := Message 7 2 "c7" "01-09-2024 11:00" true in
  let cs1 := on_receive_message toy_decrypt "keys/me" (ChatScreen ∅ None []) m in
  cs1.(labels) = [Label "plain c7" false 110]
  /\ (add_existing_chat (fun _ _ => Throws ValueError) "keys/new"
        (ChatScreen cs1.(saved_chat) cs1.(saved_chat_file) []) 2 [m]).(labels)
     = [Label "plain c7" false 110].
Proof.
  destruct (received_message_kept toy_decrypt "keys/me" (ChatScreen ∅ None [])
              (Message 7 2 "c7" "01-09-2024 11:00" true) "plain c7" eq_refl)
    as (Hshown & _ & _ & _ & Hagain).
  split; [exact Hshown|].
  exact (Hagain (fun _ _ => Throws ValueError) "keys/new"%string [] 2).
Defined.

End ReceivedMessagesExamples.
